(** * Geometry, bounding-box store and table detection of the image-pdf tool

  A shallow embedding of the TypeScript sources
  (utils/coordinateConversion.ts, utils/tableDetectionUtils.ts,
  utils/ocrUtils.ts, the contrast filter of utils/imagePreprocessing.ts,
  actions/exportActions.ts, the hooks useBoundingBoxes, useOCR, usePDF and
  useTableDetection, the BoundingBoxesList and PDFViewer components and the
  two pages) followed by the properties established about them.

  JavaScript [number]s are modelled as exact rationals ([Q]): every
  arithmetic operator is the exact one, so binary floating-point round-off,
  NaN, the infinities and the sign of zero are outside the model.  A
  quotient whose divisor is zero is therefore only meaningful in theorems
  that assume the divisor to be non-zero.  Numeric results are compared with
  [==] ([Qeq]); [===] on numbers is [Qeq_bool]. *)

From Stdlib Require Import QArith Qround Qabs Lqa ZArith Lia.
From stdpp Require Import base option list sorting gmap strings pretty.

(** ** JavaScript values and built-ins *)

Module Js.
Local Open Scope Q_scope.

Definition number := Q.

(** [Math.round]: nearest integer, a tie going towards +infinity. *)
Definition Math_round (v : number) : number := inject_Z (Qfloor (v + 0.5)).

Definition Math_max (a b : number) : number := if Qle_bool a b then b else a.
Definition Math_min (a b : number) : number := if Qle_bool a b then a else b.
Definition Math_abs (a : number) : number := Qabs a.

(** The relational operators [<], [<=], [>], [>=] and [===] / [!==]. *)
Definition lt (a b : number) : bool := negb (Qle_bool b a).
Definition le (a b : number) : bool := Qle_bool a b.
Definition gt (a b : number) : bool := lt b a.
Definition ge (a b : number) : bool := le b a.
Definition eqq (a b : number) : bool := Qeq_bool a b.
Definition neq (a b : number) : bool := negb (Qeq_bool a b).

(** A string is falsy exactly when it is empty. *)
Definition truthy_string (s : string) : bool :=
  match s with EmptyString => false | _ => true end.

(** A number is falsy exactly when it is zero. *)
Definition truthy_number (v : number) : bool := neq v 0.

(** Outcome of a call that may throw [new Error(msg)]. *)
Inductive result (A : Type) : Type :=
| Ok (a : A)
| Throw (msg : string).
Arguments Ok {A} a.
Arguments Throw {A} msg.

(** [items.forEach((item, index) => { ... out.push(b) ... })] for a callback
    that pushes at most one element: [body now index item] is the element
    pushed, if any, where [now] is the value [Date.now()] has at that push.
    [clock k] is what the [k]-th push reads; [index] and [acc] are the index
    of the first remaining item and the array built so far. *)
Fixpoint forEachPush {A B : Type} (body : Z -> nat -> A -> option B)
    (clock : nat -> Z) (items : list A) (index : nat) (acc : list B) : list B :=
  match items with
  | [] => acc
  | item :: rest =>
      forEachPush body clock rest (S index)
        (match body (clock (length acc)) index item with
         | Some b => acc ++ [b]
         | None => acc
         end)
  end.

(** [s.startsWith(needle)] and [s.includes(needle)] on strings. *)
Fixpoint startsWith (s needle : string) : bool :=
  match needle, s with
  | EmptyString, _ => true
  | String _ _, EmptyString => false
  | String a needle', String b s' => Ascii.eqb a b && startsWith s' needle'
  end.

Fixpoint includes (s needle : string) : bool :=
  startsWith s needle
  || match s with
     | EmptyString => false
     | String _ s' => includes s' needle
     end.

(** Integers printed by a template literal. *)
Definition showZ (z : Z) : string := pretty z.
Definition showNat (n : nat) : string := pretty n.

End Js.

Import Js.

(** ** utils/types.ts *)

Inductive Unit : Set := UnitPx | UnitMm | UnitPt.

Inductive BoundingBoxKind : Set := KindManual | KindOcr | KindTable.

Inductive TableDetectionMode : Set := ModeTable | ModeCells | ModeLines.

Inductive OCRLevel : Set := LevelWord | LevelLine | LevelParagraph | LevelBlock.


#[global] Instance Unit_eq_dec : EqDecision Unit.
Proof. solve_decision. Defined.
#[global] Instance BoundingBoxKind_eq_dec : EqDecision BoundingBoxKind.
Proof. solve_decision. Defined.
#[global] Instance TableDetectionMode_eq_dec : EqDecision TableDetectionMode.
Proof. solve_decision. Defined.

(** [BoundingBox]; [kind] is the optional field [kind?]. *)
Record BoundingBox : Type := mkBoundingBox {
  box_id : string;
  box_x : number;
  box_y : number;
  box_width : number;
  box_height : number;
  box_unit : Unit;
  box_kind : option BoundingBoxKind
}.

Record Point : Type := mkPoint { point_x : number; point_y : number }.

(** The object shape [{x, y, width, height}] used for every rectangle. *)
Record Rect : Type := mkRect {
  rect_x : number;
  rect_y : number;
  rect_width : number;
  rect_height : number
}.

(** ** utils/coordinateConversion.ts *)

Record CoordinateConversion : Type := mkCoordinateConversion {
  pt : Rect;
  px : Rect;
  mm : Rect
}.

Record Dimensions : Type := mkDimensions {
  dim_width : number;
  dim_height : number
}.

(** The part of an [HTMLImageElement] the sources read: its laid-out size,
  its intrinsic size, its [complete] flag, and the RGBA bytes that
  [drawImage] followed by [getImageData] yield for it. *)
Record HTMLImageElement : Type := mkImage {
  clientWidth : number;
  clientHeight : number;
  naturalWidth : nat;
  naturalHeight : nat;
  complete : bool;
  pixels : list Z
}.

Module CoordinateConversion.
Local Open Scope Q_scope.

Definition pointsToPixels (points : number) : number :=
  ((points / 0.75) * 100) / 100.

Definition pointsToMillimeters (points : number) : number :=
  ((points / 2.834645669) * 100) / 100.

Definition pixelsToPoints (pixels : number) : number := pixels * 0.75.

Definition millimetersToPoints (millimeters : number) : number :=
  millimeters * 2.834645669.

Definition imageCoordsToPDFPoints
    (imageX imageY imageWidth imageHeight : number) : CoordinateConversion :=
  let dpiScale := 300 / 72 in
  let pdfX := imageX / dpiScale in
  let pdfY := imageY / dpiScale in
  let pdfWidth := imageWidth / dpiScale in
  let pdfHeight := imageHeight / dpiScale in
  {| pt := {| rect_x := Math_round (pdfX * 100) / 100;
              rect_y := Math_round (pdfY * 100) / 100;
              rect_width := Math_round (pdfWidth * 100) / 100;
              rect_height := Math_round (pdfHeight * 100) / 100 |};
     px := {| rect_x := Math_round (pointsToPixels pdfX * 100) / 100;
              rect_y := Math_round (pointsToPixels pdfY * 100) / 100;
              rect_width := Math_round (pointsToPixels pdfWidth * 100) / 100;
              rect_height := Math_round (pointsToPixels pdfHeight * 100) / 100 |};
     mm := {| rect_x := Math_round (pointsToMillimeters pdfX * 100) / 100;
              rect_y := Math_round (pointsToMillimeters pdfY * 100) / 100;
              rect_width := Math_round (pointsToMillimeters pdfWidth * 100) / 100;
              rect_height := Math_round (pointsToMillimeters pdfHeight * 100) / 100 |} |}.

Definition displayToImageCoords
    (displayX displayY displayWidth displayHeight : number)
    (originalDimensions : option Dimensions)
    (imageElement : option HTMLImageElement) : option Rect :=
  match originalDimensions, imageElement with
  | Some originalDimensions, Some imageElement =>
      let displayImageWidth := clientWidth imageElement in
      let displayImageHeight := clientHeight imageElement in
      let scaleX := dim_width originalDimensions / displayImageWidth in
      let scaleY := dim_height originalDimensions / displayImageHeight in
      Some {| rect_x := displayX * scaleX;
              rect_y := displayY * scaleY;
              rect_width := displayWidth * scaleX;
              rect_height := displayHeight * scaleY |}
  | _, _ => None
  end.

Definition pdfPointsToDisplayCoords
    (pdfX pdfY pdfWidth pdfHeight : number)
    (originalDimensions : option Dimensions)
    (imageElement : option HTMLImageElement) : option Rect :=
  match originalDimensions, imageElement with
  | Some originalDimensions, Some imageElement =>
      let displayImageWidth := clientWidth imageElement in
      let displayImageHeight := clientHeight imageElement in
      let dpiScale := 300 / 72 in
      let imageX := pdfX * dpiScale in
      let imageY := pdfY * dpiScale in
      let imageWidth := pdfWidth * dpiScale in
      let imageHeight := pdfHeight * dpiScale in
      let scaleX := displayImageWidth / dim_width originalDimensions in
      let scaleY := displayImageHeight / dim_height originalDimensions in
      Some {| rect_x := imageX * scaleX;
              rect_y := imageY * scaleY;
              rect_width := imageWidth * scaleX;
              rect_height := imageHeight * scaleY |}
  | _, _ => None
  end.

Definition convertToUnits (value : number) (fromUnit toUnit : Unit) : number :=
  if decide (fromUnit = toUnit) then value else
  let points :=
    match fromUnit with
    | UnitPx => pixelsToPoints value
    | UnitMm => millimetersToPoints value
    | UnitPt => value
    end in
  match toUnit with
  | UnitPx => pointsToPixels points
  | UnitMm => pointsToMillimeters points
  | UnitPt => points
  end.

End CoordinateConversion.

(** ** components/BoundingBoxesList.tsx: the conversion used for display *)

Module BoundingBoxesList.
Local Open Scope Q_scope.

Definition convertToUnits (value : number) (fromUnit toUnit : Unit) : number :=
  if decide (fromUnit = toUnit) then value else
  let points :=
    match fromUnit with
    | UnitPx => value * 0.75
    | UnitMm => value * 2.834645669
    | UnitPt => value
    end in
  let result :=
    match toUnit with
    | UnitPx => points / 0.75
    | UnitMm => points / 2.834645669
    | UnitPt => points
    end in
  Math_round (result * 100) / 100.

(** The four lists the header of the component counts. *)
Definition tableBoxes (boundingBoxes : list BoundingBox) : list BoundingBox :=
  filter (fun box => box_kind box = Some KindTable) boundingBoxes.

Definition lineBoxes (boundingBoxes : list BoundingBox) : list BoundingBox :=
  filter (fun box => includes (box_id box) "line" = true) (tableBoxes boundingBoxes).

Definition cellBoxes (boundingBoxes : list BoundingBox) : list BoundingBox :=
  filter (fun box => includes (box_id box) "cell" = true) (tableBoxes boundingBoxes).

Definition regionBoxes (boundingBoxes : list BoundingBox) : list BoundingBox :=
  filter (fun box => negb (includes (box_id box) "line")
                     && negb (includes (box_id box) "cell") = true)
    (tableBoxes boundingBoxes).

Definition getBoxType (box : BoundingBox) : string :=
  if includes (box_id box) "hline" then "Horizontal Line"
  else if includes (box_id box) "vline" then "Vertical Line"
  else if includes (box_id box) "cell" then "Table Cell"
  else if bool_decide (box_kind box = Some KindTable) then "Table Region"
  else if bool_decide (box_kind box = Some KindOcr) then "OCR Text"
  else "Manual Box".

End BoundingBoxesList.

(** ** hooks/useBoundingBoxes.ts: the bounding-box store

    The store is the React state [boundingBoxes]; every operation is the
    updater function handed to [setBoundingBoxes], from the previous list to
    the next one. *)

Module UseBoundingBoxes.

(** [Partial<BoundingBox>]: each field is either named or absent.  For the
    optional [kind] a named field may carry [undefined] ([Some None]). *)
Record PartialBoundingBox : Type := mkPartial {
  upd_id : option string;
  upd_x : option number;
  upd_y : option number;
  upd_width : option number;
  upd_height : option number;
  upd_unit : option Unit;
  upd_kind : option (option BoundingBoxKind)
}.

(** The object spread [{ ...box, ...updates }]. *)
Definition spread (box : BoundingBox) (updates : PartialBoundingBox) : BoundingBox :=
  {| box_id := default (box_id box) (upd_id updates);
     box_x := default (box_x box) (upd_x updates);
     box_y := default (box_y box) (upd_y updates);
     box_width := default (box_width box) (upd_width updates);
     box_height := default (box_height box) (upd_height updates);
     box_unit := default (box_unit box) (upd_unit updates);
     box_kind := default (box_kind box) (upd_kind updates) |}.

Definition addBoundingBox (box : BoundingBox) (prev : list BoundingBox) :=
  prev ++ [box].

Definition addBoundingBoxes (boxes prev : list BoundingBox) := prev ++ boxes.

Definition removeBoundingBox (id : string) (prev : list BoundingBox) :=
  filter (fun box => box_id box <> id) prev.

Definition removeBoundingBoxesByKind (kind : BoundingBoxKind) (prev : list BoundingBox) :=
  filter (fun box => box_kind box <> Some kind) prev.

Definition clearBoundingBoxes (prev : list BoundingBox) : list BoundingBox := [].

Definition updateBoundingBox (id : string) (updates : PartialBoundingBox)
    (prev : list BoundingBox) : list BoundingBox :=
  map (fun box => if decide (box_id box = id) then spread box updates else box) prev.

Definition getBoundingBox (id : string) (boundingBoxes : list BoundingBox)
    : option BoundingBox :=
  snd <$> list_find (fun box => box_id box = id) boundingBoxes.

Definition getBoundingBoxesByKind (kind : BoundingBoxKind)
    (boundingBoxes : list BoundingBox) : list BoundingBox :=
  filter (fun box => box_kind box = Some kind) boundingBoxes.

Definition kindName (kind : BoundingBoxKind) : string :=
  match kind with
  | KindManual => "manual"
  | KindOcr => "ocr"
  | KindTable => "table"
  end.

(** The result of [getBoundingBoxesStats]; [byKind] is the object the
    [reduce] builds, from kind names to counts. *)
Record Stats : Type := mkStats {
  total : nat;
  byKind : gmap string nat;
  hasOCR : bool;
  hasTable : bool;
  hasManual : bool
}.

(** The callback of the [reduce]: [acc[kind] = (acc[kind] || 0) + 1] with
    [kind = box.kind || 'manual']. *)
Definition countKind (acc : gmap string nat) (box : BoundingBox) : gmap string nat :=
  let kind := kindName (default KindManual (box_kind box)) in
  <[kind := (default 0 (acc !! kind) + 1)%nat]> acc.

(** [byKind.k > 0], false when the key is absent. *)
Definition positiveCount (byKind : gmap string nat) (k : string) : bool :=
  match byKind !! k with
  | Some n => Nat.ltb 0 n
  | None => false
  end.

Definition getBoundingBoxesStats (boundingBoxes : list BoundingBox) : Stats :=
  let byKind := fold_left countKind boundingBoxes ∅ in
  {| total := length boundingBoxes;
     byKind := byKind;
     hasOCR := positiveCount byKind "ocr";
     hasTable := positiveCount byKind "table";
     hasManual := positiveCount byKind "manual" |}.

End UseBoundingBoxes.

(** ** utils/ocrUtils.ts *)

Module OcrUtils.
Local Open Scope Q_scope.

(** What the text-recognition engine hands over; the code reads every field
    defensively ([bbox?.x0 ?? 0], [word.text || ''], ...), so each may be
    missing. *)
Record TesseractBBox : Type := mkTesseractBBox {
  tess_x0 : option number;
  tess_y0 : option number;
  tess_x1 : option number;
  tess_y1 : option number
}.

Record TesseractItem : Type := mkTesseractItem {
  tess_text : option string;
  tess_confidence : option number;
  tess_bbox : option TesseractBBox
}.

Record TesseractData : Type := mkTesseractData {
  tess_data_text : option string;
  tess_data_confidence : option number;
  tess_words : option (list TesseractItem);
  tess_lines : option (list TesseractItem);
  tess_paragraphs : option (list TesseractItem);
  tess_blocks : option (list TesseractItem)
}.

Record OriginalBBox : Type := mkOriginalBBox {
  x0 : number; y0 : number; x1 : number; y1 : number
}.

Record OCRBBox : Type := mkOCRBBox {
  original : OriginalBBox;
  bbox_pt : option Rect;
  bbox_px : option Rect;
  bbox_mm : option Rect
}.

(** [OCRWord], [OCRLine], [OCRParagraph] and [OCRBlock] are one shape.  The
    consumers test [typeof item.confidence === 'number'] and [!bbox], so a
    confidence that is not a number and an absent bbox are representable
    ([None]). *)
Record OCRItem : Type := mkOCRItem {
  item_id : string;
  item_text : string;
  item_confidence : option number;
  item_bbox : option OCRBBox
}.

Record OCRResult : Type := mkOCRResult {
  ocr_text : string;
  ocr_confidence : number;
  words : list OCRItem;
  lines : list OCRItem;
  paragraphs : list OCRItem;
  blocks : list OCRItem
}.

(** [v || 0] on an optional number. *)
Definition orZero (v : option number) : number :=
  match v with
  | Some c => if truthy_number c then c else 0
  | None => 0
  end.

(** [s || ''] on an optional string. *)
Definition orEmpty (s : option string) : string := default EmptyString s.

(** [bbox?.f ?? 0]. *)
Definition coordOrZero (bbox : option TesseractBBox)
    (f : TesseractBBox -> option number) : number :=
  match bbox with
  | Some b => default 0 (f b)
  | None => 0
  end.

(** The body of the four [map] callbacks of [processOCRResult]; [name] is
    "word", "line", "paragraph" or "block" and [now] the value of
    [Date.now()] at this call. *)
Definition processItem
    (convertToPDFCoords : number -> number -> number -> number -> option CoordinateConversion)
    (name : string) (now : Z) (index : nat) (word : TesseractItem) : OCRItem :=
  let bbox := tess_bbox word in
  let x0 := coordOrZero bbox tess_x0 in
  let y0 := coordOrZero bbox tess_y0 in
  let x1 := coordOrZero bbox tess_x1 in
  let y1 := coordOrZero bbox tess_y1 in
  let width := Math_max 1 (x1 - x0) in
  let height := Math_max 1 (y1 - y0) in
  let coords := convertToPDFCoords x0 y0 width height in
  {| item_id := "ocr-" +:+ name +:+ "-" +:+ showZ now +:+ "-" +:+ showNat index;
     item_text := orEmpty (tess_text word);
     item_confidence := Some (orZero (tess_confidence word));
     item_bbox := Some {| original := {| x0 := x0; y0 := y0; x1 := x1; y1 := y1 |};
                          bbox_pt := pt <$> coords;
                          bbox_px := px <$> coords;
                          bbox_mm := mm <$> coords |} |}.

(** One level of [processOCRResult]: absent input leaves the empty array.
    [clock k] is what the [k]-th call of [Date.now()] returns. *)
Definition processLevel
    (convertToPDFCoords : number -> number -> number -> number -> option CoordinateConversion)
    (name : string) (clock : nat -> Z) (items : option (list TesseractItem))
    : list OCRItem :=
  match items with
  | Some items =>
      imap (fun index word =>
              processItem convertToPDFCoords name (clock index) index word) items
  | None => []
  end.

Definition processOCRResult (tesseractData : TesseractData)
    (convertToPDFCoords : number -> number -> number -> number -> option CoordinateConversion)
    (clock : nat -> Z) : OCRResult :=
  let nw := length (default [] (tess_words tesseractData)) in
  let nl := length (default [] (tess_lines tesseractData)) in
  let np := length (default [] (tess_paragraphs tesseractData)) in
  {| ocr_text := orEmpty (tess_data_text tesseractData);
     ocr_confidence := orZero (tess_data_confidence tesseractData);
     words := processLevel convertToPDFCoords "word" clock
                (tess_words tesseractData);
     lines := processLevel convertToPDFCoords "line"
                (fun k => clock (nw + k)%nat) (tess_lines tesseractData);
     paragraphs := processLevel convertToPDFCoords "paragraph"
                (fun k => clock (nw + nl + k)%nat) (tess_paragraphs tesseractData);
     blocks := processLevel convertToPDFCoords "block"
                (fun k => clock (nw + nl + np + k)%nat) (tess_blocks tesseractData) |}.

Definition getOCRDataByLevel (data : OCRResult) (level : OCRLevel) : list OCRItem :=
  match level with
  | LevelLine => lines data
  | LevelParagraph => paragraphs data
  | LevelBlock => blocks data
  | LevelWord => words data
  end.

(** [typeof item.confidence === 'number' ? item.confidence : 0]. *)
Definition confidenceOf (item : OCRItem) : number := default 0 (item_confidence item).

Definition filterOCRResultsByConfidence (items : list OCRItem)
    (minConfidence : number) : list OCRItem :=
  filter (fun item => ge (confidenceOf item) minConfidence = true) items.

End OcrUtils.

(** ** hooks/useOCR.ts *)

Module UseOCR.
Local Open Scope Q_scope.
Import OcrUtils.

Record OCRSettings : Type := mkOCRSettings {
  language : string;
  level : OCRLevel;
  minConfidence : number;
  enhanceImage : bool
}.

Definition levelName (l : OCRLevel) : string :=
  match l with
  | LevelWord => "word"
  | LevelLine => "line"
  | LevelParagraph => "paragraph"
  | LevelBlock => "block"
  end.

(** The callback of [filteredItems.forEach]: the box it pushes, if any;
    [now] is [Date.now()] at the push. *)
Definition ocrBoxOfItem (settings : OCRSettings) (now : Z) (index : nat)
    (item : OCRItem) : option BoundingBox :=
  match item_bbox item with
  | None => None
  | Some bbox =>
      match bbox_pt bbox with
      | Some coords =>
          if neq (rect_x coords) 0 && neq (rect_y coords) 0 then
            Some {| box_id := "ocr-" +:+ levelName (level settings) +:+ "-bbox-"
                              +:+ showZ now +:+ "-" +:+ showNat index;
                    box_x := rect_x coords;
                    box_y := rect_y coords;
                    box_width := rect_width coords;
                    box_height := rect_height coords;
                    box_unit := UnitPt;
                    box_kind := Some KindOcr |}
          else None
      | None => None
      end
  end.

(** [generateBoundingBoxes(unit)]; the argument [unit] is not read. *)
Definition generateBoundingBoxes (textData : option OCRResult)
    (settings : OCRSettings) (clock : nat -> Z) (unit : Unit) : list BoundingBox :=
  match textData with
  | None => []
  | Some textData =>
      let items := getOCRDataByLevel textData (level settings) in
      let filteredItems := filterOCRResultsByConfidence items (minConfidence settings) in
      forEachPush (ocrBoxOfItem settings) clock filteredItems 0 []
  end.

End UseOCR.

(** ** hooks/usePDF.ts *)

Module UsePDF.
Local Open Scope Q_scope.
Import CoordinateConversion.

(** [convertDisplayToPDF]; [originalDimensions] is
    [pdfInfo.originalDimensions] and [pdfImage] what
    [document.querySelector('#pdf-image')] finds. *)
Definition convertDisplayToPDF (originalDimensions : option Dimensions)
    (pdfImage : option HTMLImageElement)
    (displayX displayY displayWidth displayHeight : number)
    (imageElement : option HTMLImageElement) : option CoordinateConversion :=
  match originalDimensions with
  | None => None
  | Some _ =>
      let imgElement :=
        match imageElement with Some e => Some e | None => pdfImage end in
      match imgElement with
      | None => None
      | Some _ =>
          match displayToImageCoords displayX displayY displayWidth displayHeight
                  originalDimensions imgElement with
          | None => None
          | Some imageCoords =>
              Some (imageCoordsToPDFPoints (rect_x imageCoords) (rect_y imageCoords)
                      (rect_width imageCoords) (rect_height imageCoords))
          end
      end
  end.

(** The page counters of [PDFDocumentInfo]. *)
Record PageInfo : Type := mkPageInfo {
  currentPage : number;
  totalPages : number
}.

Definition changePage (pageNum : number) (info : PageInfo) : PageInfo :=
  if ge pageNum 1 && le pageNum (totalPages info)
  then {| currentPage := pageNum; totalPages := totalPages info |}
  else info.

End UsePDF.

(** ** app/image-pdf/page.tsx: drawing a box by hand *)

Module ImagePdfPage.
Local Open Scope Q_scope.

Record DrawingState : Type := mkDrawingState {
  isDrawing : bool;
  startPoint : option Point;
  currentBox : option BoundingBox;
  selectedUnit : Unit;
  boundingBoxes : list BoundingBox
}.

(** The mouse event: pointer position and the container's client
    rectangle. *)
Record MouseEvent : Type := mkMouseEvent {
  clientX : number;
  clientY : number;
  rect_left : number;
  rect_top : number
}.

(** [handleMouseDown]; [imageDataUrl] is [pdfInfo.imageDataUrl]. *)
Definition handleMouseDown (imageDataUrl : option string)
    (event : MouseEvent) (st : DrawingState) : DrawingState :=
  match imageDataUrl with
  | Some url =>
      if truthy_string url then
        let imageX := clientX event - rect_left event in
        let imageY := clientY event - rect_top event in
        {| isDrawing := true;
           startPoint := Some {| point_x := imageX; point_y := imageY |};
           currentBox := currentBox st;
           selectedUnit := selectedUnit st;
           boundingBoxes := boundingBoxes st |}
      else st
  | None => st
  end.

(** [handleMouseMove]: the preview box holds display coordinates and the
    selected unit. *)
Definition handleMouseMove (now : Z) (event : MouseEvent)
    (st : DrawingState) : DrawingState :=
  match isDrawing st, startPoint st with
  | true, Some startPoint' =>
      let currentX := clientX event - rect_left event in
      let currentY := clientY event - rect_top event in
      let width := Math_abs (currentX - point_x startPoint') in
      let height := Math_abs (currentY - point_y startPoint') in
      let boxX := Math_min currentX (point_x startPoint') in
      let boxY := Math_min currentY (point_y startPoint') in
      {| isDrawing := isDrawing st;
         startPoint := startPoint st;
         currentBox := Some {| box_id := "temp-" +:+ showZ now;
                               box_x := boxX;
                               box_y := boxY;
                               box_width := width;
                               box_height := height;
                               box_unit := selectedUnit st;
                               box_kind := None |};
         selectedUnit := selectedUnit st;
         boundingBoxes := boundingBoxes st |}
  | _, _ => st
  end.

(** [handleMouseUp]; [convertDisplayToPDF] is the converter of [usePDF],
    [imageRef] is [imageRef.current], [now] is [Date.now()]. *)
Definition handleMouseUp
    (convertDisplayToPDF :
       number -> number -> number -> number -> option HTMLImageElement ->
       option CoordinateConversion)
    (imageRef : option HTMLImageElement) (now : Z)
    (event : MouseEvent) (st : DrawingState) : DrawingState :=
  match isDrawing st, startPoint st, currentBox st with
  | true, Some startPoint, Some _ =>
      let currentX := clientX event - rect_left event in
      let currentY := clientY event - rect_top event in
      let width := Math_abs (currentX - point_x startPoint) in
      let height := Math_abs (currentY - point_y startPoint) in
      let boxX := Math_min currentX (point_x startPoint) in
      let boxY := Math_min currentY (point_y startPoint) in
      let coords := convertDisplayToPDF boxX boxY width height imageRef in
      let boxes :=
        match coords with
        | Some coords =>
            if gt width 5 && gt height 5 then
              UseBoundingBoxes.addBoundingBoxes
                [ {| box_id := "bbox-" +:+ showZ now;
                     box_x := rect_x (pt coords);
                     box_y := rect_y (pt coords);
                     box_width := rect_width (pt coords);
                     box_height := rect_height (pt coords);
                     box_unit := UnitPt;
                     box_kind := Some KindManual |} ]
                (boundingBoxes st)
            else boundingBoxes st
        | None => boundingBoxes st
        end in
      {| isDrawing := false; startPoint := None; currentBox := None;
         selectedUnit := selectedUnit st; boundingBoxes := boxes |}
  | _, _, _ => st
  end.

(** The effect that runs when [ocrTextData] changes: the next store.
    [generateBoundingBoxes] is the function of [useOCR], closed over that
    text data. *)
Definition ocrEffect (ocrTextData : option OcrUtils.OCRResult)
    (generateBoundingBoxes : Unit -> list BoundingBox)
    (prev : list BoundingBox) : list BoundingBox :=
  match ocrTextData with
  | Some data =>
      if Nat.ltb 0 (length (OcrUtils.words data))
      then UseBoundingBoxes.addBoundingBoxes (generateBoundingBoxes UnitPt) prev
      else prev
  | None => prev
  end.

(** [handleDetectTables], given what [detectTables] resolved to, and
    [handleClearTableBoxes]. *)
Definition handleDetectTables (detected : list BoundingBox)
    (prev : list BoundingBox) : list BoundingBox :=
  UseBoundingBoxes.addBoundingBoxes detected prev.

Definition handleClearTableBoxes (prev : list BoundingBox) : list BoundingBox :=
  UseBoundingBoxes.removeBoundingBoxesByKind KindTable prev.

End ImagePdfPage.

(** ** The PDF-canvas page (PDFBboxTool): drawing a box by hand *)

Module PdfBboxPage.
Local Open Scope Q_scope.

(** This page declares its own [BoundingBox], without [kind]. *)
Record PageState : Type := mkPageState {
  pdfDocument : option (number -> Dimensions);
  zoom : number;
  isDrawing : bool;
  startPoint : option Point;
  currentBox : option BoundingBox;
  selectedUnit : Unit;
  boundingBoxes : list BoundingBox
}.

(** [convertCanvasToPDF]; the loaded document is represented by the
    [getViewport] of its current page, from a scale to the viewport size. *)
Definition convertCanvasToPDF (st : PageState)
    (canvasX canvasY canvasWidth canvasHeight : number)
    : option CoordinateConversion :=
  match pdfDocument st with
  | None => None
  | Some getViewport =>
      let viewport := getViewport 1 in
      let displayViewport := getViewport (zoom st) in
      let scaleX := dim_width viewport / dim_width displayViewport in
      let scaleY := dim_height viewport / dim_height displayViewport in
      let pdfX := canvasX * scaleX in
      let pdfY := canvasY * scaleY in
      let pdfWidth := canvasWidth * scaleX in
      let pdfHeight := canvasHeight * scaleY in
      Some {| pt := {| rect_x := Math_round (pdfX * 100) / 100;
                       rect_y := Math_round (pdfY * 100) / 100;
                       rect_width := Math_round (pdfWidth * 100) / 100;
                       rect_height := Math_round (pdfHeight * 100) / 100 |};
              px := {| rect_x := Math_round ((pdfX / 0.75) * 100) / 100;
                       rect_y := Math_round ((pdfY / 0.75) * 100) / 100;
                       rect_width := Math_round ((pdfWidth / 0.75) * 100) / 100;
                       rect_height := Math_round ((pdfHeight / 0.75) * 100) / 100 |};
              mm := {| rect_x := Math_round ((pdfX / 2.834645669) * 100) / 100;
                       rect_y := Math_round ((pdfY / 2.834645669) * 100) / 100;
                       rect_width := Math_round ((pdfWidth / 2.834645669) * 100) / 100;
                       rect_height := Math_round ((pdfHeight / 2.834645669) * 100) / 100 |} |}
  end.

(** [handleMouseUp]: the stored scalars are [coords.pt], the stored unit is
    [selectedUnit]. *)
Definition handleMouseUp (now : Z) (st : PageState) : PageState :=
  match isDrawing st, startPoint st, currentBox st with
  | true, Some _, Some currentBox =>
      let coords := convertCanvasToPDF st (box_x currentBox) (box_y currentBox)
                      (box_width currentBox) (box_height currentBox) in
      let boxes :=
        match coords with
        | Some coords =>
            if gt (box_width currentBox) 5 && gt (box_height currentBox) 5 then
              boundingBoxes st ++
                [ {| box_id := "bbox-" +:+ showZ now;
                     box_x := rect_x (pt coords);
                     box_y := rect_y (pt coords);
                     box_width := rect_width (pt coords);
                     box_height := rect_height (pt coords);
                     box_unit := selectedUnit st;
                     box_kind := None |} ]
            else boundingBoxes st
        | None => boundingBoxes st
        end in
      {| pdfDocument := pdfDocument st; zoom := zoom st;
         isDrawing := false; startPoint := None; currentBox := None;
         selectedUnit := selectedUnit st; boundingBoxes := boxes |}
  | _, _, _ => st
  end.


(** One element of the [boundingBoxes] array that [exportData] writes: the
    stored scalars are read as points, whatever [box.unit] says. *)
Record ExportedBox : Type := mkExportedBox {
  exp_id : string;
  exp_index : nat;
  exp_pt : Rect;
  exp_px : Rect;
  exp_mm : Rect
}.

(** The callback of [boundingBoxes.map] in [exportData]. *)
Definition exportBox (index : nat) (box : BoundingBox) : ExportedBox :=
  {| exp_id := box_id box;
     exp_index := index + 1;
     exp_pt := {| rect_x := Math_round (box_x box * 100) / 100;
                  rect_y := Math_round (box_y box * 100) / 100;
                  rect_width := Math_round (box_width box * 100) / 100;
                  rect_height := Math_round (box_height box * 100) / 100 |};
     exp_px := {| rect_x := Math_round ((box_x box / 0.75) * 100) / 100;
                  rect_y := Math_round ((box_y box / 0.75) * 100) / 100;
                  rect_width := Math_round ((box_width box / 0.75) * 100) / 100;
                  rect_height := Math_round ((box_height box / 0.75) * 100) / 100 |};
     exp_mm := {| rect_x := Math_round ((box_x box / 2.834645669) * 100) / 100;
                  rect_y := Math_round ((box_y box / 2.834645669) * 100) / 100;
                  rect_width := Math_round ((box_width box / 2.834645669) * 100) / 100;
                  rect_height := Math_round ((box_height box / 2.834645669) * 100) / 100 |} |}.

Definition exportData (boundingBoxes : list BoundingBox) : list ExportedBox :=
  imap exportBox boundingBoxes.

End PdfBboxPage.

(** ** utils/tableDetectionUtils.ts

    Image sizes and loop counters are natural numbers; positions stored in
    arrays and records are [number]s. *)

Module TableDetectionUtils.
Local Open Scope Q_scope.

Record TableRegion : Type := mkTableRegion {
  region_x : number;
  region_y : number;
  region_width : number;
  region_height : number
}.

Record TableCell : Type := mkTableCell {
  cell_x : number;
  cell_y : number;
  cell_width : number;
  cell_height : number;
  cell_row : nat;
  cell_col : nat
}.

Definition natQ (n : nat) : number := inject_Z (Z.of_nat n).

(** [(data[idx] + data[idx + 1] + data[idx + 2]) / 3 < threshold].  A read
    past the end of the array is [undefined], the sum is then not a number
    and the comparison is false. *)
Definition isDarkAt (data : list Z) (idx : nat) (threshold : number) : bool :=
  match data !! idx, data !! (idx + 1)%nat, data !! (idx + 2)%nat with
  | Some r, Some g, Some b =>
      lt ((inject_Z r + inject_Z g + inject_Z b) / 3) threshold
  | _, _, _ => false
  end.

(** One pixel of the inner scanning loop: the pair is
    [(consecutiveDarkPixels, maxConsecutive)]. *)
Definition scanPixel (dark : bool) (st : nat * nat) : nat * nat :=
  if dark then (S (fst st), Nat.max (snd st) (S (fst st))) else (0%nat, snd st).

(** [maxConsecutive] after the inner loop over the given pixel indices. *)
Definition maxConsecutive (data : list Z) (indices : list nat) : nat :=
  snd (fold_left (fun st idx => scanPixel (isDarkAt data idx 128) st) indices (0%nat, 0%nat)).

Definition detectHorizontalLines (data : list Z) (width height : nat)
    (minLineLength : option number) : list number :=
  let minLineLength := default (natQ width * 0.3) minLineLength in
  flat_map (fun y =>
      let run := maxConsecutive data
                   (map (fun x => ((y * width + x) * 4)%nat) (seq 0 width)) in
      if ge (natQ run) minLineLength then [natQ y] else [])
    (seq 0 height).

Definition detectVerticalLines (data : list Z) (width height : nat)
    (minLineLength : option number) : list number :=
  let minLineLength := default (natQ height * 0.3) minLineLength in
  flat_map (fun x =>
      let run := maxConsecutive data
                   (map (fun y => ((y * width + x) * 4)%nat) (seq 0 height)) in
      if ge (natQ run) minLineLength then [natQ x] else [])
    (seq 0 width).

(** [lines.sort((a, b) => a - b)]: ascending, stable. *)
Fixpoint insertSorted (a : number) (l : list number) : list number :=
  match l with
  | [] => [a]
  | b :: l' => if le a b then a :: l else b :: insertSorted a l'
  end.

Definition sortAscending (l : list number) : list number := foldr insertSorted [] l.

(** The loop of [filterLines] from index 1 on; [last] is
    [filtered[filtered.length - 1]]. *)
Fixpoint keepDistant (minDistance last : number) (rest : list number) : list number :=
  match rest with
  | [] => []
  | l :: rest' =>
      if ge (l - last) minDistance
      then l :: keepDistant minDistance l rest'
      else keepDistant minDistance last rest'
  end.

Definition filterLines (lines : list number) (maxDimension : number)
    (minDistance : option number) : list number :=
  let minDistance := default (Math_max 10 (maxDimension * 0.01)) minDistance in
  match sortAscending lines with
  | [] => []
  | first :: rest => first :: keepDistant minDistance first rest
  end.

(** The flood fill of [findTableRegion].  A key "x,y" of the two string sets
    is the pair [(x, y)]; the head of [stack] is the element [pop] returns. *)
Record FloodState : Type := mkFloodState {
  stack : list (Z * Z);
  regionPixels : gset (Z * Z);
  visited : gset (Z * Z);
  minX : Z;
  maxX : Z;
  minY : Z;
  maxY : Z
}.

(** [stack.length > 0 && regionPixels.size < 10000]. *)
Definition floodContinue (st : FloodState) : bool :=
  match stack st with
  | [] => false
  | _ :: _ => (Z.of_nat (size (regionPixels st)) <? 10000)%Z
  end.

Definition popOnly (st : FloodState) (rest : list (Z * Z)) : FloodState :=
  {| stack := rest; regionPixels := regionPixels st; visited := visited st;
     minX := minX st; maxX := maxX st; minY := minY st; maxY := maxY st |}.

(** One iteration of the [while] loop. *)
Definition floodStep (data : list Z) (width height : nat) (st : FloodState)
    : FloodState :=
  match stack st with
  | [] => st
  | (x, y) :: rest =>
      if decide ((x, y) ∈ visited st \/ (x, y) ∈ regionPixels st) then popOnly st rest
      else if ((x <? 0) || (Z.of_nat width <=? x) || (y <? 0) || (Z.of_nat height <=? y))%Z
      then popOnly st rest
      else
        let idx := Z.to_nat ((y * Z.of_nat width + x) * 4) in
        if isDarkAt data idx 150 then
          {| stack := (x, y - 1)%Z :: (x, y + 1)%Z :: (x - 1, y)%Z :: (x + 1, y)%Z :: rest;
             regionPixels := {[ (x, y) ]} ∪ regionPixels st;
             visited := {[ (x, y) ]} ∪ visited st;
             minX := Z.min (minX st) x; maxX := Z.max (maxX st) x;
             minY := Z.min (minY st) y; maxY := Z.max (maxY st) y |}
        else popOnly st rest
  end.

(** The [while] loop, run for at most [fuel] iterations. *)
Fixpoint floodLoop (data : list Z) (width height : nat) (fuel : nat)
    (st : FloodState) : FloodState :=
  match fuel with
  | O => st
  | S fuel' =>
      if floodContinue st
      then floodLoop data width height fuel' (floodStep data width height st)
      else st
  end.

(** An iteration either pops one entry or records one new pixel (of at most
    10000) and grows the stack by three: [floodFuel] iterations always
    suffice (lemma [floodLoop_terminates]). *)
Definition floodMeasure (st : FloodState) : nat :=
  (length (stack st) + 5 * (Z.to_nat 10000 - size (regionPixels st)))%nat.

Definition floodFuel : nat := Z.to_nat 50001.

(** [findTableRegion]: the region found, if any, and the set [visited] as
    the call leaves it. *)
Definition findTableRegion (data : list Z) (width height : nat)
    (startX startY : Z) (visited0 : gset (Z * Z))
    : option TableRegion * gset (Z * Z) :=
  let st := floodLoop data width height floodFuel
              {| stack := [(startX, startY)]; regionPixels := ∅; visited := visited0;
                 minX := startX; maxX := startX; minY := startY; maxY := startY |} in
  let regionWidth := inject_Z (maxX st - minX st) in
  let regionHeight := inject_Z (maxY st - minY st) in
  if lt regionWidth 100 || lt regionHeight 50 then (None, visited st)
  else if gt regionWidth (natQ width * 0.9) || gt regionHeight (natQ height * 0.9)
  then (None, visited st)
  else (Some {| region_x := inject_Z (minX st); region_y := inject_Z (minY st);
                region_width := regionWidth; region_height := regionHeight |},
        visited st).

(** The values a loop [for (v = 0; v < limit; v += 20)] takes. *)
Definition seedsBelow (limit : Z) : list Z :=
  map (fun k => (20 * Z.of_nat k)%Z) (seq 0 (Z.to_nat ((limit + 19) / 20))).

(** The body of the two nested loops of [detectTableRegions] at one seed. *)
Definition visitSeed (data : list Z) (width height : nat)
    (acc : list TableRegion * gset (Z * Z)) (seed : Z * Z)
    : list TableRegion * gset (Z * Z) :=
  if decide ((snd seed, fst seed) ∈ snd acc) then acc
  else
    match findTableRegion data width height (snd seed) (fst seed) (snd acc) with
    | (Some region, visited') => (fst acc ++ [region], visited')
    | (None, visited') => (fst acc, visited')
    end.

(** [detectTableRegions]; a seed is the pair [(y, x)], rows outermost. *)
Definition detectTableRegions (data : list Z) (width height : nat)
    : list TableRegion :=
  let seeds :=
    flat_map (fun y => map (fun x => (y, x)) (seedsBelow (Z.of_nat width - 50)))
      (seedsBelow (Z.of_nat height - 50)) in
  fst (fold_left (visitSeed data width height) seeds ([], ∅)).

Definition isValidCell (x y width height imgWidth imgHeight : number) : bool :=
  if lt width 20 || lt height 15 then false
  else if gt width (imgWidth * 0.9) || gt height (imgHeight * 0.9) then false
  else if lt x 0 || lt y 0 || gt (x + width) imgWidth || gt (y + height) imgHeight
  then false
  else
    let aspectRatio := width / height in
    if lt aspectRatio 0.1 || gt aspectRatio 10 then false
    else true.

(** An array read [lines[i]] at an index below the length. *)
Definition lineAt (lines : list number) (i : nat) : number := default 0 (lines !! i).

Definition createCellsFromLines (horizontalLines verticalLines : list number)
    (imgWidth imgHeight : number) : list TableCell :=
  if Nat.ltb (length horizontalLines) 2 || Nat.ltb (length verticalLines) 2 then []
  else
    flat_map (fun row =>
      flat_map (fun col =>
        let cellX := lineAt verticalLines col in
        let cellY := lineAt horizontalLines row in
        let cellWidth := lineAt verticalLines (col + 1) - lineAt verticalLines col in
        let cellHeight := lineAt horizontalLines (row + 1) - lineAt horizontalLines row in
        if isValidCell cellX cellY cellWidth cellHeight imgWidth imgHeight
        then [ {| cell_x := cellX; cell_y := cellY;
                  cell_width := cellWidth; cell_height := cellHeight;
                  cell_row := row; cell_col := col |} ]
        else [])
        (seq 0 (length verticalLines - 1)))
      (seq 0 (length horizontalLines - 1)).

(** [convertTableRegionToBoundingBox], [convertTableCellToBoundingBox] and
    [convertTableLineToBoundingBox]: the point-space scalars under the unit
    passed by the caller.  The hook imports them but builds its boxes
    itself. *)
Definition boxOfCoords (id : string) (unit : Unit)
    (coords : option CoordinateConversion) : option BoundingBox :=
  match coords with
  | None => None
  | Some coords =>
      Some {| box_id := id;
              box_x := rect_x (pt coords);
              box_y := rect_y (pt coords);
              box_width := rect_width (pt coords);
              box_height := rect_height (pt coords);
              box_unit := unit;
              box_kind := Some KindTable |}
  end.

Definition convertTableRegionToBoundingBox (region : TableRegion)
    (convertToPDFCoords : number -> number -> number -> number -> option CoordinateConversion)
    (id : string) (unit : Unit) : option BoundingBox :=
  boxOfCoords id unit
    (convertToPDFCoords (region_x region) (region_y region)
       (region_width region) (region_height region)).

Definition convertTableCellToBoundingBox (cell : TableCell)
    (convertToPDFCoords : number -> number -> number -> number -> option CoordinateConversion)
    (now : Z) (unit : Unit) : option BoundingBox :=
  boxOfCoords ("cell-" +:+ showZ now +:+ "-" +:+ showNat (cell_row cell)
               +:+ "-" +:+ showNat (cell_col cell)) unit
    (convertToPDFCoords (cell_x cell) (cell_y cell) (cell_width cell) (cell_height cell)).

Inductive LineType : Set := Horizontal | Vertical.

Record TableLine : Type := mkTableLine {
  line_x : number;
  line_y : number;
  line_width : option number;
  line_height : option number;
  line_type : LineType
}.

(** [v || 1] on an optional number. *)
Definition orOne (v : option number) : number :=
  match v with
  | Some c => if truthy_number c then c else 1
  | None => 1
  end.

Definition convertTableLineToBoundingBox (line : TableLine)
    (convertToPDFCoords : number -> number -> number -> number -> option CoordinateConversion)
    (id : string) (unit : Unit) : option BoundingBox :=
  let width := match line_type line with
               | Horizontal => orOne (line_width line) | Vertical => 1 end in
  let height := match line_type line with
                | Vertical => orOne (line_height line) | Horizontal => 1 end in
  boxOfCoords id unit (convertToPDFCoords (line_x line) (line_y line) width height).

End TableDetectionUtils.

(** ** hooks/useTableDetection.ts *)

Module UseTableDetection.
Local Open Scope Q_scope.
Import CoordinateConversion TableDetectionUtils.

(** A rectangle returned by [cv.boundingRect]. *)
Record CvRect : Type := mkCvRect {
  cv_x : Z;
  cv_y : Z;
  cv_width : Z;
  cv_height : Z
}.

(** The morphological engine [window.cv], an external dependency.  Only its
    results are represented: the size of the matrix [cv.imread] builds and,
    for each pipeline of erosions, dilations, mask combination and
    [findContours], the bounding rectangles of the contours found, as a
    function of the image and of the two structuring-element lengths the
    hook computes.  Any engine call may throw. *)
Record CvEngine : Type := mkCvEngine {
  cv_imread : HTMLImageElement -> result (nat * nat);
  cv_tableContours : HTMLImageElement -> Z -> Z -> result (list CvRect);
  cv_lineContours : HTMLImageElement -> Z -> Z -> result (list CvRect * list CvRect);
  cv_cellContours : HTMLImageElement -> Z -> Z -> result (list CvRect)
}.

(** What the hook reads from its surroundings: its argument
    [imageDataUrl], the element [document.querySelector('img')] finds,
    whether a canvas hands out a 2D context, and [window.cv]. *)
Record Env : Type := mkEnv {
  imageDataUrl : option string;
  domImg : option HTMLImageElement;
  canvasContext : bool;
  windowCv : option CvEngine
}.

(** The React state of the hook. *)
Record HookState : Type := mkHookState {
  mode : TableDetectionMode;
  isProcessing : bool;
  cvLoaded : bool;
  cvError : option string
}.

Definition tableBox (id : string) (coords : CoordinateConversion) : BoundingBox :=
  {| box_id := id;
     box_x := rect_x (pt coords);
     box_y := rect_y (pt coords);
     box_width := rect_width (pt coords);
     box_height := rect_height (pt coords);
     box_unit := UnitPt;
     box_kind := Some KindTable |}.

Definition cvQ (z : Z) : number := inject_Z z.

(** The loop bodies of [detectTablesWithOpenCV]. *)
Definition cvRegionBox (rows cols : nat) (now : Z) (i : nat) (rect : CvRect)
    : option BoundingBox :=
  let minWidth := Math_max 100 (natQ cols * 0.1) in
  let minHeight := Math_max 50 (natQ rows * 0.05) in
  if ge (cvQ (cv_width rect)) minWidth && ge (cvQ (cv_height rect)) minHeight
     && le (cvQ (cv_width rect)) (natQ cols * 0.95)
     && le (cvQ (cv_height rect)) (natQ rows * 0.95)
  then Some (tableBox ("table-region-" +:+ showZ now +:+ "-" +:+ showNat i)
               (imageCoordsToPDFPoints (cvQ (cv_x rect)) (cvQ (cv_y rect))
                  (cvQ (cv_width rect)) (cvQ (cv_height rect))))
  else None.

Definition cvHLineBox (rows cols : nat) (now : Z) (i : nat) (rect : CvRect)
    : option BoundingBox :=
  if gt (cvQ (cv_width rect)) (natQ cols * 0.1)
     || gt (cvQ (cv_width rect * cv_height rect)) 1000
  then Some (tableBox ("hline-" +:+ showZ now +:+ "-" +:+ showNat i)
               (imageCoordsToPDFPoints (cvQ (cv_x rect)) (cvQ (cv_y rect))
                  (cvQ (cv_width rect)) (Math_max 1 (cvQ (cv_height rect)))))
  else None.

Definition cvVLineBox (rows cols : nat) (now : Z) (i : nat) (rect : CvRect)
    : option BoundingBox :=
  if gt (cvQ (cv_height rect)) (natQ rows * 0.1)
     || gt (cvQ (cv_width rect * cv_height rect)) 1000
  then Some (tableBox ("vline-" +:+ showZ now +:+ "-" +:+ showNat i)
               (imageCoordsToPDFPoints (cvQ (cv_x rect)) (cvQ (cv_y rect))
                  (Math_max 1 (cvQ (cv_width rect))) (cvQ (cv_height rect))))
  else None.

Definition cvCellBox (rows cols : nat) (now : Z) (i : nat) (rect : CvRect)
    : option BoundingBox :=
  if gt (cvQ (cv_width rect)) 15 && gt (cvQ (cv_height rect)) 15
     && lt (cvQ (cv_width rect)) (natQ cols * 0.5)
     && lt (cvQ (cv_height rect)) (natQ rows * 0.5)
  then Some (tableBox ("cell-contour-" +:+ showZ now +:+ "-" +:+ showNat i)
               (imageCoordsToPDFPoints (cvQ (cv_x rect)) (cvQ (cv_y rect))
                  (cvQ (cv_width rect)) (cvQ (cv_height rect))))
  else None.

(** [Math.max(m, Math.floor(n / d))] for the structuring-element lengths. *)
Definition kernelLength (m : Z) (n : nat) (d : Z) : Z := Z.max m (Z.of_nat n / d).

Definition detectTablesWithOpenCV (env : Env) (cv : CvEngine)
    (mode : TableDetectionMode) (clock : nat -> Z) : result (list BoundingBox) :=
  match imageDataUrl env with
  | None => Throw "No image available for table detection"
  | Some url =>
      if negb (truthy_string url) then Throw "No image available for table detection"
      else
        match domImg env with
        | None => Throw "Image not fully loaded"
        | Some img =>
            if negb (complete img) || Nat.eqb (naturalWidth img) 0
            then Throw "Image not fully loaded"
            else
              match cv_imread cv img with
              | Throw msg => Throw msg
              | Ok (rows, cols) =>
                  if Nat.eqb rows 0 || Nat.eqb cols 0
                  then Throw "Invalid image dimensions"
                  else
                    match mode with
                    | ModeTable =>
                        match cv_tableContours cv img (kernelLength 25 cols 15)
                                (kernelLength 25 rows 15) with
                        | Throw msg => Throw msg
                        | Ok contours =>
                            Ok (forEachPush (cvRegionBox rows cols) clock contours 0 [])
                        end
                    | ModeLines =>
                        match cv_lineContours cv img (kernelLength 15 cols 12)
                                (kernelLength 15 rows 12) with
                        | Throw msg => Throw msg
                        | Ok (hContours, vContours) =>
                            Ok (forEachPush (cvVLineBox rows cols) clock vContours 0
                                  (forEachPush (cvHLineBox rows cols) clock hContours 0 []))
                        end
                    | ModeCells =>
                        match cv_cellContours cv img (kernelLength 15 cols 12)
                                (kernelLength 15 rows 12) with
                        | Throw msg => Throw msg
                        | Ok contours =>
                            Ok (forEachPush (cvCellBox rows cols) clock contours 0 [])
                        end
                    end
              end
        end
  end.

(** The loop bodies of [detectTablesFallback]. *)
Definition fallbackCellBox (now : Z) (index : nat) (cell : TableCell)
    : option BoundingBox :=
  Some (tableBox ("cell-" +:+ showZ now +:+ "-" +:+ showNat (cell_row cell)
                  +:+ "-" +:+ showNat (cell_col cell))
          (imageCoordsToPDFPoints (cell_x cell) (cell_y cell)
             (cell_width cell) (cell_height cell))).

Definition fallbackRegionBox (now : Z) (index : nat) (region : TableRegion)
    : option BoundingBox :=
  Some (tableBox ("table-region-" +:+ showZ now +:+ "-" +:+ showNat index)
          (imageCoordsToPDFPoints (region_x region) (region_y region)
             (region_width region) (region_height region))).

(** The cells pushed by the first half of [detectTablesFallback]. *)
Definition fallbackCells (data : list Z) (width height : nat)
    (mode : TableDetectionMode) : list TableCell :=
  let horizontalLines := detectHorizontalLines data width height None in
  let verticalLines := detectVerticalLines data width height None in
  if Nat.leb 2 (length horizontalLines) && Nat.leb 2 (length verticalLines) then
    let filteredHLines := filterLines horizontalLines (natQ height) None in
    let filteredVLines := filterLines verticalLines (natQ width) None in
    match mode with
    | ModeCells =>
        createCellsFromLines filteredHLines filteredVLines (natQ width) (natQ height)
    | _ => []
    end
  else [].

(** [detectTablesFallback].  [getImageData] throws an IndexSizeError on a
    canvas without width or height. *)
Definition detectTablesFallback (env : Env) (mode : TableDetectionMode)
    (clock : nat -> Z) : result (list BoundingBox) :=
  match imageDataUrl env with
  | None => Throw "No image available for table detection"
  | Some url =>
      if negb (truthy_string url) then Throw "No image available for table detection"
      else
        match domImg env with
        | None => Throw "Image element not found"
        | Some img =>
            if negb (canvasContext env) then Throw "Canvas context not available"
            else
              let width := naturalWidth img in
              let height := naturalHeight img in
              if Nat.eqb width 0 || Nat.eqb height 0 then Throw "IndexSizeError"
              else
                let data := pixels img in
                let tableBoxes :=
                  forEachPush fallbackCellBox clock
                    (fallbackCells data width height mode) 0 [] in
                if bool_decide (mode = ModeTable) || Nat.eqb (length tableBoxes) 0 then
                  Ok (forEachPush fallbackRegionBox clock
                        (detectTableRegions data width height) 0 tableBoxes)
                else Ok tableBoxes
        end
  end.

(** [cvError] as a condition: set and not the empty string. *)
Definition cvErrorSet (st : HookState) : bool :=
  match cvError st with
  | Some msg => truthy_string msg
  | None => false
  end.

(** [detectTables]: the value the returned promise settles with, and the
    state after the [catch] and [finally] blocks have run. *)
Definition detectTables (st : HookState) (env : Env) (clock : nat -> Z)
    : result (list BoundingBox) * HookState :=
  let outcome :=
    match windowCv env with
    | Some cv =>
        if negb (cvLoaded st) || cvErrorSet st
        then detectTablesFallback env (mode st) clock
        else detectTablesWithOpenCV env cv (mode st) clock
    | None => detectTablesFallback env (mode st) clock
    end in
  match outcome with
  | Ok boxes =>
      (Ok boxes,
       {| mode := mode st; isProcessing := false;
          cvLoaded := cvLoaded st; cvError := cvError st |})
  | Throw errorMessage =>
      (Throw errorMessage,
       {| mode := mode st; isProcessing := false; cvLoaded := cvLoaded st;
          cvError := Some ("表検出エラー: " +:+ errorMessage) |})
  end.

End UseTableDetection.

(** ** utils/imagePreprocessing.ts: the contrast filter

    [ImageData.data] is a [Uint8ClampedArray] of whole RGBA quadruples; a
    pixel is one quadruple.  The filter overwrites the array it is given
    and returns it; here it returns the new contents. *)

Module ImagePreprocessing.
Local Open Scope Q_scope.

Record Pixel : Type := mkPixel {
  red : Z;
  green : Z;
  blue : Z;
  alpha : Z
}.

(** A store into a [Uint8ClampedArray]: the number is clamped to 0..255 and
    rounded to the nearest integer, a tie going to the even one. *)
Definition toUint8Clamped (v : number) : Z :=
  if Qle_bool v 0 then 0%Z
  else if Qle_bool 255 v then 255%Z
  else
    let f := Qfloor v in
    let frac := v - inject_Z f in
    if lt frac 0.5 then f
    else if lt 0.5 frac then (f + 1)%Z
    else if Z.even f then f else (f + 1)%Z.

(** [factor] of [adjustContrast]; the default contrast is 1.2. *)
Definition contrastFactor (contrast : option number) : number :=
  let contrast := default 1.2 contrast in
  (259 * (contrast * 255 + 255)) / (255 * (259 - contrast * 255)).

(** What [adjustContrast] stores for a colour channel that holds [v]. *)
Definition contrastChannel (contrast : option number) (v : Z) : Z :=
  toUint8Clamped
    (Math_max 0 (Math_min 255 (contrastFactor contrast * (inject_Z v - 128) + 128))).

Definition adjustContrast (data : list Pixel) (contrast : option number) : list Pixel :=
  map (fun p => {| red := contrastChannel contrast (red p);
                   green := contrastChannel contrast (green p);
                   blue := contrastChannel contrast (blue p);
                   alpha := alpha p |}) data.

End ImagePreprocessing.

(** ** components/PDFViewer.tsx *)

Module PDFViewer.
Local Open Scope Q_scope.
Import CoordinateConversion.

(** [convertBoxToDisplay]; [imageRef] is [imageRef.current]. *)
Definition convertBoxToDisplay (originalDimensions : option Dimensions)
    (imageRef : option HTMLImageElement) (box : BoundingBox) : Rect :=
  match originalDimensions, imageRef with
  | Some _, Some _ =>
      let scale :=
        match box_unit box with
        | UnitPx => Some 0.75
        | UnitMm => Some 2.834645669
        | UnitPt => None
        end in
      let toPoints (v : number) : number :=
        match scale with Some k => v * k | None => v end in
      let pdfX := toPoints (box_x box) in
      let pdfY := toPoints (box_y box) in
      let pdfWidth := toPoints (box_width box) in
      let pdfHeight := toPoints (box_height box) in
      match pdfPointsToDisplayCoords pdfX pdfY pdfWidth pdfHeight
              originalDimensions imageRef with
      | Some displayCoords => displayCoords
      | None => {| rect_x := pdfX; rect_y := pdfY;
                   rect_width := pdfWidth; rect_height := pdfHeight |}
      end
  | _, _ => {| rect_x := box_x box; rect_y := box_y box;
               rect_width := box_width box; rect_height := box_height box |}
  end.

End PDFViewer.

(** ** actions/exportActions.ts *)

Module ExportActions.
Local Open Scope Q_scope.
Import CoordinateConversion.

(** One element of [ExportData.boundingBoxes]. *)
Record ExportedBox : Type := mkExportedBox {
  exp_id : string;
  exp_index : nat;
  exp_kind : option BoundingBoxKind;
  exp_pt : Rect;
  exp_px : Rect;
  exp_mm : Rect
}.

Definition convertRect (box : BoundingBox) (toUnit : Unit) : Rect :=
  {| rect_x := convertToUnits (box_x box) (box_unit box) toUnit;
     rect_y := convertToUnits (box_y box) (box_unit box) toUnit;
     rect_width := convertToUnits (box_width box) (box_unit box) toUnit;
     rect_height := convertToUnits (box_height box) (box_unit box) toUnit |}.

(** The callback of [boundingBoxes.map] in [exportBoundingBoxes]. *)
Definition exportBox (index : nat) (box : BoundingBox) : ExportedBox :=
  {| exp_id := box_id box;
     exp_index := index + 1;
     exp_kind := box_kind box;
     exp_pt := convertRect box UnitPt;
     exp_px := convertRect box UnitPx;
     exp_mm := convertRect box UnitMm |}.



End ExportActions.

(** ** The text of generated identifiers *)

Module IdText.
Import Stdlib.Strings.Ascii.

(** The characters of a printed integer: decimal digits, and the sign. *)
Definition isDigit (c : ascii) : bool :=
  match c with
  | "0" | "1" | "2" | "3" | "4" | "5" | "6" | "7" | "8" | "9" => true
  | _ => false
  end%char.

Definition isDigitOrDash (c : ascii) : bool := isDigit c || Ascii.eqb c "-".

Fixpoint allChars (p : ascii -> bool) (s : string) : bool :=
  match s with
  | EmptyString => true
  | String c s' => p c && allChars p s'
  end.

End IdText.

(** ** The unit conversion as the specification words it *)

Module Spec.
Local Open Scope Q_scope.

(** [point = pixel * 0.75], [point = mm * 2.834645669]. *)
Definition toPoint (u : Unit) (v : Q) : Q :=
  match u with
  | UnitPx => v * 0.75
  | UnitMm => v * 2.834645669
  | UnitPt => v
  end.

(** [pixel = point / 0.75], [mm = point / 2.834645669]. *)
Definition fromPoint (u : Unit) (p : Q) : Q :=
  match u with
  | UnitPx => p / 0.75
  | UnitMm => p / 2.834645669
  | UnitPt => p
  end.

(** The full from -> point -> to transform. *)
Definition transform (v : Q) (u1 u2 : Unit) : Q := fromPoint u2 (toPoint u1 v).

(** Nearest integer, a tie going away from zero. *)
Definition roundHalfAwayFromZero (q : Q) : Z :=
  if Qle_bool 0 q then Qfloor (q + 0.5) else Qceiling (q - 0.5).

(** Rounding to 2 decimal places, nearest, half away from zero. *)
Definition round2 (q : Q) : Q := inject_Z (roundHalfAwayFromZero (q * 100)) / 100.

(** [convert(v, u1, u2)] for distinct units, as the specification states it. *)
Definition convert (v : Q) (u1 u2 : Unit) : Q := round2 (transform v u1 u2).

(** A stored box carries the canonical unit. *)
Definition storesPoints (b : BoundingBox) : Prop := box_unit b = UnitPt.

(** Shallow merge, field by field: a field the partial names takes the given
    value, a field it does not name keeps the old one. *)
Definition mergedField {A : Type} (old : A) (named : option A) (new : A) : Prop :=
  match named with
  | Some v => new = v
  | None => new = old
  end.

(** An OCR item whose point-space rectangle is present with [x] and [y]
    both different from zero. *)
Definition hasNonZeroOrigin (item : OcrUtils.OCRItem) : bool :=
  match OcrUtils.item_bbox item with
  | Some bbox =>
      match OcrUtils.bbox_pt bbox with
      | Some coords =>
          negb (Qeq_bool (rect_x coords) 0) && negb (Qeq_bool (rect_y coords) 0)
      | None => false
      end
  | None => false
  end.

(** A synthetic test image: opaque black on the given rows and columns,
    opaque white elsewhere, as the RGBA bytes of its pixels row by row. *)
Definition gridPixel (rows cols : list nat) (x y : nat) : list Z :=
  if bool_decide (y ∈ rows) || bool_decide (x ∈ cols)
  then [0; 0; 0; 255]%Z else [255; 255; 255; 255]%Z.

Definition gridPixels (width height : nat) (rows cols : list nat) : list Z :=
  flat_map (fun y => flat_map (fun x => gridPixel rows cols x y) (seq 0 width))
    (seq 0 height).

Definition gridImage (width height : nat) (rows cols : list nat) : HTMLImageElement :=
  {| clientWidth := inject_Z (Z.of_nat width);
     clientHeight := inject_Z (Z.of_nat height);
     naturalWidth := width;
     naturalHeight := height;
     complete := true;
     pixels := gridPixels width height rows cols |}.


Definition rectWithin (eps : Q) (r1 r2 : Rect) : Prop :=
  Qabs (rect_x r1 - rect_x r2) <= eps /\ Qabs (rect_y r1 - rect_y r2) <= eps
  /\ Qabs (rect_width r1 - rect_width r2) <= eps
  /\ Qabs (rect_height r1 - rect_height r2) <= eps.

Definition scaleRect (k : Q) (r : Rect) : Rect :=
  {| rect_x := rect_x r * k; rect_y := rect_y r * k;
     rect_width := rect_width r * k; rect_height := rect_height r * k |}.

(** The rectangle a box stores. *)
Definition rectOf (b : BoundingBox) : Rect :=
  {| rect_x := box_x b; rect_y := box_y b;
     rect_width := box_width b; rect_height := box_height b |}.

(** The rectangle spanned by the point where a drag started and the pointer
    of a later mouse event, in the coordinates of the container. *)
Definition draggedRect (start : Point) (event : ImagePdfPage.MouseEvent) : Rect :=
  let pointerX := ImagePdfPage.clientX event - ImagePdfPage.rect_left event in
  let pointerY := ImagePdfPage.clientY event - ImagePdfPage.rect_top event in
  {| rect_x := Math_min pointerX (point_x start);
     rect_y := Math_min pointerY (point_y start);
     rect_width := Math_abs (pointerX - point_x start);
     rect_height := Math_abs (pointerY - point_y start) |}.

(** The level of the engine data that [processOCRResult] maps to the
    given level of its result. *)
Definition engineItems (data : OcrUtils.TesseractData) (level : OCRLevel)
    : option (list OcrUtils.TesseractItem) :=
  match level with
  | LevelWord => OcrUtils.tess_words data
  | LevelLine => OcrUtils.tess_lines data
  | LevelParagraph => OcrUtils.tess_paragraphs data
  | LevelBlock => OcrUtils.tess_blocks data
  end.

(** A list of positions in which each one is followed by one that is not
    smaller and at least [d] further on. *)
Definition spaced (d : Q) (l : list Q) : Prop :=
  forall i a b, l !! i = Some a -> l !! S i = Some b -> a <= b /\ d <= b - a.

(** The flood fill has its bounding box inside the image. *)
Definition floodWithinImage (width height : nat)
    (st : TableDetectionUtils.FloodState) : Prop :=
  (0 <= TableDetectionUtils.minX st
   /\ TableDetectionUtils.minX st <= TableDetectionUtils.maxX st
   /\ TableDetectionUtils.maxX st < Z.of_nat width
   /\ 0 <= TableDetectionUtils.minY st
   /\ TableDetectionUtils.minY st <= TableDetectionUtils.maxY st
   /\ TableDetectionUtils.maxY st < Z.of_nat height)%Z.

(** A region with integer coordinates that lies inside the image, is at
    least 100 x 50 and at most nine tenths of the image on each axis. *)
Definition regionWithinImage (width height : nat)
    (r : TableDetectionUtils.TableRegion) : Prop :=
  exists x y w h : Z,
    TableDetectionUtils.region_x r = inject_Z x
    /\ TableDetectionUtils.region_y r = inject_Z y
    /\ TableDetectionUtils.region_width r = inject_Z w
    /\ TableDetectionUtils.region_height r = inject_Z h
    /\ (0 <= x /\ x + w < Z.of_nat width /\ 0 <= y /\ y + h < Z.of_nat height
        /\ 100 <= w /\ 50 <= h)%Z
    /\ inject_Z w <= TableDetectionUtils.natQ width * 0.9
    /\ inject_Z h <= TableDetectionUtils.natQ height * 0.9.

(** What holds of the boxes a detection returns, by detection mode, given
    what holds of region boxes, of horizontal and vertical line boxes and of
    cell boxes: 'table' yields regions, 'cells' cells or regions, 'lines'
    lines or regions. *)
Definition byMode (PR PH PV PC : BoundingBox -> Prop)
    (mode : TableDetectionMode) (b : BoundingBox) : Prop :=
  match mode with
  | ModeTable => PR b
  | ModeCells => PC b \/ PR b
  | ModeLines => PH b \/ PV b \/ PR b
  end.

(** A table box that the bounding-box list names [role], and whose id does
    or does not contain "line" and "cell". *)
Definition hasRole (role : string) (line cell : bool) (b : BoundingBox) : Prop :=
  box_kind b = Some KindTable
  /\ BoundingBoxesList.getBoxType b = role
  /\ includes (box_id b) "line" = line
  /\ includes (box_id b) "cell" = cell.


End Spec.

(** * Properties *)

(** Closed inverses and products of rational literals are evaluated, so that
    [lra] sees a division by a constant as a linear term. *)
Ltac qconst_step :=
  match goal with
  | |- context [Qinv (Qmake ?n ?d)] =>
      let r := eval cbv in (Qinv (Qmake n d)) in
      change (Qinv (Qmake n d)) with r
  | |- context [Qmult (Qmake ?n ?d) (Qmake ?n' ?d')] =>
      let r := eval cbv in (Qmult (Qmake n d) (Qmake n' d')) in
      change (Qmult (Qmake n d) (Qmake n' d')) with r
  | H : context [Qinv (Qmake ?n ?d)] |- _ =>
      let r := eval cbv in (Qinv (Qmake n d)) in
      change (Qinv (Qmake n d)) with r in H
  | H : context [Qmult (Qmake ?n ?d) (Qmake ?n' ?d')] |- _ =>
      let r := eval cbv in (Qmult (Qmake n d) (Qmake n' d')) in
      change (Qmult (Qmake n d) (Qmake n' d')) with r in H
  end.
Ltac qconst := unfold Qdiv in *; repeat qconst_step.

Section Rounding.
Local Open Scope Q_scope.

Lemma Math_round_lower (v : Q) : v - 0.5 < Math_round v.
Proof.
  unfold Math_round. pose proof (Qlt_floor (v + 0.5)) as H.
  rewrite inject_Z_plus in H. change (inject_Z 1) with 1 in H. lra.
Qed.

Lemma Math_round_upper (v : Q) : Math_round v <= v + 0.5.
Proof. unfold Math_round. apply Qfloor_le. Qed.

Lemma Math_round_hundredth (v : Q) :
  Qabs (Math_round (v * 100) / 100 - v) <= 0.005.
Proof.
  pose proof (Math_round_lower (v * 100)).
  pose proof (Math_round_upper (v * 100)).
  set (r := Math_round (v * 100)) in *. clearbody r.
  apply Qabs_Qle_condition. qconst. split; lra.
Qed.

End Rounding.

Section UnitConversion.
Local Open Scope Q_scope.
Import CoordinateConversion.






(** C3: converting between equal units returns the argument itself, for the
    exported [convertToUnits] and for the one of the bounding-box list; no
    arithmetic and no rounding is applied. *)
Theorem convertToUnits_same_unit (v : number) (u : Unit) :
  convertToUnits v u u = v /\ BoundingBoxesList.convertToUnits v u u = v.
Proof.
  unfold convertToUnits, BoundingBoxesList.convertToUnits.
  destruct (decide (u = u)); [split; reflexivity | congruence].
Qed.




End UnitConversion.

Section CoordinateSpaces.
Local Open Scope Q_scope.
Import CoordinateConversion.





End CoordinateSpaces.

(** ** The [forEach]-and-[push] loops *)

Section ForEachPush.
Context {A B : Type}.
Implicit Types (body : Z -> nat -> A -> option B) (clock : nat -> Z).

Lemma forEachPush_extends body clock items index acc :
  exists tail, forEachPush body clock items index acc = acc ++ tail.
Proof.
  revert index acc. induction items as [|item rest IH]; intros index acc; simpl.
  - exists []. by rewrite app_nil_r.
  - destruct (body (clock (length acc)) index item) as [b|].
    + destruct (IH (S index) (acc ++ [b])) as [tail ->].
      exists (b :: tail). by rewrite <- app_assoc.
    + apply IH.
Qed.

Lemma forEachPush_Forall (P : B -> Prop) body clock items index acc :
  (forall now i a b, body now i a = Some b -> P b) ->
  Forall P acc -> Forall P (forEachPush body clock items index acc).
Proof.
  intros Hbody. revert index acc.
  induction items as [|item rest IH]; intros index acc Hacc; simpl; [done|].
  apply IH. destruct (body (clock (length acc)) index item) as [b|] eqn:Hb; [|done].
  apply Forall_app. split; [done|]. constructor; [|constructor]. eauto.
Qed.

(** When whether the callback pushes depends on the item alone, the pushed
    elements correspond, in order, to the items it pushes for. *)
Lemma forEachPush_Forall2 (keep : A -> bool) (R : B -> A -> Prop)
    body clock items index acc :
  (forall now i a, keep a = true -> exists b, body now i a = Some b /\ R b a) ->
  (forall now i a, keep a = false -> body now i a = None) ->
  exists tail, forEachPush body clock items index acc = acc ++ tail
               /\ Forall2 R tail (List.filter keep items).
Proof.
  intros Hyes Hno. revert index acc.
  induction items as [|item rest IH]; intros index acc; simpl.
  - exists []. split; [by rewrite app_nil_r | constructor].
  - destruct (keep item) eqn:Hk.
    + destruct (Hyes (clock (length acc)) index item Hk) as (b & -> & HR).
      destruct (IH (S index) (acc ++ [b])) as (tail & -> & Htail).
      exists (b :: tail). split; [by rewrite <- app_assoc | by constructor].
    + rewrite (Hno _ _ _ Hk). apply IH.
Qed.

Lemma forEachPush_nil body clock index acc :
  forEachPush body clock [] index acc = acc.
Proof. reflexivity. Qed.

End ForEachPush.

(** ** The bounding-box store *)

Section Store.
Local Open Scope Q_scope.
Import UseBoundingBoxes.

(** C7, as stated, fails: a partial that names [id] replaces the id of the
    matching box. *)
Lemma updateBoundingBox_can_replace_id :
  map box_id
    (updateBoundingBox "a"
       (mkPartial (Some "b") None None None None None None)
       [mkBoundingBox "a" 1 2 3 4 UnitPt (Some KindManual)]) = ["b"]
  /\ box_id (mkBoundingBox "a" 1 2 3 4 UnitPt (Some KindManual)) = "a"
  /\ "b" <> "a".
Proof. repeat split. discriminate. Qed.

(** C7, amended: [updateBoundingBox id updates] keeps the length and the
    order of the store; a box whose id differs from [id] is unchanged; in a
    box whose id is [id] every field named in the partial, the id included,
    takes the given value and every field not named keeps its value. *)
Theorem updateBoundingBox_shallow_merge
    (id : string) (updates : PartialBoundingBox) (prev : list BoundingBox)
    (i : nat) (box : BoundingBox) :
  prev !! i = Some box ->
  length (updateBoundingBox id updates prev) = length prev
  /\ exists box',
      updateBoundingBox id updates prev !! i = Some box'
      /\ (box_id box <> id -> box' = box)
      /\ (box_id box = id ->
          Spec.mergedField (box_id box) (upd_id updates) (box_id box')
          /\ Spec.mergedField (box_x box) (upd_x updates) (box_x box')
          /\ Spec.mergedField (box_y box) (upd_y updates) (box_y box')
          /\ Spec.mergedField (box_width box) (upd_width updates) (box_width box')
          /\ Spec.mergedField (box_height box) (upd_height updates) (box_height box')
          /\ Spec.mergedField (box_unit box) (upd_unit updates) (box_unit box')
          /\ Spec.mergedField (box_kind box) (upd_kind updates) (box_kind box')).
Proof.
  intros Hi. unfold updateBoundingBox. split; [apply length_map|].
  rewrite list_lookup_fmap, Hi. simpl.
  destruct (decide (box_id box = id)) as [Heq|Hne].
  - eexists. split; [reflexivity|]. split; [congruence|]. intros _.
    unfold spread, Spec.mergedField. simpl.
    destruct updates as [[?|] [?|] [?|] [?|] [?|] [?|] [?|]]; simpl;
      repeat split; reflexivity.
  - exists box. split; [reflexivity|]. split; [done|]. congruence.
Qed.

Lemma updateBoundingBox_shallow_merge_witness :
  exists box',
    updateBoundingBox "t1"
      (mkPartial None (Some 7) None None None None None)
      [mkBoundingBox "m1" 1 2 3 4 UnitPt (Some KindManual);
       mkBoundingBox "t1" 5 6 7 8 UnitPt (Some KindTable)] !! 1%nat = Some box'
    /\ box_id box' = "t1" /\ box_x box' = 7 /\ box_y box' = 6
    /\ box_kind box' = Some KindTable.
Proof.
  destruct (updateBoundingBox_shallow_merge "t1"
              (mkPartial None (Some 7) None None None None None)
              [mkBoundingBox "m1" 1 2 3 4 UnitPt (Some KindManual);
               mkBoundingBox "t1" 5 6 7 8 UnitPt (Some KindTable)]
              1%nat (mkBoundingBox "t1" 5 6 7 8 UnitPt (Some KindTable)) eq_refl)
    as (_ & box' & Hlook & _ & Hmerge).
  destruct (Hmerge eq_refl) as (Hid & Hx & Hy & _ & _ & _ & Hk).
  exists box'. repeat split; assumption.
Defined.

End Store.

(** ** The OCR normalizer and its boxes *)

Section Ocr.
Local Open Scope Q_scope.
Import OcrUtils UseOCR CoordinateConversion.





Lemma neq_false_iff (a : Q) : neq a 0 = false <-> a == 0.
Proof.
  unfold neq. rewrite negb_false_iff. apply Qeq_bool_iff.
Qed.

Lemma ocrBoxOfItem_kept settings now index item :
  Spec.hasNonZeroOrigin item = true ->
  exists b, ocrBoxOfItem settings now index item = Some b
    /\ (exists bbox coords,
          item_bbox item = Some bbox /\ bbox_pt bbox = Some coords
          /\ box_x b = rect_x coords /\ box_y b = rect_y coords
          /\ box_width b = rect_width coords /\ box_height b = rect_height coords).
Proof.
  unfold Spec.hasNonZeroOrigin, ocrBoxOfItem, neq.
  destruct (item_bbox item) as [bbox|]; [|discriminate].
  destruct (bbox_pt bbox) as [coords|] eqn:Hpt; [|discriminate].
  intros ->. eexists. split; [reflexivity|].
  exists bbox, coords. repeat split; reflexivity || assumption.
Qed.

Lemma ocrBoxOfItem_skipped settings now index item :
  Spec.hasNonZeroOrigin item = false ->
  ocrBoxOfItem settings now index item = None.
Proof.
  unfold Spec.hasNonZeroOrigin, ocrBoxOfItem, neq.
  destruct (item_bbox item) as [bbox|]; [|done].
  destruct (bbox_pt bbox) as [coords|]; [|done].
  by intros ->.
Qed.

Lemma ocrBoxOfItem_nonzero settings now index item b :
  ocrBoxOfItem settings now index item = Some b ->
  ~ box_x b == 0 /\ ~ box_y b == 0.
Proof.
  unfold ocrBoxOfItem.
  destruct (item_bbox item) as [bbox|]; [|discriminate].
  destruct (bbox_pt bbox) as [coords|]; [|discriminate].
  destruct (neq (rect_x coords) 0) eqn:Hx; [|discriminate].
  destruct (neq (rect_y coords) 0) eqn:Hy; [|discriminate].
  simpl. intros [= <-]. simpl. split; intros H.
  - apply neq_false_iff in H. congruence.
  - apply neq_false_iff in H. congruence.
Qed.

Lemma Math_round_zero : Math_round (0 / (300 / 72) * 100) / 100 == 0.
Proof. vm_compute. reflexivity. Qed.

Lemma imageCoordsToPDFPoints_zero_x (x y w h : Q) :
  x == 0 -> rect_x (pt (imageCoordsToPDFPoints x y w h)) == 0.
Proof.
  intros Hx. unfold imageCoordsToPDFPoints. cbn [pt rect_x].
  unfold Math_round. rewrite Hx. apply Math_round_zero.
Qed.

Lemma imageCoordsToPDFPoints_zero_y (x y w h : Q) :
  y == 0 -> rect_y (pt (imageCoordsToPDFPoints x y w h)) == 0.
Proof.
  intros Hy. unfold imageCoordsToPDFPoints. cbn [pt rect_y].
  unfold Math_round. rewrite Hy. apply Math_round_zero.
Qed.

(** C10: the boxes [generateBoundingBoxes] returns are, in order, those of
    the confidence-filtered items whose point-space rectangle is present
    with x and y both non-zero: every returned box has x and y different
    from 0, an item with x = 0 or y = 0 yields no box, and an engine box
    whose left or top edge is at 0 is normalised to such an item. *)
Theorem generateBoundingBoxes_drops_zero_origin
    (textData : OCRResult) (settings : OCRSettings) (clock : nat -> Z) (unit : Unit) :
  Forall (fun b => ~ box_x b == 0 /\ ~ box_y b == 0)
    (generateBoundingBoxes (Some textData) settings clock unit)
  /\ Forall2
      (fun b item =>
         exists bbox coords,
           item_bbox item = Some bbox /\ bbox_pt bbox = Some coords
           /\ box_x b = rect_x coords /\ box_y b = rect_y coords
           /\ box_width b = rect_width coords /\ box_height b = rect_height coords)
      (generateBoundingBoxes (Some textData) settings clock unit)
      (List.filter Spec.hasNonZeroOrigin
         (filterOCRResultsByConfidence
            (getOCRDataByLevel textData (level settings)) (minConfidence settings)))
  /\ (forall name now index word,
        coordOrZero (tess_bbox word) tess_x0 == 0
        \/ coordOrZero (tess_bbox word) tess_y0 == 0 ->
        Spec.hasNonZeroOrigin
          (processItem (fun x y w h => Some (imageCoordsToPDFPoints x y w h))
             name now index word) = false).
Proof.
  unfold generateBoundingBoxes. repeat split.
  - apply forEachPush_Forall; [|constructor].
    intros now i a b Hb. by apply ocrBoxOfItem_nonzero in Hb.
  - match goal with |- Forall2 ?R (forEachPush ?body ?c ?items ?i ?acc) _ =>
      destruct (forEachPush_Forall2 Spec.hasNonZeroOrigin R body c items i acc)
        as (tail & -> & Htail)
    end.
    + intros now i a Hk. by apply ocrBoxOfItem_kept.
    + intros now i a Hk. by apply ocrBoxOfItem_skipped.
    + exact Htail.
  - intros name now index word Hedge.
    unfold Spec.hasNonZeroOrigin, processItem. cbn [item_bbox bbox_pt fmap option_fmap option_map].
    apply andb_false_iff. rewrite !negb_false_iff, !Qeq_bool_iff.
    destruct Hedge as [H|H].
    + left. by apply imageCoordsToPDFPoints_zero_x.
    + right. by apply imageCoordsToPDFPoints_zero_y.
Qed.

End Ocr.

(** ** The unit carried by the boxes the producers insert *)

Section Producers.
Local Open Scope Q_scope.
Import CoordinateConversion.

(** The drag-release handler of the image-pdf page appends at most one box,
    labelled [pt]. *)
Lemma imagePdf_handleMouseUp_stores_points convert imageRef now event st :
  exists added,
    ImagePdfPage.boundingBoxes
      (ImagePdfPage.handleMouseUp convert imageRef now event st)
    = ImagePdfPage.boundingBoxes st ++ added
    /\ Forall Spec.storesPoints added.
Proof.
  unfold ImagePdfPage.handleMouseUp.
  destruct (ImagePdfPage.isDrawing st), (ImagePdfPage.startPoint st) as [sp|],
    (ImagePdfPage.currentBox st) as [cb|]; simpl;
    try (exists []; split; [by rewrite app_nil_r | constructor]).
  match goal with |- context [convert ?a ?b ?c ?d ?e] =>
    destruct (convert a b c d e) as [coords|] end;
    [|exists []; split; [by rewrite app_nil_r | constructor]].
  match goal with |- context [if ?c then _ else _] => destruct c end;
    [|exists []; split; [by rewrite app_nil_r | constructor]].
  eexists. split; [reflexivity|]. repeat constructor.
Qed.

(** Every box of [generateBoundingBoxes] is labelled [pt], whatever unit is
    passed. *)
Lemma generateBoundingBoxes_stores_points textData settings clock unit :
  Forall Spec.storesPoints (UseOCR.generateBoundingBoxes textData settings clock unit).
Proof.
  unfold UseOCR.generateBoundingBoxes. destruct textData as [td|]; [|constructor].
  apply forEachPush_Forall; [|constructor].
  intros now i a b. unfold UseOCR.ocrBoxOfItem.
  destruct (OcrUtils.item_bbox a) as [bbox|]; [|discriminate].
  destruct (OcrUtils.bbox_pt bbox) as [coords|]; [|discriminate].
  destruct (_ && _); [|discriminate]. by intros [= <-].
Qed.

Lemma detectTablesFallback_stores_points env mode clock boxes :
  UseTableDetection.detectTablesFallback env mode clock = Ok boxes ->
  Forall Spec.storesPoints boxes.
Proof.
  unfold UseTableDetection.detectTablesFallback.
  destruct (UseTableDetection.imageDataUrl env) as [url|]; [|discriminate].
  destruct (negb (truthy_string url)); [discriminate|].
  destruct (UseTableDetection.domImg env) as [img|]; [|discriminate].
  destruct (negb (UseTableDetection.canvasContext env)); [discriminate|].
  destruct (_ || _); [discriminate|].
  assert (Hcells : forall cells,
             Forall Spec.storesPoints
               (forEachPush UseTableDetection.fallbackCellBox clock cells 0 [])).
  { intros cells. apply forEachPush_Forall; [|constructor].
    intros now i a b [= <-]. reflexivity. }
  destruct (_ || _); intros [= <-]; [|apply Hcells].
  apply forEachPush_Forall; [|apply Hcells].
  intros now i a b [= <-]. reflexivity.
Qed.

Lemma detectTablesWithOpenCV_stores_points env cv mode clock boxes :
  UseTableDetection.detectTablesWithOpenCV env cv mode clock = Ok boxes ->
  Forall Spec.storesPoints boxes.
Proof.
  unfold UseTableDetection.detectTablesWithOpenCV.
  destruct (UseTableDetection.imageDataUrl env) as [url|]; [|discriminate].
  destruct (negb (truthy_string url)); [discriminate|].
  destruct (UseTableDetection.domImg env) as [img|]; [|discriminate].
  destruct (_ || _); [discriminate|].
  destruct (UseTableDetection.cv_imread cv img) as [[rows cols]|]; [|discriminate].
  destruct (_ || _); [discriminate|].
  assert (Hbody : forall (body : Z -> nat -> UseTableDetection.CvRect -> option BoundingBox)
                         contours acc,
             (forall now i r b, body now i r = Some b -> Spec.storesPoints b) ->
             Forall Spec.storesPoints acc ->
             Forall Spec.storesPoints (forEachPush body clock contours 0 acc)).
  { intros body contours acc Hb Hacc. by apply forEachPush_Forall. }
  destruct mode.
  - destruct (UseTableDetection.cv_tableContours _ _ _ _) as [contours|]; [|discriminate].
    intros [= <-]. apply Hbody; [|constructor].
    intros now i r b. unfold UseTableDetection.cvRegionBox.
    destruct (_ && _); [|discriminate]. by intros [= <-].
  - destruct (UseTableDetection.cv_cellContours _ _ _ _) as [contours|]; [|discriminate].
    intros [= <-]. apply Hbody; [|constructor].
    intros now i r b. unfold UseTableDetection.cvCellBox.
    destruct (_ && _); [|discriminate]. by intros [= <-].
  - destruct (UseTableDetection.cv_lineContours _ _ _ _) as [[hs vs]|]; [|discriminate].
    intros [= <-]. apply Hbody; [|apply Hbody; [|constructor]].
    + intros now i r b. unfold UseTableDetection.cvVLineBox.
      destruct (_ || _); [|discriminate]. by intros [= <-].
    + intros now i r b. unfold UseTableDetection.cvHLineBox.
      destruct (_ || _); [|discriminate]. by intros [= <-].
Qed.

(** Both strategies of the table detector label every box [pt]. *)
Lemma detectTables_stores_points st env clock boxes :
  fst (UseTableDetection.detectTables st env clock) = Ok boxes ->
  Forall Spec.storesPoints boxes.
Proof.
  unfold UseTableDetection.detectTables.
  destruct (UseTableDetection.windowCv env) as [cv|].
  - destruct (_ || _).
    + destruct (UseTableDetection.detectTablesFallback _ _ _) as [bs|] eqn:Hd;
        simpl; [|discriminate].
      intros [= <-]. by apply detectTablesFallback_stores_points in Hd.
    + destruct (UseTableDetection.detectTablesWithOpenCV _ _ _ _) as [bs|] eqn:Hd;
        simpl; [|discriminate].
      intros [= <-]. by apply detectTablesWithOpenCV_stores_points in Hd.
  - destruct (UseTableDetection.detectTablesFallback _ _ _) as [bs|] eqn:Hd;
      simpl; [|discriminate].
    intros [= <-]. by apply detectTablesFallback_stores_points in Hd.
Qed.

(** C1 fails on the PDF-canvas page: the drag-release handler there stores
    the point-space scalars of [convertCanvasToPDF] under the unit the user
    last selected, not under [pt]. *)
Theorem pdfBboxTool_handleMouseUp_stores_selected_unit
    (now : Z) (st : PdfBboxPage.PageState) (sp : Point) (cb : BoundingBox)
    (coords : CoordinateConversion) :
  PdfBboxPage.isDrawing st = true ->
  PdfBboxPage.startPoint st = Some sp ->
  PdfBboxPage.currentBox st = Some cb ->
  PdfBboxPage.convertCanvasToPDF st (box_x cb) (box_y cb) (box_width cb) (box_height cb)
  = Some coords ->
  gt (box_width cb) 5 = true -> gt (box_height cb) 5 = true ->
  PdfBboxPage.boundingBoxes (PdfBboxPage.handleMouseUp now st)
  = PdfBboxPage.boundingBoxes st ++
      [ {| box_id := "bbox-" +:+ showZ now;
           box_x := rect_x (pt coords);
           box_y := rect_y (pt coords);
           box_width := rect_width (pt coords);
           box_height := rect_height (pt coords);
           box_unit := PdfBboxPage.selectedUnit st;
           box_kind := None |} ].
Proof.
  intros Hd Hs Hc Hcoords Hw Hh. unfold PdfBboxPage.handleMouseUp.
  rewrite Hd, Hs, Hc, Hcoords, Hw, Hh. reflexivity.
Qed.

(** The page in its initial unit ([px]), a loaded 612 x 792 pt page at zoom
    1, and a drag from (10, 10) to (110, 60): the stored box reads
    x = 10, y = 10, width = 100, height = 50 in points, labelled [px]. *)
Lemma pdfBboxTool_handleMouseUp_px_witness :
  exists b,
    PdfBboxPage.boundingBoxes
      (PdfBboxPage.handleMouseUp 1700000000000
         (PdfBboxPage.mkPageState
            (Some (fun scale => mkDimensions (612 * scale) (792 * scale))) 1
            true (Some (mkPoint 10 10))
            (Some (mkBoundingBox "temp-1699999999999" 10 10 100 50 UnitPx None))
            UnitPx [])) = [b]
    /\ box_unit b = UnitPx /\ box_unit b <> UnitPt
    /\ box_x b == 10 /\ box_y b == 10 /\ box_width b == 100 /\ box_height b == 50.
Proof.
  eexists. split.
  - apply (pdfBboxTool_handleMouseUp_stores_selected_unit 1700000000000
             (PdfBboxPage.mkPageState
                (Some (fun scale => mkDimensions (612 * scale) (792 * scale))) 1
                true (Some (mkPoint 10 10))
                (Some (mkBoundingBox "temp-1699999999999" 10 10 100 50 UnitPx None))
                UnitPx [])
             (mkPoint 10 10)
             (mkBoundingBox "temp-1699999999999" 10 10 100 50 UnitPx None));
      reflexivity.
  - simpl. repeat split; try discriminate; vm_compute; reflexivity.
Defined.

End Producers.

(** ** The flood fill of the region scan *)

Section FloodFill.
Import TableDetectionUtils.

Lemma floodStep_decreases data width height st :
  floodContinue st = true ->
  (floodMeasure (floodStep data width height st) < floodMeasure st)%nat.
Proof.
  unfold floodContinue, floodStep, floodMeasure.
  destruct (stack st) as [|[x y] rest] eqn:Hstack; [discriminate|].
  intros Hsize. apply Z.ltb_lt in Hsize.
  destruct (decide _) as [|Hfresh]; [simpl; lia|].
  destruct (_ || _); [simpl; lia|].
  destruct (isDarkAt _ _ _); [|simpl; lia].
  cbn [stack regionPixels length].
  rewrite size_union by set_solver. rewrite size_singleton. lia.
Qed.

(** The loop stops by its own condition before the fuel runs out. *)
Lemma floodLoop_terminates data width height fuel st :
  (floodMeasure st <= fuel)%nat ->
  floodContinue (floodLoop data width height fuel st) = false.
Proof.
  revert st. induction fuel as [|fuel IH]; intros st Hm; simpl.
  - unfold floodMeasure, floodContinue in *.
    destruct (stack st); [done|]. simpl in Hm. lia.
  - destruct (floodContinue st) eqn:Hc; [|done].
    apply IH. pose proof (floodStep_decreases data width height st Hc). lia.
Qed.

(** Additional fuel does not change the outcome. *)
Lemma floodLoop_fuel_irrelevant data width height fuel extra st :
  (floodMeasure st <= fuel)%nat ->
  floodLoop data width height (fuel + extra) st = floodLoop data width height fuel st.
Proof.
  revert st. induction fuel as [|fuel IH]; intros st Hm; simpl.
  - assert (Hc : floodContinue st = false).
    { unfold floodMeasure, floodContinue in *.
      destruct (stack st); [done|]. simpl in Hm. lia. }
    destruct extra; simpl; [done|]. by rewrite Hc.
  - destruct (floodContinue st) eqn:Hc; [|done].
    apply IH. pose proof (floodStep_decreases data width height st Hc). lia.
Qed.

(** Every flood fill [findTableRegion] starts ends within [floodFuel]. *)
Lemma findTableRegion_fuel_suffices data width height startX startY visited0 :
  floodContinue
    (floodLoop data width height floodFuel
       {| stack := [(startX, startY)]; regionPixels := ∅; visited := visited0;
          minX := startX; maxX := startX; minY := startY; maxY := startY |}) = false.
Proof.
  apply floodLoop_terminates. unfold floodMeasure, floodFuel.
  cbn [stack regionPixels length]. rewrite size_empty. lia.
Qed.

End FloodFill.

(** ** Line detection on synthetic grid images *)

Section Grid.
Import TableDetectionUtils.
Local Open Scope nat_scope.

Lemma flat_map_length_const {A B : Type} (f : A -> list B) (n : nat) (l : list A) :
  (forall a, length (f a) = n) -> length (flat_map f l) = length l * n.
Proof.
  intros Hf. induction l as [|a l IH]; simpl; [done|].
  rewrite length_app, Hf, IH. lia.
Qed.

Lemma flat_map_block_lookup {A B : Type} (f : A -> list B) (n : nat) (l : list A)
    (i k : nat) (a : A) :
  (forall a, length (f a) = n) -> l !! i = Some a -> k < n ->
  flat_map f l !! (i * n + k) = f a !! k.
Proof.
  intros Hf. revert i. induction l as [|b l IH]; intros i Hi Hk; [done|].
  destruct i as [|i]; simpl in *.
  - injection Hi as ->. apply lookup_app_l. rewrite Hf. lia.
  - rewrite lookup_app_r by (rewrite Hf; lia). rewrite Hf.
    replace (n + i * n + k - n) with (i * n + k) by lia. by apply IH.
Qed.

Lemma gridPixel_length rows cols x y : length (Spec.gridPixel rows cols x y) = 4.
Proof. unfold Spec.gridPixel. by destruct (_ || _). Qed.

Lemma gridPixels_lookup W H rows cols x y k :
  x < W -> y < H -> k < 4 ->
  Spec.gridPixels W H rows cols !! ((y * W + x) * 4 + k)
  = Spec.gridPixel rows cols x y !! k.
Proof.
  intros Hx Hy Hk. unfold Spec.gridPixels.
  replace ((y * W + x) * 4 + k) with (y * (W * 4) + (x * 4 + k)) by lia.
  rewrite (flat_map_block_lookup
             (fun y => flat_map (fun x => Spec.gridPixel rows cols x y) (seq 0 W))
             (W * 4) (seq 0 H) y (x * 4 + k) y).
  - apply (flat_map_block_lookup (fun x => Spec.gridPixel rows cols x y) 4
             (seq 0 W) x k x); [intros a; apply gridPixel_length| |done].
    apply lookup_seq. lia.
  - intros a. rewrite (flat_map_length_const _ 4); [by rewrite length_seq|].
    intros b. apply gridPixel_length.
  - apply lookup_seq. lia.
  - lia.
Qed.

Lemma isDarkAt_grid W H rows cols x y :
  x < W -> y < H ->
  isDarkAt (Spec.gridPixels W H rows cols) ((y * W + x) * 4) 128%Q
  = bool_decide (y ∈ rows) || bool_decide (x ∈ cols).
Proof.
  intros Hx Hy. unfold isDarkAt.
  pose proof (gridPixels_lookup W H rows cols x y 0 Hx Hy) as H0.
  rewrite Nat.add_0_r in H0.
  rewrite H0, !gridPixels_lookup by lia.
  unfold Spec.gridPixel. by destruct (_ || _).
Qed.


Lemma scan_all_dark (data : list Z) (indices : list nat) (c m : nat) :
  Forall (fun idx => isDarkAt data idx 128%Q = true) indices -> c <= m ->
  fold_left (fun st idx => scanPixel (isDarkAt data idx 128%Q) st) indices (c, m)
  = (c + length indices, Nat.max m (c + length indices)).
Proof.
  intros Hall. revert c m. induction Hall as [|idx indices Hd _ IH]; intros c m Hcm; simpl.
  - f_equal; lia.
  - rewrite Hd. unfold scanPixel at 2. cbn [fst snd].
    rewrite IH by lia. f_equal; lia.
Qed.

Lemma scan_sparse (data : list Z) (indices : list nat) (c m : nat) :
  c <= 1 -> m <= 1 ->
  (c = 1 -> forall i, indices !! 0 = Some i -> isDarkAt data i 128%Q = false) ->
  (forall j a b, indices !! j = Some a -> indices !! S j = Some b ->
                 isDarkAt data a 128%Q = true -> isDarkAt data b 128%Q = false) ->
  snd (fold_left (fun st idx => scanPixel (isDarkAt data idx 128%Q) st) indices (c, m)) <= 1.
Proof.
  revert c m. induction indices as [|idx indices IH]; intros c m Hc Hm Hhead Hadj; simpl.
  - done.
  - destruct (isDarkAt data idx 128%Q) eqn:Hd; unfold scanPixel at 2; cbn [fst snd].
    + assert (c = 0) as ->.
      { destruct c as [|[|c]]; [done| |lia].
        specialize (Hhead eq_refl idx eq_refl). congruence. }
      apply IH; [lia|lia| |].
      * intros _ i Hi. by apply (Hadj 0 idx i).
      * intros j a b Ha Hb. by apply (Hadj (S j) a b).
    + apply IH; [lia|lia|discriminate|].
      intros j a b Ha Hb. by apply (Hadj (S j) a b).
Qed.

Lemma maxConsecutive_all (data : list Z) (g : nat -> nat) (n : nat) :
  (forall j, j < n -> isDarkAt data (g j) 128%Q = true) ->
  maxConsecutive data (map g (seq 0 n)) = n.
Proof.
  intros Hd. unfold maxConsecutive. rewrite scan_all_dark; [|
    apply Forall_forall; intros idx Hin; apply list_elem_of_fmap in Hin;
    destruct Hin as (j & -> & Hj); apply elem_of_seq in Hj; apply Hd; lia | lia].
  rewrite length_map, length_seq. simpl. lia.
Qed.

Lemma maxConsecutive_sparse (data : list Z) (g : nat -> nat) (n : nat) :
  (forall j, S j < n -> isDarkAt data (g j) 128%Q = true ->
             isDarkAt data (g (S j)) 128%Q = false) ->
  maxConsecutive data (map g (seq 0 n)) <= 1.
Proof.
  intros Hadj. unfold maxConsecutive. apply scan_sparse; [lia|lia|discriminate|].
  intros j a b Ha Hb.
  rewrite list_lookup_fmap in Ha, Hb.
  destruct (seq 0 n !! j) as [ja|] eqn:Hja; [|discriminate].
  destruct (seq 0 n !! S j) as [jb|] eqn:Hjb; [|discriminate].
  apply lookup_seq in Hja, Hjb. destruct Hja as [-> _], Hjb as [-> Hlt].
  simpl in Ha, Hb. injection Ha as <-. injection Hb as <-.
  apply Hadj. lia.
Qed.

Lemma flat_map_ext_In {A B : Type} (f g : A -> list B) (l : list A) :
  (forall a, a ∈ l -> f a = g a) -> flat_map f l = flat_map g l.
Proof.
  induction l as [|a l IH]; intros Hfg; simpl; [done|].
  rewrite Hfg by constructor. rewrite IH; [done|].
  intros b Hb. apply Hfg. by constructor.
Qed.

(** Selecting from a range the members of a strictly increasing list lying
    in the range gives the list back. *)
Lemma flat_map_select {B : Type} (f : nat -> B) (l : list nat) (s n : nat) :
  StronglySorted Nat.lt l -> Forall (fun e => s <= e < s + n) l ->
  flat_map (fun y => if bool_decide (y ∈ l) then [f y] else []) (seq s n) = map f l.
Proof.
  revert s l. induction n as [|n IH]; intros s l Hsorted Hrange.
  - destruct l as [|e l]; [done|]. apply Forall_cons in Hrange as [He _]. lia.
  - cbn [seq flat_map]. destruct (decide (s ∈ l)) as [Hin|Hnin].
    + destruct l as [|e l]; [by apply elem_of_nil in Hin|].
      apply StronglySorted_inv in Hsorted as [Hsorted Hlt].
      apply Forall_cons in Hrange as [He Hrange].
      rewrite Forall_forall in Hlt.
      assert (e = s) as ->.
      { apply elem_of_cons in Hin as [->|Hin]; [done|].
        specialize (Hlt s Hin). lia. }
      rewrite bool_decide_eq_true_2 by constructor. cbn [app map]. f_equal.
      rewrite <- (IH (S s) l); [|done|].
      * apply flat_map_ext_In. intros y Hy. apply elem_of_seq in Hy.
        destruct (decide (y ∈ l)) as [Hyl|Hyl].
        -- rewrite !bool_decide_eq_true_2; [done|done|by constructor].
        -- rewrite !bool_decide_eq_false_2; [done|done|].
           intros [->|?]%elem_of_cons; [lia|done].
      * apply Forall_forall. intros x Hx.
        rewrite Forall_forall in Hrange. specialize (Hrange x Hx).
        specialize (Hlt x Hx). lia.
    + rewrite bool_decide_eq_false_2 by done. cbn [app].
      apply IH; [done|].
      apply Forall_forall. intros x Hx.
      rewrite Forall_forall in Hrange. specialize (Hrange x Hx).
      assert (x <> s) by (intros ->; done). lia.
Qed.


Lemma natQ_le (a b : nat) : a <= b -> (natQ a <= natQ b)%Q.
Proof. intros Hab. unfold natQ. rewrite <- Zle_Qle. lia. Qed.

Lemma natQ_lt (a b : nat) : a < b -> (natQ a < natQ b)%Q.
Proof. intros Hab. unfold natQ. rewrite <- Zlt_Qlt. lia. Qed.

(** A run as long as the scanned dimension qualifies as a line. *)
Lemma full_run_is_line (n : nat) : ge (natQ n) (natQ n * 0.3)%Q = true.
Proof.
  unfold ge, le. apply Qle_bool_iff.
  pose proof (natQ_le 0 n ltac:(lia)) as Hn. change (natQ 0) with 0%Q in Hn. lra.
Qed.

(** A run of at most one pixel does not, from dimension 4 on. *)
Lemma short_run_is_no_line (run n : nat) :
  run <= 1 -> 4 <= n -> ge (natQ run) (natQ n * 0.3)%Q = false.
Proof.
  intros Hrun Hn. unfold ge, le. apply not_true_is_false. intros Hle.
  apply Qle_bool_iff in Hle.
  pose proof (natQ_le run 1 Hrun) as H1. change (natQ 1) with 1%Q in H1.
  pose proof (natQ_le 4 n Hn) as H4. change (natQ 4) with 4%Q in H4. lra.
Qed.

Lemma detectHorizontalLines_grid (W H : nat) (rows cols : list nat) :
  4 <= W -> (forall x, x ∈ cols -> S x ∉ cols) ->
  StronglySorted Nat.lt rows -> Forall (fun r => r < H) rows ->
  detectHorizontalLines (Spec.gridPixels W H rows cols) W H None = map natQ rows.
Proof.
  intros HW Hadj Hsorted Hrange. unfold detectHorizontalLines. cbn [default from_option id].
  rewrite <- (flat_map_select natQ rows 0 H Hsorted);
    [|eapply Forall_impl; [exact Hrange|]; simpl; lia].
  apply flat_map_ext_In. intros y Hy. apply elem_of_seq in Hy.
  destruct (decide (y ∈ rows)) as [Hin|Hnin].
  - rewrite bool_decide_eq_true_2 by done.
    rewrite (maxConsecutive_all _ (fun x => (y * W + x) * 4) W).
    + unfold id. by rewrite full_run_is_line.
    + intros x Hx. rewrite isDarkAt_grid by lia.
      by rewrite bool_decide_eq_true_2.
  - rewrite bool_decide_eq_false_2 by done.
    unfold id. rewrite short_run_is_no_line; [done| |done].
    apply (maxConsecutive_sparse _ (fun x => (y * W + x) * 4) W).
    intros x Hx. rewrite !isDarkAt_grid by lia.
    rewrite (bool_decide_eq_false_2 (y ∈ rows)) by done. cbn [orb].
    intros Hc%bool_decide_eq_true. apply bool_decide_eq_false. by apply Hadj.
Qed.

Lemma detectVerticalLines_grid (W H : nat) (rows cols : list nat) :
  4 <= H -> (forall y, y ∈ rows -> S y ∉ rows) ->
  StronglySorted Nat.lt cols -> Forall (fun c => c < W) cols ->
  detectVerticalLines (Spec.gridPixels W H rows cols) W H None = map natQ cols.
Proof.
  intros HH Hadj Hsorted Hrange. unfold detectVerticalLines. cbn [default from_option id].
  rewrite <- (flat_map_select natQ cols 0 W Hsorted);
    [|eapply Forall_impl; [exact Hrange|]; simpl; lia].
  apply flat_map_ext_In. intros x Hx. apply elem_of_seq in Hx.
  destruct (decide (x ∈ cols)) as [Hin|Hnin].
  - rewrite bool_decide_eq_true_2 by done.
    rewrite (maxConsecutive_all _ (fun y => (y * W + x) * 4) H).
    + unfold id. by rewrite full_run_is_line.
    + intros y Hy. rewrite isDarkAt_grid by lia.
      rewrite (bool_decide_eq_true_2 (x ∈ cols)) by done. apply orb_true_r.
  - rewrite bool_decide_eq_false_2 by done.
    unfold id. rewrite short_run_is_no_line; [done| |done].
    apply (maxConsecutive_sparse _ (fun y => (y * W + x) * 4) H).
    intros y Hy. rewrite !isDarkAt_grid by lia.
    rewrite (bool_decide_eq_false_2 (x ∈ cols)) by done. rewrite !orb_false_r.
    intros Hc%bool_decide_eq_true. apply bool_decide_eq_false. by apply Hadj.
Qed.

End Grid.

(** ** The pixel-scan strategy as a whole *)

Section Fallback.
Local Open Scope Q_scope.
Import CoordinateConversion TableDetectionUtils UseTableDetection.

Lemma insertSorted_length a l : length (insertSorted a l) = S (length l).
Proof.
  induction l as [|b l IH]; simpl; [done|].
  destruct (le a b); simpl; [done|]. by rewrite IH.
Qed.

Lemma sortAscending_length l : length (sortAscending l) = length l.
Proof.
  induction l as [|a l IH]; simpl; [done|].
  unfold sortAscending in *. by rewrite insertSorted_length, IH.
Qed.

Lemma keepDistant_length minDistance last rest :
  (length (keepDistant minDistance last rest) <= length rest)%nat.
Proof.
  revert last. induction rest as [|l rest IH]; intros last; simpl; [done|].
  destruct (ge (l - last) minDistance); simpl.
  - specialize (IH l). lia.
  - specialize (IH last). lia.
Qed.

Lemma filterLines_length lines maxDimension minDistance :
  (length (filterLines lines maxDimension minDistance) <= length lines)%nat.
Proof.
  unfold filterLines. rewrite <- (sortAscending_length lines).
  destruct (sortAscending lines) as [|first rest]; simpl; [done|].
  pose proof (keepDistant_length
                (default (Math_max 10 (maxDimension * 0.01)) minDistance) first rest).
  lia.
Qed.

(** Three lines on each axis whose four cells are valid give the four cells
    of the 2 x 2 grid, row by row. *)
Lemma createCellsFromLines_two_by_two (h0 h1 h2 v0 v1 v2 imgWidth imgHeight : number) :
  isValidCell v0 h0 (v1 - v0) (h1 - h0) imgWidth imgHeight = true ->
  isValidCell v1 h0 (v2 - v1) (h1 - h0) imgWidth imgHeight = true ->
  isValidCell v0 h1 (v1 - v0) (h2 - h1) imgWidth imgHeight = true ->
  isValidCell v1 h1 (v2 - v1) (h2 - h1) imgWidth imgHeight = true ->
  createCellsFromLines [h0; h1; h2] [v0; v1; v2] imgWidth imgHeight
  = [ mkTableCell v0 h0 (v1 - v0) (h1 - h0) 0 0;
      mkTableCell v1 h0 (v2 - v1) (h1 - h0) 0 1;
      mkTableCell v0 h1 (v1 - v0) (h2 - h1) 1 0;
      mkTableCell v1 h1 (v2 - v1) (h2 - h1) 1 1 ].
Proof.
  intros H00 H01 H10 H11. unfold createCellsFromLines, lineAt.
  cbn [length Nat.ltb Nat.leb orb Nat.sub seq flat_map lookup list_lookup default
       Nat.add app].
  unfold id. by rewrite H00, H01, H10, H11.
Qed.

(** Three ascending lines at least the de-duplication distance apart pass
    [filterLines] unchanged. *)
Lemma filterLines_three (a b c maxDimension : number) :
  a <= b -> b <= c ->
  Math_max 10 (maxDimension * 0.01) <= b - a ->
  Math_max 10 (maxDimension * 0.01) <= c - b ->
  filterLines [a; b; c] maxDimension None = [a; b; c].
Proof.
  intros Hab Hbc Hd1 Hd2. unfold filterLines, sortAscending.
  cbn [foldr insertSorted default from_option id].
  apply Qle_bool_iff in Hab, Hbc. unfold le. rewrite Hbc. cbn [insertSorted].
  unfold le. rewrite Hab. cbn [keepDistant].
  apply Qle_bool_iff in Hd1, Hd2. unfold ge, le. by rewrite Hd1, Hd2.
Qed.



Lemma fallbackCells_of_lines (data : list Z) (width height : nat)
    (hl vl : list number) :
  detectHorizontalLines data width height None = hl ->
  detectVerticalLines data width height None = vl ->
  fallbackCells data width height ModeCells
  = if Nat.leb 2 (length hl) && Nat.leb 2 (length vl)
    then createCellsFromLines (filterLines hl (natQ height) None)
           (filterLines vl (natQ width) None) (natQ width) (natQ height)
    else [].
Proof. by intros <- <-. Qed.

(** Past its guards, [detectTablesFallback] in 'cells' mode returns the
    boxes of the cells when there are some, and the boxes of the regions
    otherwise. *)
Lemma detectTablesFallback_cells_mode (env : Env) (clock : nat -> Z)
    (url : string) (img : HTMLImageElement) (cells : list TableCell) :
  imageDataUrl env = Some url -> truthy_string url = true ->
  domImg env = Some img -> canvasContext env = true ->
  naturalWidth img <> 0%nat -> naturalHeight img <> 0%nat ->
  fallbackCells (pixels img) (naturalWidth img) (naturalHeight img) ModeCells = cells ->
  detectTablesFallback env ModeCells clock
  = Ok (match cells with
        | [] => forEachPush fallbackRegionBox clock
                  (detectTableRegions (pixels img) (naturalWidth img) (naturalHeight img))
                  0 []
        | _ :: _ => forEachPush fallbackCellBox clock cells 0 []
        end).
Proof.
  intros Hurl Htruthy Himg Hctx Hw Hh Hcells.
  unfold detectTablesFallback. rewrite Hurl, Htruthy, Himg, Hctx. simpl negb. cbv iota.
  apply Nat.eqb_neq in Hw, Hh. rewrite Hw, Hh. simpl orb. cbv iota.
  rewrite Hcells. destruct cells as [|cell cells]; [reflexivity|].
  destruct (forEachPush_extends fallbackCellBox clock cells 1
              ([] ++ [tableBox ("cell-" +:+ showZ (clock 0%nat) +:+ "-"
                                +:+ showNat (cell_row cell) +:+ "-"
                                +:+ showNat (cell_col cell))
                        (imageCoordsToPDFPoints (cell_x cell) (cell_y cell)
                           (cell_width cell) (cell_height cell))])) as [tail Htail].
  cbn [forEachPush fallbackCellBox length]. rewrite Htail. reflexivity.
Qed.

(** With three de-duplicated lines on each axis and four valid cells, the
    cells pushed are those of the 2 x 2 grid. *)
Lemma three_lines_give_four_cells (data : list Z) (width height : nat)
    (h0 h1 h2 v0 v1 v2 : number) :
  filterLines (detectHorizontalLines data width height None) (natQ height) None
  = [h0; h1; h2] ->
  filterLines (detectVerticalLines data width height None) (natQ width) None
  = [v0; v1; v2] ->
  isValidCell v0 h0 (v1 - v0) (h1 - h0) (natQ width) (natQ height) = true ->
  isValidCell v1 h0 (v2 - v1) (h1 - h0) (natQ width) (natQ height) = true ->
  isValidCell v0 h1 (v1 - v0) (h2 - h1) (natQ width) (natQ height) = true ->
  isValidCell v1 h1 (v2 - v1) (h2 - h1) (natQ width) (natQ height) = true ->
  fallbackCells data width height ModeCells
  = [ mkTableCell v0 h0 (v1 - v0) (h1 - h0) 0 0;
      mkTableCell v1 h0 (v2 - v1) (h1 - h0) 0 1;
      mkTableCell v0 h1 (v1 - v0) (h2 - h1) 1 0;
      mkTableCell v1 h1 (v2 - v1) (h2 - h1) 1 1 ].
Proof.
  intros Hfh Hfv H00 H01 H10 H11.
  rewrite (fallbackCells_of_lines data width height _ _ eq_refl eq_refl).
  pose proof (filterLines_length (detectHorizontalLines data width height None)
                (natQ height) None) as Hlh.
  pose proof (filterLines_length (detectVerticalLines data width height None)
                (natQ width) None) as Hlv.
  rewrite Hfh in Hlh. rewrite Hfv in Hlv. simpl in Hlh, Hlv.
  rewrite (proj2 (Nat.leb_le 2 _)) by lia. rewrite (proj2 (Nat.leb_le 2 _)) by lia.
  rewrite Hfh, Hfv. simpl andb. cbv iota.
  by apply createCellsFromLines_two_by_two.
Qed.







Lemma natQ_gap (a b : nat) : 10 <= natQ b - natQ a -> (a + 10 <= b)%nat.
Proof.
  intros Hg. unfold natQ in Hg.
  assert (inject_Z (Z.of_nat a + 10) <= inject_Z (Z.of_nat b)) as Hle.
  { rewrite inject_Z_plus. change (inject_Z 10) with 10. lra. }
  rewrite <- Zle_Qle in Hle. lia.
Qed.

Lemma Math_max_ge_l (a b : Q) : a <= Math_max a b.
Proof.
  unfold Math_max. destruct (Qle_bool a b) eqn:Hab.
  - by apply Qle_bool_iff.
  - apply Qle_refl.
Qed.

(** X29: on a whole family of synthetic images the fallback detector in
    'cells' mode returns the 2 x 2 grid of cells: the image is black on
    three rows and three columns, each one pixel thick and across the whole
    image, and white elsewhere; neighbouring lines are at least the
    de-duplication distance apart and the four cells are valid. *)
Lemma fallback_cells_on_grid
    (W H r0 r1 r2 c0 c1 c2 : nat) (env : Env) (clock : nat -> Z) (url : string) :
  imageDataUrl env = Some url -> truthy_string url = true ->
  domImg env = Some (Spec.gridImage W H [r0; r1; r2] [c0; c1; c2]) ->
  canvasContext env = true ->
  (r2 < H)%nat -> (c2 < W)%nat ->
  Math_max 10 (natQ H * 0.01) <= natQ r1 - natQ r0 ->
  Math_max 10 (natQ H * 0.01) <= natQ r2 - natQ r1 ->
  Math_max 10 (natQ W * 0.01) <= natQ c1 - natQ c0 ->
  Math_max 10 (natQ W * 0.01) <= natQ c2 - natQ c1 ->
  isValidCell (natQ c0) (natQ r0) (natQ c1 - natQ c0) (natQ r1 - natQ r0)
    (natQ W) (natQ H) = true ->
  isValidCell (natQ c1) (natQ r0) (natQ c2 - natQ c1) (natQ r1 - natQ r0)
    (natQ W) (natQ H) = true ->
  isValidCell (natQ c0) (natQ r1) (natQ c1 - natQ c0) (natQ r2 - natQ r1)
    (natQ W) (natQ H) = true ->
  isValidCell (natQ c1) (natQ r1) (natQ c2 - natQ c1) (natQ r2 - natQ r1)
    (natQ W) (natQ H) = true ->
  detectTablesFallback env ModeCells clock
  = Ok [ tableBox ("cell-" +:+ showZ (clock 0%nat) +:+ "-0-0")
           (imageCoordsToPDFPoints (natQ c0) (natQ r0)
              (natQ c1 - natQ c0) (natQ r1 - natQ r0));
         tableBox ("cell-" +:+ showZ (clock 1%nat) +:+ "-0-1")
           (imageCoordsToPDFPoints (natQ c1) (natQ r0)
              (natQ c2 - natQ c1) (natQ r1 - natQ r0));
         tableBox ("cell-" +:+ showZ (clock 2%nat) +:+ "-1-0")
           (imageCoordsToPDFPoints (natQ c0) (natQ r1)
              (natQ c1 - natQ c0) (natQ r2 - natQ r1));
         tableBox ("cell-" +:+ showZ (clock 3%nat) +:+ "-1-1")
           (imageCoordsToPDFPoints (natQ c1) (natQ r1)
              (natQ c2 - natQ c1) (natQ r2 - natQ r1)) ].
Proof.
  intros Hurl Htruthy Himg Hctx Hr2 Hc2 Hdr1 Hdr2 Hdc1 Hdc2 H00 H01 H10 H11.
  assert (Hr01 : (r0 + 10 <= r1)%nat)
    by (apply natQ_gap; eapply Qle_trans; [apply Math_max_ge_l | exact Hdr1]).
  assert (Hr12 : (r1 + 10 <= r2)%nat)
    by (apply natQ_gap; eapply Qle_trans; [apply Math_max_ge_l | exact Hdr2]).
  assert (Hc01 : (c0 + 10 <= c1)%nat)
    by (apply natQ_gap; eapply Qle_trans; [apply Math_max_ge_l | exact Hdc1]).
  assert (Hc12 : (c1 + 10 <= c2)%nat)
    by (apply natQ_gap; eapply Qle_trans; [apply Math_max_ge_l | exact Hdc2]).
  assert (Hh : detectHorizontalLines (Spec.gridPixels W H [r0; r1; r2] [c0; c1; c2]) W H None
               = [natQ r0; natQ r1; natQ r2]).
  { apply (detectHorizontalLines_grid W H [r0; r1; r2] [c0; c1; c2]).
    - lia.
    - intros x Hx Hsx. rewrite !elem_of_cons, elem_of_nil in Hx, Hsx. lia.
    - repeat constructor; unfold Nat.lt; lia.
    - repeat constructor; lia. }
  assert (Hv : detectVerticalLines (Spec.gridPixels W H [r0; r1; r2] [c0; c1; c2]) W H None
               = [natQ c0; natQ c1; natQ c2]).
  { apply (detectVerticalLines_grid W H [r0; r1; r2] [c0; c1; c2]).
    - lia.
    - intros y Hy Hsy. rewrite !elem_of_cons, elem_of_nil in Hy, Hsy. lia.
    - repeat constructor; unfold Nat.lt; lia.
    - repeat constructor; lia. }
  assert (Hcells :
            fallbackCells (Spec.gridPixels W H [r0; r1; r2] [c0; c1; c2]) W H ModeCells
            = [ mkTableCell (natQ c0) (natQ r0) (natQ c1 - natQ c0) (natQ r1 - natQ r0) 0 0;
                mkTableCell (natQ c1) (natQ r0) (natQ c2 - natQ c1) (natQ r1 - natQ r0) 0 1;
                mkTableCell (natQ c0) (natQ r1) (natQ c1 - natQ c0) (natQ r2 - natQ r1) 1 0;
                mkTableCell (natQ c1) (natQ r1) (natQ c2 - natQ c1) (natQ r2 - natQ r1) 1 1 ]).
  { apply three_lines_give_four_cells; try assumption.
    - rewrite Hh. apply filterLines_three; try assumption; apply natQ_le; lia.
    - rewrite Hv. apply filterLines_three; try assumption; apply natQ_le; lia. }
  by rewrite (detectTablesFallback_cells_mode env clock url
                (Spec.gridImage W H [r0; r1; r2] [c0; c1; c2]) _
                Hurl Htruthy Himg Hctx ltac:(simpl; lia) ltac:(simpl; lia) Hcells).
Qed.

Lemma fallback_cells_on_grid_witness :
  detectTablesFallback
    {| imageDataUrl := Some "data:image/png;base64,AAAA";
       domImg := Some (Spec.gridImage 44 34 [1; 17; 33]%nat [1; 22; 43]%nat);
       canvasContext := true;
       windowCv := None |}
    ModeCells (fun k => 1700000000000 + Z.of_nat k)%Z
  = Ok [ tableBox ("cell-" +:+ showZ (1700000000000 + Z.of_nat 0) +:+ "-0-0")
           (imageCoordsToPDFPoints (natQ 1) (natQ 1)
              (natQ 22 - natQ 1) (natQ 17 - natQ 1));
         tableBox ("cell-" +:+ showZ (1700000000000 + Z.of_nat 1) +:+ "-0-1")
           (imageCoordsToPDFPoints (natQ 22) (natQ 1)
              (natQ 43 - natQ 22) (natQ 17 - natQ 1));
         tableBox ("cell-" +:+ showZ (1700000000000 + Z.of_nat 2) +:+ "-1-0")
           (imageCoordsToPDFPoints (natQ 1) (natQ 17)
              (natQ 22 - natQ 1) (natQ 33 - natQ 17));
         tableBox ("cell-" +:+ showZ (1700000000000 + Z.of_nat 3) +:+ "-1-1")
           (imageCoordsToPDFPoints (natQ 22) (natQ 17)
              (natQ 43 - natQ 22) (natQ 33 - natQ 17)) ].
Proof.
  apply (fallback_cells_on_grid 44 34 1 17 33 1 22 43
           {| imageDataUrl := Some "data:image/png;base64,AAAA";
              domImg := Some (Spec.gridImage 44 34 [1; 17; 33]%nat [1; 22; 43]%nat);
              canvasContext := true;
              windowCv := None |}
           (fun k => 1700000000000 + Z.of_nat k)%Z "data:image/png;base64,AAAA");
    first [reflexivity | lia | vm_compute; first [reflexivity | discriminate]].
Defined.

End Fallback.

(** ** The bounding-box store: queries after updates *)

Section StoreQueries.
Import UseBoundingBoxes.

Lemma getBoundingBox_cons (id : string) (b : BoundingBox) (l : list BoundingBox) :
  getBoundingBox id (b :: l)
  = if decide (box_id b = id) then Some b else getBoundingBox id l.
Proof.
  unfold getBoundingBox. cbn [list_find].
  destruct (decide (box_id b = id)); [done|].
  by destruct (list_find _ l) as [[i x]|].
Qed.

Lemma getBoundingBox_app (id : string) (l1 l2 : list BoundingBox) :
  getBoundingBox id (l1 ++ l2)
  = match getBoundingBox id l1 with
    | Some b => Some b
    | None => getBoundingBox id l2
    end.
Proof.
  induction l1 as [|b l1 IH]; [done|].
  rewrite <- app_comm_cons, !getBoundingBox_cons.
  by destruct (decide (box_id b = id)).
Qed.

Lemma getBoundingBox_None (id : string) (l : list BoundingBox) :
  getBoundingBox id l = None <-> Forall (fun b => box_id b <> id) l.
Proof.
  unfold getBoundingBox. rewrite fmap_None. apply list_find_None.
Qed.

(** X1: after [addBoundingBox] a lookup by id returns what it returned
    before when a box of that id was already stored, the earliest box of an
    id winning; otherwise it returns the added box for the id of that box
    and nothing for any other id. *)
Theorem getBoundingBox_after_add
    (box : BoundingBox) (prev : list BoundingBox) (id : string) :
  getBoundingBox id (addBoundingBox box prev)
  = match getBoundingBox id prev with
    | Some found => Some found
    | None => if decide (box_id box = id) then Some box else None
    end.
Proof.
  unfold addBoundingBox. rewrite getBoundingBox_app.
  destruct (getBoundingBox id prev); [done|].
  rewrite getBoundingBox_cons. by destruct (decide (box_id box = id)).
Qed.

(** X2: [removeBoundingBox] removes every box of the given id, so a lookup
    of that id then finds nothing, and leaves the lookup of any other id as
    it was; removing twice is removing once, and the store is unchanged
    exactly when no box had the id. *)
Theorem removeBoundingBox_then_get (id : string) (prev : list BoundingBox) :
  getBoundingBox id (removeBoundingBox id prev) = None
  /\ (forall other, other <> id ->
        getBoundingBox other (removeBoundingBox id prev) = getBoundingBox other prev)
  /\ removeBoundingBox id (removeBoundingBox id prev) = removeBoundingBox id prev
  /\ (getBoundingBox id prev = None <-> removeBoundingBox id prev = prev).
Proof.
  unfold removeBoundingBox. split; [|split; [|split]].
  - apply getBoundingBox_None, Forall_forall. intros b Hb.
    by apply list_elem_of_filter in Hb as [? _].
  - intros other Hne. induction prev as [|b l IH]; [done|].
    rewrite filter_cons, (getBoundingBox_cons other b l).
    destruct (decide (box_id b <> id)) as [Hb|Hb].
    + rewrite getBoundingBox_cons. by destruct (decide (box_id b = other)).
    + destruct (decide (box_id b = other)) as [Hb'|_]; [|done].
      exfalso. apply Hb. congruence.
  - induction prev as [|b l IH]; [done|].
    rewrite filter_cons. destruct (decide (box_id b <> id)) as [Hb|Hb]; [|done].
    rewrite filter_cons, decide_True by done. by rewrite IH.
  - rewrite getBoundingBox_None. induction prev as [|b l IH]; [done|].
    rewrite filter_cons, Forall_cons. destruct (decide (box_id b <> id)) as [Hb|Hb].
    + split; [intros [_ H]; f_equal; by apply IH|].
      intros H. split; [done|]. apply IH. congruence.
    + split; [intros [? _]; done|]. intros H. exfalso.
      pose proof (length_filter (fun box => box_id box <> id) l) as Hlen.
      rewrite H in Hlen. simpl in Hlen. lia.
Qed.

(** X3: [updateBoundingBox] with an id that no stored box has leaves the
    store as it is. *)
Theorem updateBoundingBox_absent_id (id : string) (updates : PartialBoundingBox)
    (prev : list BoundingBox) :
  getBoundingBox id prev = None ->
  updateBoundingBox id updates prev = prev.
Proof.
  rewrite getBoundingBox_None. unfold updateBoundingBox.
  induction 1 as [|b l Hb _ IH]; [done|].
  simpl. rewrite decide_False by done. by rewrite IH.
Qed.

Lemma updateBoundingBox_absent_id_witness :
  updateBoundingBox "bbox-2"
    (mkPartial None (Some 9%Q) None None None None None)
    [mkBoundingBox "bbox-1" 1%Q 2%Q 30%Q 40%Q UnitPt (Some KindManual)]
  = [mkBoundingBox "bbox-1" 1%Q 2%Q 30%Q 40%Q UnitPt (Some KindManual)].
Proof.
  apply (updateBoundingBox_absent_id "bbox-2"
           (mkPartial None (Some 9%Q) None None None None None)
           [mkBoundingBox "bbox-1" 1%Q 2%Q 30%Q 40%Q UnitPt (Some KindManual)]).
  reflexivity.
Defined.

Lemma fold_countKind_lookup (l : list BoundingBox) (acc : gmap string nat)
    (k : BoundingBoxKind) :
  default 0%nat (fold_left countKind l acc !! kindName k)
  = (default 0%nat (acc !! kindName k)
     + length (filter (fun box => default KindManual (box_kind box) = k) l))%nat.
Proof.
  revert acc. induction l as [|b l IH]; intros acc; simpl; [lia|].
  rewrite IH, filter_cons. unfold countKind at 1.
  destruct (decide (default KindManual (box_kind b) = k)) as [->|Hne].
  - rewrite lookup_insert_eq. simpl. lia.
  - rewrite lookup_insert_ne; [lia|].
    destruct (default KindManual (box_kind b)), k; simpl; congruence.
Qed.

Lemma fold_countKind_positive (l : list BoundingBox) (acc : gmap string nat)
    (key : string) :
  (forall n, acc !! key = Some n -> (0 < n)%nat) ->
  forall n, fold_left countKind l acc !! key = Some n -> (0 < n)%nat.
Proof.
  revert acc. induction l as [|b l IH]; intros acc Hacc; simpl; [done|].
  apply IH. intros n. unfold countKind.
  destruct (decide (kindName (default KindManual (box_kind b)) = key)) as [->|Hne].
  - rewrite lookup_insert_eq. intros [= <-]. lia.
  - rewrite lookup_insert_ne by done. apply Hacc.
Qed.

Lemma fold_countKind_keys (l : list BoundingBox) (acc : gmap string nat)
    (key : string) :
  is_Some (fold_left countKind l acc !! key) ->
  is_Some (acc !! key) \/ exists k, key = kindName k.
Proof.
  revert acc. induction l as [|b l IH]; intros acc; simpl; [auto|].
  intros H. apply IH in H as [H|H]; [|auto].
  unfold countKind in H.
  destruct (decide (kindName (default KindManual (box_kind b)) = key)) as [<-|Hne].
  - right. eauto.
  - rewrite lookup_insert_ne in H by done. auto.
Qed.

(** X4: in the statistics, [byKind] holds for each kind the number of boxes
    of that kind, a box without a kind counting as manual; a kind without
    boxes has no entry, there is no other entry, and the three counts add
    up to [total]. *)
Theorem getBoundingBoxesStats_counts (boundingBoxes : list BoundingBox) :
  (forall k,
      byKind (getBoundingBoxesStats boundingBoxes) !! kindName k
      = if decide (length (filter (fun box => default KindManual (box_kind box) = k)
                             boundingBoxes) = 0%nat)
        then None
        else Some (length (filter (fun box => default KindManual (box_kind box) = k)
                             boundingBoxes)))
  /\ (forall key, is_Some (byKind (getBoundingBoxesStats boundingBoxes) !! key) ->
                  exists k, key = kindName k)
  /\ total (getBoundingBoxesStats boundingBoxes)
     = (length (filter (fun box => default KindManual (box_kind box) = KindManual)
                  boundingBoxes)
        + length (filter (fun box => default KindManual (box_kind box) = KindOcr)
                    boundingBoxes)
        + length (filter (fun box => default KindManual (box_kind box) = KindTable)
                    boundingBoxes))%nat.
Proof.
  unfold getBoundingBoxesStats. cbn [byKind total].
  split; [|split].
  - intros k. pose proof (fold_countKind_lookup boundingBoxes ∅ k) as Hc.
    rewrite lookup_empty in Hc. simpl in Hc.
    pose proof (fold_countKind_positive boundingBoxes ∅ (kindName k)) as Hp.
    destruct (fold_left countKind boundingBoxes ∅ !! kindName k) as [n|] eqn:Hl.
    + simpl in Hc. subst n. rewrite decide_False; [done|].
      specialize (Hp ltac:(intros n; by rewrite lookup_empty) _ eq_refl). lia.
    + simpl in Hc. by rewrite decide_True.
  - intros key H. apply fold_countKind_keys in H as [H|H]; [|done].
    rewrite lookup_empty in H. by destruct H.
  - induction boundingBoxes as [|b l IH]; [done|].
    rewrite !filter_cons. simpl. rewrite IH.
    destruct (box_kind b) as [[]|]; simpl; lia.
Qed.

Lemma positiveCount_iff (l : list BoundingBox) (k : BoundingBoxKind) :
  positiveCount (fold_left countKind l ∅) (kindName k) = true
  <-> exists box, box ∈ l /\ default KindManual (box_kind box) = k.
Proof.
  unfold positiveCount.
  pose proof (fold_countKind_lookup l ∅ k) as Hc.
  rewrite lookup_empty in Hc. simpl in Hc.
  pose proof (fold_countKind_positive l ∅ (kindName k)) as Hp.
  assert (Hex : (0 < length (filter (fun box => default KindManual (box_kind box) = k) l))%nat
                <-> exists box, box ∈ l /\ default KindManual (box_kind box) = k).
  { split.
    - intros Hlen. destruct (filter _ l) as [|b r] eqn:Hf; [simpl in Hlen; lia|].
      assert (b ∈ filter (fun box => default KindManual (box_kind box) = k) l) as Hin
        by (rewrite Hf; left).
      apply list_elem_of_filter in Hin as [? ?]. by exists b.
    - intros (b & Hb & Hk).
      assert (b ∈ filter (fun box => default KindManual (box_kind box) = k) l) as Hin
        by (by apply list_elem_of_filter).
      destruct (filter _ l); [by apply elem_of_nil in Hin|simpl; lia]. }
  rewrite <- Hex.
  destruct (fold_left countKind l ∅ !! kindName k) as [n|] eqn:Hl; simpl in Hc.
  - subst n. rewrite Nat.ltb_lt. done.
  - rewrite <- Hc. split; [done|lia].
Qed.

(** X5: the flags of the statistics: [hasOCR] and [hasTable] hold exactly
    when a box of that kind is stored, [hasManual] exactly when a box is
    stored that is manual or has no kind. *)
Theorem getBoundingBoxesStats_flags (boundingBoxes : list BoundingBox) :
  (hasOCR (getBoundingBoxesStats boundingBoxes) = true
   <-> exists box, box ∈ boundingBoxes /\ box_kind box = Some KindOcr)
  /\ (hasTable (getBoundingBoxesStats boundingBoxes) = true
      <-> exists box, box ∈ boundingBoxes /\ box_kind box = Some KindTable)
  /\ (hasManual (getBoundingBoxesStats boundingBoxes) = true
      <-> exists box, box ∈ boundingBoxes
                      /\ (box_kind box = Some KindManual \/ box_kind box = None)).
Proof.
  unfold getBoundingBoxesStats. cbn [hasOCR hasTable hasManual].
  split; [|split].
  - rewrite (positiveCount_iff boundingBoxes KindOcr).
    split; intros (b & Hb & Hk); exists b; (split; [done|]).
    + by destruct (box_kind b) as [[]|].
    + by rewrite Hk.
  - rewrite (positiveCount_iff boundingBoxes KindTable).
    split; intros (b & Hb & Hk); exists b; (split; [done|]).
    + by destruct (box_kind b) as [[]|].
    + by rewrite Hk.
  - rewrite (positiveCount_iff boundingBoxes KindManual).
    split; intros (b & Hb & Hk); exists b; (split; [done|]).
    + destruct (box_kind b) as [[]|]; simpl in Hk; auto; done.
    + by destruct Hk as [-> | ->].
Qed.

(** X6: after [removeBoundingBoxesByKind] no box of that kind is left, the
    boxes of every other kind are the same as before and in the same order,
    and so are the boxes without a kind: removing the manual boxes keeps
    the boxes that carry no kind. *)
Theorem removeBoundingBoxesByKind_selects
    (kind : BoundingBoxKind) (prev : list BoundingBox) :
  getBoundingBoxesByKind kind (removeBoundingBoxesByKind kind prev) = []
  /\ (forall other, other <> kind ->
        getBoundingBoxesByKind other (removeBoundingBoxesByKind kind prev)
        = getBoundingBoxesByKind other prev)
  /\ filter (fun box => box_kind box = None) (removeBoundingBoxesByKind kind prev)
     = filter (fun box => box_kind box = None) prev.
Proof.
  unfold getBoundingBoxesByKind, removeBoundingBoxesByKind.
  split; [|split].
  - induction prev as [|b l IH]; [done|].
    rewrite (filter_cons (fun box => box_kind box <> Some kind)).
    destruct (decide (box_kind b <> Some kind)); [|done].
    by rewrite filter_cons, decide_False.
  - intros other Hne. induction prev as [|b l IH]; [done|].
    rewrite (filter_cons (fun box => box_kind box <> Some kind)).
    rewrite (filter_cons _ b l).
    destruct (decide (box_kind b <> Some kind)) as [Hb|Hb].
    + rewrite filter_cons. rewrite IH. done.
    + rewrite IH. rewrite decide_False; [done|].
      intros Hk. apply Hb. intros Hk'. congruence.
  - induction prev as [|b l IH]; [done|].
    rewrite (filter_cons (fun box => box_kind box <> Some kind)).
    rewrite (filter_cons _ b l).
    destruct (decide (box_kind b <> Some kind)) as [Hb|Hb].
    + rewrite filter_cons. rewrite IH. done.
    + rewrite IH. rewrite decide_False; [done|].
      intros Hk. apply Hb. intros Hk'. congruence.
Qed.

End StoreQueries.

(** ** Unit conversion: the library against itself and against the
    PDF-canvas page *)

Section ConversionsMore.
Local Open Scope Q_scope.
Import CoordinateConversion.



Lemma Math_round_inject_Z (z : Z) : Math_round (inject_Z z) = inject_Z z.
Proof.
  unfold Math_round. f_equal.
  pose proof (Qfloor_le (inject_Z z + 0.5)) as Hl.
  pose proof (Qlt_floor (inject_Z z + 0.5)) as Hu.
  set (f := Qfloor (inject_Z z + 0.5)) in *. clearbody f.
  rewrite inject_Z_plus in Hu. change (inject_Z 1) with 1 in Hu.
  assert (Hq : forall a b : Q, a <= b + 0.5 -> b + 0.5 < a + 1 ->
                 a < b + 1 /\ b + -1 < a) by (intros; split; lra).
  destruct (Hq _ _ Hl Hu) as [H1 H2].
  change 1 with (inject_Z 1) in H1. change (-1) with (inject_Z (-1)) in H2.
  rewrite <- inject_Z_plus in H1, H2.
  rewrite <- Zlt_Qlt in H1, H2. lia.
Qed.

Lemma Math_round_comp (a b : Q) : a == b -> Math_round a = Math_round b.
Proof. intros H. unfold Math_round. f_equal. apply Qfloor_comp. by rewrite H. Qed.

Lemma Math_round_mono (a b : Q) : a <= b -> Math_round a <= Math_round b.
Proof.
  intros H. unfold Math_round. rewrite <- Zle_Qle. apply Qfloor_resp_le. lra.
Qed.

Lemma round2_comp (a b : Q) :
  a == b -> Math_round (a * 100) / 100 = Math_round (b * 100) / 100.
Proof. intros H. f_equal. apply Math_round_comp. by rewrite H. Qed.

(** Rounding to two decimals a second time changes nothing. *)
Lemma round2_idempotent (v : Q) :
  Math_round (Math_round (v * 100) / 100 * 100) / 100 = Math_round (v * 100) / 100.
Proof.
  f_equal.
  rewrite (Math_round_comp (Math_round (v * 100) / 100 * 100) (Math_round (v * 100)))
    by field.
  unfold Math_round at 2. apply Math_round_inject_Z.
Qed.

Lemma imageCoordsToPDFPoints_comp (x y w h x' y' w' h' : Q) :
  x == x' -> y == y' -> w == w' -> h == h' ->
  imageCoordsToPDFPoints x y w h = imageCoordsToPDFPoints x' y' w' h'.
Proof.
  intros Hx Hy Hw Hh. unfold imageCoordsToPDFPoints.
  f_equal; f_equal; apply round2_comp;
    unfold pointsToPixels, pointsToMillimeters;
    rewrite ?Hx, ?Hy, ?Hw, ?Hh; reflexivity.
Qed.

End ConversionsMore.

(** ** Drawing a box by hand on the image-pdf page *)

Section Drawing.
Local Open Scope Q_scope.
Import CoordinateConversion ImagePdfPage.



Lemma gt_false_of_le (a b : Q) : a <= b -> gt a b = false.
Proof.
  intros H. unfold gt, lt. apply negb_false_iff, Qle_bool_iff. exact H.
Qed.



(** X10: when the dragged rectangle is at most 5 pixels wide or at most 5
    pixels high, [handleMouseUp] stores no box, whatever the converter
    returns, and ends the drawing. *)
Theorem handleMouseUp_discards_small_drag
    (convertDisplayToPDF :
       number -> number -> number -> number -> option HTMLImageElement ->
       option CoordinateConversion)
    (imageRef : option HTMLImageElement) (now : Z) (event : MouseEvent)
    (st : DrawingState) (start : Point) (preview : BoundingBox) :
  isDrawing st = true ->
  startPoint st = Some start ->
  currentBox st = Some preview ->
  rect_width (Spec.draggedRect start event) <= 5
  \/ rect_height (Spec.draggedRect start event) <= 5 ->
  handleMouseUp convertDisplayToPDF imageRef now event st
  = {| isDrawing := false; startPoint := None; currentBox := None;
       selectedUnit := selectedUnit st; boundingBoxes := boundingBoxes st |}.
Proof.
  unfold Spec.draggedRect. cbn [rect_width rect_height].
  intros Hd Hs Hc Hsmall. unfold handleMouseUp. rewrite Hd, Hs, Hc.
  f_equal. destruct (convertDisplayToPDF _ _ _ _ _); [|reflexivity].
  destruct Hsmall as [H|H]; rewrite (gt_false_of_le _ _ H);
    [|rewrite andb_false_r]; reflexivity.
Qed.

Lemma handleMouseUp_discards_small_drag_witness :
  handleMouseUp
    (UsePDF.convertDisplayToPDF (Some (mkDimensions 2550 3300)) None)
    (Some (mkImage 850 1100 2550 3300 true [])) 1700000000000
    (mkMouseEvent 113 450 10 50)
    (mkDrawingState true (Some (mkPoint 100 200))
       (Some (mkBoundingBox "temp-1" 100 200 1 1 UnitPt None)) UnitMm [])
  = {| isDrawing := false; startPoint := None; currentBox := None;
       selectedUnit := UnitMm; boundingBoxes := [] |}.
Proof.
  apply (handleMouseUp_discards_small_drag
           (UsePDF.convertDisplayToPDF (Some (mkDimensions 2550 3300)) None)
           (Some (mkImage 850 1100 2550 3300 true [])) 1700000000000
           (mkMouseEvent 113 450 10 50)
           (mkDrawingState true (Some (mkPoint 100 200))
              (Some (mkBoundingBox "temp-1" 100 200 1 1 UnitPt None)) UnitMm [])
           (mkPoint 100 200) (mkBoundingBox "temp-1" 100 200 1 1 UnitPt None));
    [reflexivity | reflexivity | reflexivity | left; vm_compute; discriminate].
Defined.

(** X11: a press followed by a release without a move in between: with no
    preview box set, [handleMouseUp] returns without touching the state, so
    the drawing flag that [handleMouseDown] raised stays raised and no box
    is stored. *)
Theorem click_without_move_keeps_drawing
    (convertDisplayToPDF :
       number -> number -> number -> number -> option HTMLImageElement ->
       option CoordinateConversion)
    (imageRef : option HTMLImageElement) (now : Z) (url : string)
    (down up : MouseEvent) (st : DrawingState) :
  url <> EmptyString ->
  currentBox st = None ->
  handleMouseUp convertDisplayToPDF imageRef now up
    (handleMouseDown (Some url) down st)
  = handleMouseDown (Some url) down st
  /\ isDrawing (handleMouseDown (Some url) down st) = true
  /\ boundingBoxes (handleMouseDown (Some url) down st) = boundingBoxes st.
Proof.
  intros Hurl Hc. unfold handleMouseDown.
  destruct url as [|a url]; [done|]. cbn [truthy_string].
  unfold handleMouseUp. cbn [isDrawing startPoint currentBox boundingBoxes].
  rewrite Hc. auto.
Qed.

Lemma click_without_move_keeps_drawing_witness :
  handleMouseUp
    (UsePDF.convertDisplayToPDF (Some (mkDimensions 2550 3300)) None)
    (Some (mkImage 850 1100 2550 3300 true [])) 1700000000000
    (mkMouseEvent 310 450 10 50)
    (handleMouseDown (Some "data:image/png") (mkMouseEvent 310 450 10 50)
       (mkDrawingState false None None UnitPt []))
  = handleMouseDown (Some "data:image/png") (mkMouseEvent 310 450 10 50)
      (mkDrawingState false None None UnitPt [])
  /\ isDrawing
       (handleMouseDown (Some "data:image/png") (mkMouseEvent 310 450 10 50)
          (mkDrawingState false None None UnitPt [])) = true
  /\ boundingBoxes
       (handleMouseDown (Some "data:image/png") (mkMouseEvent 310 450 10 50)
          (mkDrawingState false None None UnitPt []))
     = boundingBoxes (mkDrawingState false None None UnitPt []).
Proof.
  apply (click_without_move_keeps_drawing
           (UsePDF.convertDisplayToPDF (Some (mkDimensions 2550 3300)) None)
           (Some (mkImage 850 1100 2550 3300 true [])) 1700000000000
           "data:image/png" (mkMouseEvent 310 450 10 50) (mkMouseEvent 310 450 10 50)
           (mkDrawingState false None None UnitPt []));
    [discriminate | reflexivity].
Defined.

Lemma Math_min_comm (a b : Q) : Math_min a b == Math_min b a.
Proof.
  unfold Math_min.
  destruct (Qle_bool a b) eqn:H1, (Qle_bool b a) eqn:H2; try reflexivity.
  - apply Qle_bool_iff in H1, H2. lra.
  - apply not_true_iff_false in H1, H2. rewrite Qle_bool_iff in H1, H2. lra.
Qed.

Lemma Math_min_comp (a a' b b' : Q) :
  a == a' -> b == b' -> Math_min a b == Math_min a' b'.
Proof.
  intros Ha Hb. unfold Math_min.
  destruct (Qle_bool a b) eqn:H1, (Qle_bool a' b') eqn:H2; try assumption.
  - apply Qle_bool_iff in H1. apply not_true_iff_false in H2.
    rewrite Qle_bool_iff in H2. lra.
  - apply Qle_bool_iff in H2. apply not_true_iff_false in H1.
    rewrite Qle_bool_iff in H1. lra.
Qed.

Lemma Math_abs_diff_comm (a b : Q) : Math_abs (a - b) == Math_abs (b - a).
Proof.
  unfold Math_abs. rewrite <- (Qabs_opp (a - b)).
  apply Qabs_wd. ring.
Qed.

Lemma gt_comp (a b c : Q) : a == b -> gt a c = gt b c.
Proof.
  intros H. unfold gt, lt. f_equal.
  destruct (Qle_bool a c) eqn:H1, (Qle_bool b c) eqn:H2; try reflexivity.
  - apply Qle_bool_iff in H1. apply not_true_iff_false in H2.
    rewrite Qle_bool_iff in H2. lra.
  - apply Qle_bool_iff in H2. apply not_true_iff_false in H1.
    rewrite Qle_bool_iff in H1. lra.
Qed.

(** X12: the box [handleMouseUp] stores does not depend on the direction of
    the drag: pressing at A and releasing at B gives the same state as
    pressing at B and releasing at A.  [left] and [top] place the container
    in the window. *)
Theorem handleMouseUp_drag_direction_irrelevant
    (dims : option Dimensions) (pdfImage imageRef : option HTMLImageElement)
    (now : Z) (left top ax ay bx by' : number)
    (preview : BoundingBox) (unit : Unit) (boxes : list BoundingBox) :
  handleMouseUp (UsePDF.convertDisplayToPDF dims pdfImage) imageRef now
    {| clientX := bx + left; clientY := by' + top; rect_left := left; rect_top := top |}
    {| isDrawing := true; startPoint := Some {| point_x := ax; point_y := ay |};
       currentBox := Some preview; selectedUnit := unit; boundingBoxes := boxes |}
  = handleMouseUp (UsePDF.convertDisplayToPDF dims pdfImage) imageRef now
      {| clientX := ax + left; clientY := ay + top; rect_left := left; rect_top := top |}
      {| isDrawing := true; startPoint := Some {| point_x := bx; point_y := by' |};
         currentBox := Some preview; selectedUnit := unit; boundingBoxes := boxes |}.
Proof.
  unfold handleMouseUp.
  cbn [isDrawing startPoint currentBox selectedUnit boundingBoxes
       clientX clientY rect_left rect_top point_x point_y].
  f_equal.
  assert (Hx : Math_min (bx + left - left) ax == Math_min (ax + left - left) bx).
  { rewrite Math_min_comm. apply Math_min_comp; lra. }
  assert (Hy : Math_min (by' + top - top) ay == Math_min (ay + top - top) by').
  { rewrite Math_min_comm. apply Math_min_comp; lra. }
  assert (Hw : Math_abs (bx + left - left - ax) == Math_abs (ax + left - left - bx)).
  { rewrite Math_abs_diff_comm. apply Qabs_wd. lra. }
  assert (Hh : Math_abs (by' + top - top - ay) == Math_abs (ay + top - top - by')).
  { rewrite Math_abs_diff_comm. apply Qabs_wd. lra. }
  rewrite (gt_comp _ _ 5 Hw), (gt_comp _ _ 5 Hh).
  set (x1 := Math_min (bx + left - left) ax) in *.
  set (x2 := Math_min (ax + left - left) bx) in *.
  set (y1 := Math_min (by' + top - top) ay) in *.
  set (y2 := Math_min (ay + top - top) by') in *.
  set (w1 := Math_abs (bx + left - left - ax)) in *.
  set (w2 := Math_abs (ax + left - left - bx)) in *.
  set (h1 := Math_abs (by' + top - top - ay)) in *.
  set (h2 := Math_abs (ay + top - top - by')) in *.
  clearbody x1 x2 y1 y2 w1 w2 h1 h2.
  assert (Hconv : UsePDF.convertDisplayToPDF dims pdfImage x1 y1 w1 h1 imageRef
                  = UsePDF.convertDisplayToPDF dims pdfImage x2 y2 w2 h2 imageRef).
  { unfold UsePDF.convertDisplayToPDF. destruct dims as [d|]; [|reflexivity].
    destruct (match imageRef with Some e => Some e | None => pdfImage end) as [e|];
      [|reflexivity].
    unfold displayToImageCoords. f_equal.
    cbn [rect_x rect_y rect_width rect_height].
    apply imageCoordsToPDFPoints_comp; by rewrite ?Hx, ?Hy, ?Hw, ?Hh. }
  rewrite Hconv. reflexivity.
Qed.

(** X13: the dashed preview.  [handleMouseMove] keeps the dragged rectangle
    in display pixels under the selected unit, and [convertBoxToDisplay]
    reads it as a stored box: the preview is the dragged rectangle scaled,
    on each axis, by the point value of the unit times 300/72 times
    displayed size over raster size. *)
Theorem preview_box_is_rescaled
    (dims : Dimensions) (el : HTMLImageElement) (now : Z) (event : MouseEvent)
    (st : DrawingState) (start : Point) :
  isDrawing st = true ->
  startPoint st = Some start ->
  exists box : BoundingBox,
    currentBox (handleMouseMove now event st) = Some box
    /\ Spec.rectOf box = Spec.draggedRect start event
    /\ rect_x (PDFViewer.convertBoxToDisplay (Some dims) (Some el) box)
       == rect_x (Spec.draggedRect start event)
          * (Spec.toPoint (selectedUnit st) 1 * (300 / 72)
             * (clientWidth el / dim_width dims))
    /\ rect_y (PDFViewer.convertBoxToDisplay (Some dims) (Some el) box)
       == rect_y (Spec.draggedRect start event)
          * (Spec.toPoint (selectedUnit st) 1 * (300 / 72)
             * (clientHeight el / dim_height dims))
    /\ rect_width (PDFViewer.convertBoxToDisplay (Some dims) (Some el) box)
       == rect_width (Spec.draggedRect start event)
          * (Spec.toPoint (selectedUnit st) 1 * (300 / 72)
             * (clientWidth el / dim_width dims))
    /\ rect_height (PDFViewer.convertBoxToDisplay (Some dims) (Some el) box)
       == rect_height (Spec.draggedRect start event)
          * (Spec.toPoint (selectedUnit st) 1 * (300 / 72)
             * (clientHeight el / dim_height dims)).
Proof.
  intros Hd Hs. unfold handleMouseMove. rewrite Hd, Hs. cbn [currentBox].
  eexists. split; [reflexivity|]. split; [reflexivity|].
  unfold PDFViewer.convertBoxToDisplay, pdfPointsToDisplayCoords, Spec.toPoint,
    Spec.draggedRect.
  cbn [box_unit box_x box_y box_width box_height].
  destruct (selectedUnit st); cbn [rect_x rect_y rect_width rect_height];
    (split; [|split; [|split]]); unfold Qdiv; ring.
Qed.

Lemma preview_box_is_rescaled_witness :
  exists box : BoundingBox,
    currentBox
      (handleMouseMove 1700000000000 (mkMouseEvent 310 450 10 50)
         (mkDrawingState true (Some (mkPoint 100 200)) None UnitPt []))
    = Some box
    /\ Spec.rectOf box
       = Spec.draggedRect (mkPoint 100 200) (mkMouseEvent 310 450 10 50)
    /\ rect_x (PDFViewer.convertBoxToDisplay (Some (mkDimensions 2550 3300))
                 (Some (mkImage 850 1100 2550 3300 true [])) box)
       == rect_x (Spec.draggedRect (mkPoint 100 200) (mkMouseEvent 310 450 10 50))
          * (Spec.toPoint UnitPt 1 * (300 / 72) * (850 / 2550))
    /\ rect_y (PDFViewer.convertBoxToDisplay (Some (mkDimensions 2550 3300))
                 (Some (mkImage 850 1100 2550 3300 true [])) box)
       == rect_y (Spec.draggedRect (mkPoint 100 200) (mkMouseEvent 310 450 10 50))
          * (Spec.toPoint UnitPt 1 * (300 / 72) * (1100 / 3300))
    /\ rect_width (PDFViewer.convertBoxToDisplay (Some (mkDimensions 2550 3300))
                     (Some (mkImage 850 1100 2550 3300 true [])) box)
       == rect_width (Spec.draggedRect (mkPoint 100 200) (mkMouseEvent 310 450 10 50))
          * (Spec.toPoint UnitPt 1 * (300 / 72) * (850 / 2550))
    /\ rect_height (PDFViewer.convertBoxToDisplay (Some (mkDimensions 2550 3300))
                      (Some (mkImage 850 1100 2550 3300 true [])) box)
       == rect_height (Spec.draggedRect (mkPoint 100 200) (mkMouseEvent 310 450 10 50))
          * (Spec.toPoint UnitPt 1 * (300 / 72) * (1100 / 3300)).
Proof.
  apply (preview_box_is_rescaled (mkDimensions 2550 3300)
           (mkImage 850 1100 2550 3300 true []) 1700000000000
           (mkMouseEvent 310 450 10 50)
           (mkDrawingState true (Some (mkPoint 100 200)) None UnitPt [])
           (mkPoint 100 200)); reflexivity.
Defined.

End Drawing.

(** ** The PDF-canvas page: what is stored and what is exported *)

Section Legacy.
Local Open Scope Q_scope.
Import CoordinateConversion.

Lemma pdfBboxTool_handleMouseUp_stored
    (now : Z) (st : PdfBboxPage.PageState) (box : BoundingBox) :
  PdfBboxPage.boundingBoxes (PdfBboxPage.handleMouseUp now st)
  = PdfBboxPage.boundingBoxes st ++ [box] ->
  exists coords cb,
    PdfBboxPage.currentBox st = Some cb
    /\ PdfBboxPage.convertCanvasToPDF st (box_x cb) (box_y cb) (box_width cb) (box_height cb)
       = Some coords
    /\ Spec.rectOf box = pt coords.
Proof.
  assert (Hno : PdfBboxPage.boundingBoxes st <> PdfBboxPage.boundingBoxes st ++ [box]).
  { intros H. apply (f_equal length) in H. rewrite length_app in H. simpl in H. lia. }
  unfold PdfBboxPage.handleMouseUp.
  destruct (PdfBboxPage.isDrawing st); [|done].
  destruct (PdfBboxPage.startPoint st); [|done].
  destruct (PdfBboxPage.currentBox st) as [cb|]; [|done].
  cbn [PdfBboxPage.boundingBoxes].
  destruct (PdfBboxPage.convertCanvasToPDF st _ _ _ _) as [coords|] eqn:Hc; [|done].
  destruct (_ && _); [|done].
  intros H. apply app_inv_head in H. injection H as <-.
  exists coords, cb. split; [done|]. split; [done|].
  unfold Spec.rectOf. cbn [box_x box_y box_width box_height]. by destruct (pt coords).
Qed.

(** X14: on the PDF-canvas page, a box that [handleMouseUp] has just stored
    is exported by [exportData] with exactly the stored scalars as its [pt]
    entry (they have two decimals already), whatever unit the box carries;
    its [px] and [mm] entries, taken back to points, are within 0.005 and
    0.015 of the stored scalars. *)
Theorem pdfBboxTool_export_returns_stored_points
    (now : Z) (st : PdfBboxPage.PageState) (box : BoundingBox) (index : nat) :
  PdfBboxPage.boundingBoxes (PdfBboxPage.handleMouseUp now st)
  = PdfBboxPage.boundingBoxes st ++ [box] ->
  PdfBboxPage.exp_pt (PdfBboxPage.exportBox index box) = Spec.rectOf box
  /\ Spec.rectWithin 0.005
       (Spec.scaleRect 0.75 (PdfBboxPage.exp_px (PdfBboxPage.exportBox index box)))
       (Spec.rectOf box)
  /\ Spec.rectWithin 0.015
       (Spec.scaleRect 2.834645669 (PdfBboxPage.exp_mm (PdfBboxPage.exportBox index box)))
       (Spec.rectOf box).
Proof.
  intros H. apply pdfBboxTool_handleMouseUp_stored in H as (coords & cb & _ & Hc & Hpt).
  split; [|split].
  - unfold PdfBboxPage.convertCanvasToPDF in Hc.
    destruct (PdfBboxPage.pdfDocument st); [|done]. injection Hc as <-.
    unfold Spec.rectOf in *. cbn [pt] in Hpt. injection Hpt as Hx Hy Hw Hh.
    unfold PdfBboxPage.exportBox. cbn [PdfBboxPage.exp_pt].
    rewrite Hx, Hy, Hw, Hh. by rewrite !round2_idempotent.
  - unfold Spec.rectWithin, Spec.scaleRect, PdfBboxPage.exportBox, Spec.rectOf.
    cbn [PdfBboxPage.exp_px rect_x rect_y rect_width rect_height].
    assert (Hf : forall v, Qabs (Math_round (v / 0.75 * 100) / 100 * 0.75 - v) <= 0.005).
    { intros v. pose proof (Math_round_hundredth (v / 0.75)) as Hr.
      set (r := Math_round (v / 0.75 * 100) / 100) in *. clearbody r.
      apply Qabs_Qle_condition in Hr. apply Qabs_Qle_condition.
      assert (Hv : v == v / 0.75 * 0.75) by field.
      set (u := v / 0.75) in *. clearbody u. rewrite Hv. qconst. split; lra. }
    auto.
  - unfold Spec.rectWithin, Spec.scaleRect, PdfBboxPage.exportBox, Spec.rectOf.
    cbn [PdfBboxPage.exp_mm rect_x rect_y rect_width rect_height].
    assert (Hf : forall v, Qabs (Math_round (v / 2.834645669 * 100) / 100 * 2.834645669 - v)
                           <= 0.015).
    { intros v. pose proof (Math_round_hundredth (v / 2.834645669)) as Hr.
      set (r := Math_round (v / 2.834645669 * 100) / 100) in *. clearbody r.
      apply Qabs_Qle_condition in Hr. apply Qabs_Qle_condition.
      assert (Hv : v == v / 2.834645669 * 2.834645669) by field.
      set (u := v / 2.834645669) in *. clearbody u. rewrite Hv. qconst. split; lra. }
    auto.
Qed.

Lemma pdfBboxTool_export_returns_stored_points_witness :
  PdfBboxPage.exp_pt
    (PdfBboxPage.exportBox 0 (mkBoundingBox "bbox-5" 6.67 13.33 66.67 33.33 UnitPx None))
  = Spec.rectOf (mkBoundingBox "bbox-5" 6.67 13.33 66.67 33.33 UnitPx None)
  /\ Spec.rectWithin 0.005
       (Spec.scaleRect 0.75
          (PdfBboxPage.exp_px
             (PdfBboxPage.exportBox 0
                (mkBoundingBox "bbox-5" 6.67 13.33 66.67 33.33 UnitPx None))))
       (Spec.rectOf (mkBoundingBox "bbox-5" 6.67 13.33 66.67 33.33 UnitPx None))
  /\ Spec.rectWithin 0.015
       (Spec.scaleRect 2.834645669
          (PdfBboxPage.exp_mm
             (PdfBboxPage.exportBox 0
                (mkBoundingBox "bbox-5" 6.67 13.33 66.67 33.33 UnitPx None))))
       (Spec.rectOf (mkBoundingBox "bbox-5" 6.67 13.33 66.67 33.33 UnitPx None)).
Proof.
  apply (pdfBboxTool_export_returns_stored_points 5
           {| PdfBboxPage.pdfDocument :=
                Some (fun scale => mkDimensions (612 * scale) (792 * scale));
              PdfBboxPage.zoom := 1.5;
              PdfBboxPage.isDrawing := true;
              PdfBboxPage.startPoint := Some (mkPoint 10 20);
              PdfBboxPage.currentBox :=
                Some (mkBoundingBox "temp-1" 10 20 100 50 UnitPx None);
              PdfBboxPage.selectedUnit := UnitPx;
              PdfBboxPage.boundingBoxes := [] |}
           (mkBoundingBox "bbox-5" 6.67 13.33 66.67 33.33 UnitPx None) 0).
  vm_compute. reflexivity.
Defined.

(** X15: [changePage] keeps the current page between 1 and the number of
    pages: a page number in that range becomes the current page, any other
    leaves the page information as it is. *)
Theorem changePage_keeps_page_in_range (pageNum : number) (info : UsePDF.PageInfo) :
  1 <= UsePDF.currentPage info -> UsePDF.currentPage info <= UsePDF.totalPages info ->
  1 <= UsePDF.currentPage (UsePDF.changePage pageNum info)
  /\ UsePDF.currentPage (UsePDF.changePage pageNum info) <= UsePDF.totalPages info
  /\ UsePDF.totalPages (UsePDF.changePage pageNum info) = UsePDF.totalPages info
  /\ (pageNum < 1 \/ UsePDF.totalPages info < pageNum ->
      UsePDF.changePage pageNum info = info)
  /\ (1 <= pageNum /\ pageNum <= UsePDF.totalPages info ->
      UsePDF.currentPage (UsePDF.changePage pageNum info) = pageNum).
Proof.
  intros H1 H2. unfold UsePDF.changePage, ge, le.
  destruct (Qle_bool 1 pageNum) eqn:Ha;
    [apply Qle_bool_iff in Ha|apply not_true_iff_false in Ha; rewrite Qle_bool_iff in Ha];
    (destruct (Qle_bool pageNum (UsePDF.totalPages info)) eqn:Hb;
     [apply Qle_bool_iff in Hb|apply not_true_iff_false in Hb; rewrite Qle_bool_iff in Hb]);
    cbn [andb UsePDF.currentPage UsePDF.totalPages];
    (split; [|split; [|split; [|split]]]); try done; try lra;
    try (intros [?|?]; (done || lra)); try (intros [? ?]; (done || lra)).
Qed.

Lemma changePage_keeps_page_in_range_witness :
  1 <= UsePDF.currentPage (UsePDF.changePage 4 (UsePDF.mkPageInfo 2 3))
  /\ UsePDF.currentPage (UsePDF.changePage 4 (UsePDF.mkPageInfo 2 3))
     <= UsePDF.totalPages (UsePDF.mkPageInfo 2 3)
  /\ UsePDF.totalPages (UsePDF.changePage 4 (UsePDF.mkPageInfo 2 3))
     = UsePDF.totalPages (UsePDF.mkPageInfo 2 3)
  /\ (4 < 1 \/ UsePDF.totalPages (UsePDF.mkPageInfo 2 3) < 4 ->
      UsePDF.changePage 4 (UsePDF.mkPageInfo 2 3) = UsePDF.mkPageInfo 2 3)
  /\ (1 <= 4 /\ 4 <= UsePDF.totalPages (UsePDF.mkPageInfo 2 3) ->
      UsePDF.currentPage (UsePDF.changePage 4 (UsePDF.mkPageInfo 2 3)) = 4).
Proof.
  apply (changePage_keeps_page_in_range 4 (UsePDF.mkPageInfo 2 3));
    vm_compute; discriminate.
Defined.

End Legacy.

(** ** The exported file of the image-pdf page *)

Section ExportedFile.
Local Open Scope Q_scope.
Import CoordinateConversion ExportActions.


End ExportedFile.

(** ** From the engine's data to OCR boxes *)

Section OcrPipeline.
Local Open Scope Q_scope.
Import OcrUtils UseOCR CoordinateConversion.

Lemma Math_max_ge_1 (v : Q) : 1 <= Math_max 1 v.
Proof.
  unfold Math_max. destruct (Qle_bool 1 v) eqn:H; [by apply Qle_bool_iff|lra].
Qed.

(** A raster extent of at least one pixel is at least 0.24 pt. *)
Lemma pt_extent_lower_bound (w : Q) :
  1 <= w -> 0.24 <= Math_round (w / (300 / 72) * 100) / 100.
Proof.
  intros Hw.
  assert (H : Math_round 24 <= Math_round (w / (300 / 72) * 100)).
  { apply Math_round_mono. qconst. lra. }
  change (Math_round 24) with (inject_Z (Qfloor (24 + 0.5))) in H.
  change (Qfloor (24 + 0.5)) with 24%Z in H. change (inject_Z 24) with 24 in H.
  set (r := Math_round (w / (300 / 72) * 100)) in *. clearbody r.
  qconst. lra.
Qed.

Lemma processLevel_length conv name clock items :
  length (processLevel conv name clock items) = length (default [] items).
Proof. destruct items; [apply length_imap|done]. Qed.

Lemma processLevel_Forall (P : OCRItem -> Prop) conv name clock items :
  (forall now index word, P (processItem conv name now index word)) ->
  Forall P (processLevel conv name clock items).
Proof.
  intros HP. destruct items as [items|]; [|constructor].
  unfold processLevel. apply Forall_forall. intros item Hin.
  apply list_elem_of_lookup in Hin as [i Hi].
  rewrite list_lookup_imap in Hi.
  destruct (items !! i); simplify_eq/=. apply HP.
Qed.

Lemma processLevel_texts conv name clock items :
  item_text <$> processLevel conv name clock items
  = (fun word => orEmpty (tess_text word)) <$> default [] items.
Proof.
  destruct items as [items|]; [|done]. unfold processLevel. simpl.
  apply list_eq. intros i. rewrite !list_lookup_fmap, list_lookup_imap.
  by destruct (items !! i).
Qed.

(** X17: [processOCRResult], with [imageCoordsToPDFPoints] as converter as
    [performOCR] calls it, keeps at every level the number and the order of
    the engine's items and their texts, an absent level or text becoming
    empty; every item it returns has a number as confidence and a point
    rectangle at least 0.24 pt wide and high, a missing or degenerate
    engine box counting as one pixel. *)
Theorem processOCRResult_items
    (tesseractData : TesseractData) (clock : nat -> Z) (level : OCRLevel) :
  length (getOCRDataByLevel
            (processOCRResult tesseractData
               (fun x y w h => Some (imageCoordsToPDFPoints x y w h)) clock) level)
  = length (default [] (Spec.engineItems tesseractData level))
  /\ item_text <$> getOCRDataByLevel
                     (processOCRResult tesseractData
                        (fun x y w h => Some (imageCoordsToPDFPoints x y w h)) clock) level
     = (fun word => orEmpty (tess_text word))
         <$> default [] (Spec.engineItems tesseractData level)
  /\ Forall (fun item =>
               exists c bbox r,
                 item_confidence item = Some c
                 /\ item_bbox item = Some bbox
                 /\ bbox_pt bbox = Some r
                 /\ 0.24 <= rect_width r /\ 0.24 <= rect_height r)
       (getOCRDataByLevel
          (processOCRResult tesseractData
             (fun x y w h => Some (imageCoordsToPDFPoints x y w h)) clock) level).
Proof.
  assert (HP : forall name now index word,
             (fun item =>
                exists c bbox r,
                  item_confidence item = Some c
                  /\ item_bbox item = Some bbox
                  /\ bbox_pt bbox = Some r
                  /\ 0.24 <= rect_width r /\ 0.24 <= rect_height r)
               (processItem (fun x y w h => Some (imageCoordsToPDFPoints x y w h))
                  name now index word)).
  { intros name now index word. unfold processItem.
    cbn [item_confidence item_bbox bbox_pt fmap option_fmap option_map].
    eexists _, _, _. split; [reflexivity|]. split; [reflexivity|].
    split; [reflexivity|].
    unfold imageCoordsToPDFPoints. cbn [pt rect_width rect_height].
    split; apply pt_extent_lower_bound, Math_max_ge_1. }
  unfold processOCRResult, getOCRDataByLevel.
  destruct level; cbn [words lines paragraphs blocks Spec.engineItems];
    (split; [apply processLevel_length|]);
    (split; [apply processLevel_texts|]);
    apply processLevel_Forall; intros; apply HP.
Qed.

Lemma ge_max_iff (c a b : Q) :
  ge c (Math_max a b) = ge c a && ge c b.
Proof.
  unfold ge, le, Math_max.
  destruct (Qle_bool a b) eqn:Hab;
    destruct (Qle_bool a c) eqn:Hac; destruct (Qle_bool b c) eqn:Hbc; try reflexivity;
    repeat match goal with
           | H : Qle_bool _ _ = true |- _ => apply Qle_bool_iff in H
           | H : Qle_bool _ _ = false |- _ =>
               apply not_true_iff_false in H; rewrite Qle_bool_iff in H
           end; lra.
Qed.

(** X18: filtering by confidence twice is filtering once by the larger
    threshold; in particular the filter is idempotent. *)
Theorem filterOCRResultsByConfidence_twice
    (items : list OCRItem) (first second : number) :
  filterOCRResultsByConfidence (filterOCRResultsByConfidence items first) second
  = filterOCRResultsByConfidence items (Math_max first second).
Proof.
  unfold filterOCRResultsByConfidence.
  induction items as [|item items IH]; [done|].
  rewrite (filter_cons (fun item => ge (confidenceOf item) first = true)).
  rewrite (filter_cons (fun item => ge (confidenceOf item) (Math_max first second) = true)).
  pose proof (ge_max_iff (confidenceOf item) first second) as Hm.
  destruct (decide (ge (confidenceOf item) first = true)) as [H1|H1].
  - rewrite filter_cons, IH.
    destruct (decide (ge (confidenceOf item) second = true)) as [H2|H2].
    + rewrite decide_True; [done|]. by rewrite Hm, H1, H2.
    + rewrite decide_False; [done|]. rewrite Hm, H1. simpl. done.
  - rewrite IH, decide_False; [done|]. rewrite Hm.
    apply not_true_is_false in H1. by rewrite H1.
Qed.

(** X19: the effect of the image-pdf page adds OCR boxes only when the
    text data holds at least one word.  When the engine reports no words,
    the store stays as it is whatever the level selected and whatever
    [generateBoundingBoxes] would return, for instance boxes of recognised
    lines. *)
Theorem ocrEffect_needs_words
    (tesseractData : TesseractData)
    (convert : number -> number -> number -> number -> option CoordinateConversion)
    (clock : nat -> Z) (generate : Unit -> list BoundingBox) (prev : list BoundingBox) :
  default [] (tess_words tesseractData) = [] ->
  ImagePdfPage.ocrEffect (Some (processOCRResult tesseractData convert clock))
    generate prev = prev.
Proof.
  intros Hw. unfold ImagePdfPage.ocrEffect.
  unfold processOCRResult. cbn [words]. rewrite processLevel_length, Hw. done.
Qed.

Lemma ocrEffect_needs_words_witness :
  ImagePdfPage.ocrEffect
    (Some (processOCRResult
             (mkTesseractData (Some "Total") (Some 91) None
                (Some [mkTesseractItem (Some "Total") (Some 91)
                         (Some (mkTesseractBBox (Some 40) (Some 60) (Some 200) (Some 90)))])
                None None)
             (fun x y w h => Some (imageCoordsToPDFPoints x y w h))
             (fun k => 1700000000000 + Z.of_nat k)%Z))
    (generateBoundingBoxes
       (Some (processOCRResult
                (mkTesseractData (Some "Total") (Some 91) None
                   (Some [mkTesseractItem (Some "Total") (Some 91)
                            (Some (mkTesseractBBox (Some 40) (Some 60) (Some 200) (Some 90)))])
                   None None)
                (fun x y w h => Some (imageCoordsToPDFPoints x y w h))
                (fun k => 1700000000000 + Z.of_nat k)%Z))
       (mkOCRSettings "eng" LevelLine 60 true)
       (fun k => 1700000000100 + Z.of_nat k)%Z)
    [mkBoundingBox "bbox-1" 1 2 30 40 UnitPt (Some KindManual)]
  = [mkBoundingBox "bbox-1" 1 2 30 40 UnitPt (Some KindManual)].
Proof.
  apply (ocrEffect_needs_words
           (mkTesseractData (Some "Total") (Some 91) None
              (Some [mkTesseractItem (Some "Total") (Some 91)
                       (Some (mkTesseractBBox (Some 40) (Some 60) (Some 200) (Some 90)))])
              None None)).
  reflexivity.
Defined.

End OcrPipeline.

(** ** The text of generated identifiers *)

Section IdStrings.
Import IdText.

Lemma append_cons (c : Ascii.ascii) (s t : string) :
  String c s +:+ t = String c (s +:+ t).
Proof. reflexivity. Qed.

Lemma append_nil (t : string) : "" +:+ t = t.
Proof. reflexivity. Qed.

Lemma allChars_app (p : Ascii.ascii -> bool) (s t : string) :
  allChars p (s +:+ t) = allChars p s && allChars p t.
Proof.
  induction s as [|c s IH]; simpl; [done|]. by rewrite IH, andb_assoc.
Qed.

Lemma allChars_impl (p q : Ascii.ascii -> bool) (s : string) :
  (forall c, p c = true -> q c = true) -> allChars p s = true -> allChars q s = true.
Proof.
  intros Hpq. induction s as [|c s IH]; simpl; [done|].
  rewrite !andb_true_iff. intros [Hc Hs]. auto.
Qed.

Lemma pretty_N_char_digit (x : N) : isDigit (pretty_N_char x) = true.
Proof. unfold pretty_N_char. by repeat case_match. Qed.

Lemma pretty_N_go_digits (x : N) (s : string) :
  allChars isDigit s = true -> allChars isDigit (pretty_N_go x s) = true.
Proof.
  revert s. induction (N.lt_wf_0 x) as [x _ IH]; intros s Hs.
  assert (x = 0 \/ 0 < x)%N as [->|Hx] by lia.
  - by rewrite pretty_N_go_0.
  - rewrite pretty_N_go_step by done. apply IH; [by apply N.div_lt|].
    simpl. by rewrite pretty_N_char_digit.
Qed.

Lemma pretty_N_digits (x : N) : allChars isDigit (pretty x) = true.
Proof.
  unfold pretty, pretty_N. destruct (decide (x = 0%N)); [done|].
  by apply pretty_N_go_digits.
Qed.

(** A printed natural number consists of digits. *)
Lemma showNat_digits (n : nat) : allChars isDigit (showNat n) = true.
Proof. apply pretty_N_digits. Qed.

Lemma showNat_chars (n : nat) : allChars isDigitOrDash (showNat n) = true.
Proof.
  eapply allChars_impl; [|apply showNat_digits].
  intros c Hc. unfold isDigitOrDash. by rewrite Hc.
Qed.

Lemma showZ_chars (z : Z) : allChars isDigitOrDash (showZ z) = true.
Proof.
  assert (Hd : forall c, isDigit c = true -> isDigitOrDash c = true).
  { intros c Hc. unfold isDigitOrDash. by rewrite Hc. }
  unfold showZ, pretty, pretty_Z. destruct z as [|p|p]; [done| |].
  - eapply allChars_impl; [exact Hd|]. apply pretty_N_digits.
  - rewrite allChars_app. apply andb_true_iff. split; [done|].
    eapply allChars_impl; [exact Hd|]. apply pretty_N_digits.
Qed.

(** The tails [<now>-<index>] and [<now>-<row>-<col>] of generated ids. *)
Lemma stamp_chars (now : Z) (i : nat) :
  allChars isDigitOrDash (showZ now +:+ "-" +:+ showNat i) = true.
Proof.
  rewrite allChars_app, showZ_chars, append_cons, append_nil. simpl.
  apply showNat_chars.
Qed.

Lemma stamp2_chars (now : Z) (i j : nat) :
  allChars isDigitOrDash (showZ now +:+ "-" +:+ showNat i +:+ "-" +:+ showNat j) = true.
Proof.
  rewrite allChars_app, showZ_chars, append_cons, append_nil. simpl.
  rewrite allChars_app, showNat_chars, append_cons, append_nil. simpl.
  apply showNat_chars.
Qed.

Lemma startsWith_absent (p : Ascii.ascii -> bool) (s needle : string) (c : Ascii.ascii) :
  allChars p s = true -> p c = false -> startsWith s (String c needle) = false.
Proof.
  intros Hs Hc. destruct s as [|b s]; [done|]. simpl.
  simpl in Hs. apply andb_true_iff in Hs as [Hb _].
  destruct (Ascii.eqb c b) eqn:Heq; [|done].
  apply Ascii.eqb_eq in Heq. congruence.
Qed.

(** A text does not contain a needle whose first character it lacks. *)
Lemma includes_absent (p : Ascii.ascii -> bool) (s needle : string) (c : Ascii.ascii) :
  allChars p s = true -> p c = false -> includes s (String c needle) = false.
Proof.
  intros Hs Hc. induction s as [|b s IH].
  - done.
  - cbn [includes]. rewrite (startsWith_absent p _ _ _ Hs Hc).
    simpl in Hs. apply andb_true_iff in Hs as [_ Hs]. by apply IH.
Qed.

(** What follows the last dash determines the digits after it. *)
Lemma last_segment_inj (s1 s2 d1 d2 : string) :
  allChars isDigit d1 = true -> allChars isDigit d2 = true ->
  s1 +:+ "-" +:+ d1 = s2 +:+ "-" +:+ d2 -> d1 = d2.
Proof.
  intros Hd1 Hd2. revert s2. induction s1 as [|c s1 IH]; intros [|c' s2] Heq.
  - by simplify_eq/=.
  - injection Heq as Hc Hrest. change ("" +:+ d1) with d1 in Hrest. rewrite Hrest in Hd1.
    rewrite allChars_app in Hd1. simpl in Hd1. by rewrite andb_false_r in Hd1.
  - injection Heq as Hc Hrest. change ("" +:+ d2) with d2 in Hrest.
    rewrite <- Hrest in Hd2.
    rewrite allChars_app in Hd2. simpl in Hd2. by rewrite andb_false_r in Hd2.
  - injection Heq as Hc Hrest. by apply (IH s2).
Qed.

Lemma stamp_index_inj (p : string) (now now' : Z) (i i' : nat) :
  p +:+ showZ now +:+ "-" +:+ showNat i = p +:+ showZ now' +:+ "-" +:+ showNat i' ->
  i = i'.
Proof.
  intros Heq. apply (inj (String.app p)) in Heq.
  apply last_segment_inj in Heq; [|apply showNat_digits..].
  by apply (inj pretty) in Heq.
Qed.

End IdStrings.

Section Indexed.
Context {A B : Type}.

(** The elements a loop pushes, with the indices they were pushed at. *)
Lemma forEachPush_indexed (R : B -> nat -> Prop)
    (body : Z -> nat -> A -> option B) (clock : nat -> Z)
    (items : list A) (index : nat) (acc : list B) :
  (forall now i a b, body now i a = Some b -> R b i) ->
  exists tail indices,
    forEachPush body clock items index acc = acc ++ tail
    /\ Forall2 R tail indices
    /\ StronglySorted Nat.lt indices
    /\ Forall (fun i => (index <= i)%nat) indices.
Proof.
  intros Hbody. revert index acc.
  induction items as [|item rest IH]; intros index acc; simpl.
  - exists [], []. rewrite app_nil_r. repeat split; constructor.
  - destruct (body (clock (length acc)) index item) as [b|] eqn:Hb.
    + destruct (IH (S index) (acc ++ [b])) as (tail & idxs & -> & HR & Hs & Hge).
      exists (b :: tail), (index :: idxs). rewrite <- app_assoc.
      split; [done|]. split; [constructor; eauto|]. split.
      * apply StronglySorted_cons. split; [|done].
        eapply Forall_impl; [exact Hge|]. intros i Hi. unfold Nat.lt. simpl in Hi. lia.
      * constructor; [lia|]. eapply Forall_impl; [exact Hge|]. intros i Hi. simpl in Hi. lia.
    + destruct (IH (S index) acc) as (tail & idxs & -> & HR & Hs & Hge).
      exists tail, idxs. split; [done|]. split; [done|]. split; [done|].
      eapply Forall_impl; [exact Hge|]. intros i Hi. simpl in Hi. lia.
Qed.

Lemma indexed_NoDup {K : Type} (R : B -> nat -> Prop) (key : B -> K)
    (l : list B) (indices : list nat) :
  (forall b b' i i', R b i -> R b' i' -> key b = key b' -> i = i') ->
  Forall2 R l indices -> StronglySorted Nat.lt indices -> NoDup (key <$> l).
Proof.
  intros Hinj HR. induction HR as [|b i l idxs Hb HR IH]; intros Hs; [constructor|].
  apply StronglySorted_cons in Hs as [Hi Hs]. simpl. constructor; [|by apply IH].
  intros Hin. apply list_elem_of_fmap in Hin as (b' & Hkey & Hb').
  apply list_elem_of_lookup in Hb' as [k Hk].
  destruct (Forall2_lookup_l _ _ _ _ _ HR Hk) as (i' & Hi' & HR').
  assert (i = i') as <- by eauto.
  rewrite Forall_forall in Hi. apply list_elem_of_lookup_2 in Hi'.
  specialize (Hi _ Hi'). unfold Nat.lt in Hi. lia.
Qed.

End Indexed.

Section OcrIds.
Import OcrUtils UseOCR.

(** X20: the boxes one call of [generateBoundingBoxes] returns have
    pairwise different ids, whatever the clock reads: the id ends in the
    position of the item among the filtered items. *)
Theorem generateBoundingBoxes_ids_distinct
    (textData : option OCRResult) (settings : OCRSettings) (clock : nat -> Z)
    (unit : Unit) :
  NoDup (box_id <$> generateBoundingBoxes textData settings clock unit).
Proof.
  unfold generateBoundingBoxes. destruct textData as [textData|]; [|constructor].
  set (R := fun (b : BoundingBox) (i : nat) =>
              exists now, box_id b = "ocr-" +:+ levelName (level settings) +:+ "-bbox-"
                                     +:+ showZ now +:+ "-" +:+ showNat i).
  destruct (forEachPush_indexed R (ocrBoxOfItem settings) clock
              (filterOCRResultsByConfidence (getOCRDataByLevel textData (level settings))
                 (minConfidence settings)) 0 [])
    as (tail & idxs & -> & HR & Hs & _).
  - intros now i item b. unfold ocrBoxOfItem.
    destruct (item_bbox item) as [bbox|]; [|discriminate].
    destruct (bbox_pt bbox) as [coords|]; [|discriminate].
    destruct (_ && _); [|discriminate]. intros [= <-]. by exists now.
  - simpl. eapply indexed_NoDup; [|exact HR|exact Hs].
    intros b b' i i' [now Hb] [now' Hb'] Hkey. rewrite Hb, Hb' in Hkey.
    apply (inj (String.app "ocr-")) in Hkey.
    apply (inj (String.app (levelName (level settings)))) in Hkey.
    by apply (stamp_index_inj "-bbox-") in Hkey.
Qed.

End OcrIds.

(** ** Lines, cells and regions of the fallback detector *)

Section Lines.
Local Open Scope Q_scope.
Import TableDetectionUtils.

Lemma flat_map_singleton_filter {A B : Type} (b : A -> bool) (f : A -> B) (l : list A) :
  flat_map (fun y => if b y then [f y] else []) l
  = f <$> filter (fun y => b y = true) l.
Proof.
  induction l as [|a l IH]; [done|].
  cbn [flat_map]. rewrite filter_cons, IH.
  destruct (b a); [by rewrite decide_True|by rewrite decide_False].
Qed.

Lemma seq_StronglySorted (s n : nat) : StronglySorted Nat.lt (seq s n).
Proof.
  revert s. induction n as [|n IH]; intros s; [constructor|].
  cbn [seq]. apply StronglySorted_cons. split; [|apply IH].
  apply Forall_forall. intros e He. apply elem_of_seq in He. unfold Nat.lt. lia.
Qed.

Lemma filter_StronglySorted {A : Type} (R : relation A) (P : A -> Prop)
    `{forall x, Decision (P x)} (l : list A) :
  StronglySorted R l -> StronglySorted R (filter P l).
Proof.
  induction l as [|a l IH]; [done|].
  rewrite StronglySorted_cons. intros [Ha Hl]. rewrite filter_cons.
  destruct (decide (P a)); [|by apply IH].
  apply StronglySorted_cons. split; [|by apply IH].
  apply Forall_forall. intros x Hx. apply list_elem_of_filter in Hx as [_ Hx].
  rewrite Forall_forall in Ha. by apply Ha.
Qed.

(** X21: [detectHorizontalLines] and [detectVerticalLines] return row and
    column numbers of the image in strictly increasing order: whole
    numbers below the height and the width, none of them twice, for every
    pixel array and every minimum length. *)
Theorem detected_lines_increasing (data : list Z) (width height : nat)
    (minLineLength : option number) :
  (exists ys : list nat,
      detectHorizontalLines data width height minLineLength = natQ <$> ys
      /\ StronglySorted Nat.lt ys /\ Forall (fun y => (y < height)%nat) ys)
  /\ (exists xs : list nat,
        detectVerticalLines data width height minLineLength = natQ <$> xs
        /\ StronglySorted Nat.lt xs /\ Forall (fun x => (x < width)%nat) xs).
Proof.
  split.
  - unfold detectHorizontalLines.
    eexists. split; [apply (flat_map_singleton_filter _ natQ)|]. split.
    + apply filter_StronglySorted, seq_StronglySorted.
    + apply Forall_forall. intros y Hy.
      apply list_elem_of_filter in Hy as [_ Hy]. apply elem_of_seq in Hy. lia.
  - unfold detectVerticalLines.
    eexists. split; [apply (flat_map_singleton_filter _ natQ)|]. split.
    + apply filter_StronglySorted, seq_StronglySorted.
    + apply Forall_forall. intros y Hy.
      apply list_elem_of_filter in Hy as [_ Hy]. apply elem_of_seq in Hy. lia.
Qed.

Lemma le_false_le (a b : Q) : le a b = false -> b <= a.
Proof.
  unfold le. intros H. apply not_true_iff_false in H. rewrite Qle_bool_iff in H. lra.
Qed.

Lemma insertSorted_elem (a x : Q) (l : list Q) :
  x ∈ insertSorted a l <-> x = a \/ x ∈ l.
Proof.
  induction l as [|b l IH]; simpl.
  - rewrite list_elem_of_singleton, elem_of_nil. tauto.
  - destruct (le a b); rewrite !elem_of_cons; [tauto|]. rewrite IH. tauto.
Qed.

Lemma sortAscending_elem (x : Q) (l : list Q) : x ∈ sortAscending l <-> x ∈ l.
Proof.
  induction l as [|a l IH]; [done|].
  unfold sortAscending in *. simpl. rewrite insertSorted_elem, elem_of_cons, IH. tauto.
Qed.

Lemma insertSorted_sorted (a : Q) (l : list Q) :
  StronglySorted Qle l -> StronglySorted Qle (insertSorted a l).
Proof.
  induction l as [|b l IH]; intros Hl; simpl.
  - repeat constructor.
  - apply StronglySorted_cons in Hl as [Hb Hl].
    destruct (le a b) eqn:Hab.
    + apply Qle_bool_iff in Hab.
      apply StronglySorted_cons. split; [|by apply StronglySorted_cons].
      constructor; [done|]. eapply Forall_impl; [exact Hb|].
      intros c Hc. simpl in Hc. lra.
    + apply le_false_le in Hab.
      apply StronglySorted_cons. split; [|by apply IH].
      apply Forall_forall. intros c Hc. apply insertSorted_elem in Hc as [->|Hc]; [done|].
      rewrite Forall_forall in Hb. by apply Hb.
Qed.

Lemma sortAscending_sorted (l : list Q) : StronglySorted Qle (sortAscending l).
Proof.
  induction l as [|a l IH]; [constructor|].
  unfold sortAscending in *. simpl. by apply insertSorted_sorted.
Qed.

Lemma spaced_singleton (d a : Q) : Spec.spaced d [a].
Proof. intros [|i] x y Hx Hy; simpl in *; discriminate. Qed.

Lemma spaced_nil (d : Q) : Spec.spaced d [].
Proof. intros i x y Hx Hy; simpl in *; discriminate. Qed.

Lemma spaced_cons (d a b : Q) (l : list Q) :
  Spec.spaced d (a :: b :: l) <-> (a <= b /\ d <= b - a) /\ Spec.spaced d (b :: l).
Proof.
  split.
  - intros H. split; [by apply (H 0%nat)|].
    intros i x y Hx Hy. by apply (H (S i)).
  - intros [Hab H] [|i] x y Hx Hy.
    + simpl in Hx, Hy. by simplify_eq.
    + by apply (H i).
Qed.

Lemma keepDistant_spaced (d last : Q) (rest : list Q) :
  Forall (Qle last) rest -> StronglySorted Qle rest ->
  Spec.spaced d (last :: keepDistant d last rest).
Proof.
  revert last. induction rest as [|l rest IH]; intros last Hlast Hs; simpl.
  - apply spaced_singleton.
  - apply Forall_cons in Hlast as [Hl Hlast].
    apply StronglySorted_cons in Hs as [Hlr Hs].
    destruct (ge (l - last) d) eqn:Hge.
    + apply spaced_cons. split; [|by apply IH].
      split; [done|]. unfold ge, le in Hge. by apply Qle_bool_iff in Hge.
    + by apply IH.
Qed.

Lemma keepDistant_elem (d last x : Q) (rest : list Q) :
  x ∈ keepDistant d last rest -> x ∈ rest.
Proof.
  revert last. induction rest as [|l rest IH]; intros last; simpl; [done|].
  destruct (ge (l - last) d); rewrite !elem_of_cons; [|by eauto].
  intros [->|H]; eauto.
Qed.

Lemma filterLines_chain (lines : list number) (maxDimension : number)
    (minDistance : option number) :
  Spec.spaced (default (Math_max 10 (maxDimension * 0.01)) minDistance)
    (filterLines lines maxDimension minDistance).
Proof.
  unfold filterLines.
  pose proof (sortAscending_sorted lines) as Hs.
  destruct (sortAscending lines) as [|first rest]; [apply spaced_nil|].
  apply StronglySorted_cons in Hs as [Hfirst Hs]. by apply keepDistant_spaced.
Qed.

Lemma sortAscending_chain (d : Q) (l : list Q) :
  Spec.spaced d l -> sortAscending l = l.
Proof.
  induction l as [|a l IH]; [done|]. intros Hsp.
  unfold sortAscending in *. simpl.
  destruct l as [|b l]; [done|].
  apply spaced_cons in Hsp as [[Hab _] Hsp]. rewrite (IH Hsp).
  simpl. apply Qle_bool_iff in Hab. unfold le. by rewrite Hab.
Qed.

Lemma keepDistant_chain (d a : Q) (l : list Q) :
  Spec.spaced d (a :: l) -> keepDistant d a l = l.
Proof.
  revert a. induction l as [|b l IH]; intros a Hsp; [done|].
  apply spaced_cons in Hsp as [[_ Hd] Hsp]. simpl.
  apply Qle_bool_iff in Hd. unfold ge, le. rewrite Hd. by rewrite (IH b Hsp).
Qed.

(** X22: [filterLines] returns lines of its input, in ascending order and
    each at least the minimum distance (by default the larger of 10 and a
    hundredth of the image size) after the one before; the first is the
    smallest line of the input, the result is empty only for an empty
    input, and filtering the result again changes nothing. *)
Theorem filterLines_spaced (lines : list number) (maxDimension : number)
    (minDistance : option number) :
  Spec.spaced (default (Math_max 10 (maxDimension * 0.01)) minDistance)
    (filterLines lines maxDimension minDistance)
  /\ (forall a, a ∈ filterLines lines maxDimension minDistance -> a ∈ lines)
  /\ (forall a b, filterLines lines maxDimension minDistance !! 0%nat = Some a ->
                  b ∈ lines -> a <= b)
  /\ (filterLines lines maxDimension minDistance = [] <-> lines = [])
  /\ filterLines (filterLines lines maxDimension minDistance) maxDimension minDistance
     = filterLines lines maxDimension minDistance.
Proof.
  split; [apply filterLines_chain|].
  split; [|split; [|split]].
  - unfold filterLines.
    pose proof (fun x => sortAscending_elem x lines) as He.
    destruct (sortAscending lines) as [|first rest].
    + intros a Ha. by apply elem_of_nil in Ha.
    + intros a Ha. apply He. apply elem_of_cons in Ha as [->|Ha]; [left|right].
      by eapply keepDistant_elem.
  - unfold filterLines.
    pose proof (sortAscending_sorted lines) as Hs.
    pose proof (fun x => sortAscending_elem x lines) as He.
    destruct (sortAscending lines) as [|first rest]; [intros a b Ha; discriminate|].
    apply StronglySorted_cons in Hs as [Hfirst Hs].
    intros a b [= <-] Hb. apply He in Hb. apply elem_of_cons in Hb as [->|Hb]; [lra|].
    rewrite Forall_forall in Hfirst. by apply Hfirst.
  - unfold filterLines.
    pose proof (sortAscending_length lines) as Hlen.
    destruct (sortAscending lines) as [|first rest].
    + split; [|done]. intros _. destruct lines; [done|discriminate].
    + split; [done|]. intros ->. discriminate.
  - pose proof (filterLines_chain lines maxDimension minDistance) as Hsp.
    set (out := filterLines lines maxDimension minDistance) in *. clearbody out.
    unfold filterLines. rewrite (sortAscending_chain _ _ Hsp).
    destruct out as [|a out]; [done|]. by rewrite (keepDistant_chain _ _ _ Hsp).
Qed.

End Lines.

Section Cells.
Local Open Scope Q_scope.
Import TableDetectionUtils.

Lemma lt_false_iff (a b : Q) : lt a b = false <-> b <= a.
Proof. unfold lt. rewrite negb_false_iff. apply Qle_bool_iff. Qed.

Lemma gt_false_iff (a b : Q) : gt a b = false <-> a <= b.
Proof. unfold gt. apply lt_false_iff. Qed.

Lemma isValidCell_bounds (x y width height imgWidth imgHeight : number) :
  isValidCell x y width height imgWidth imgHeight = true ->
  20 <= width /\ 15 <= height
  /\ width <= imgWidth * 0.9 /\ height <= imgHeight * 0.9
  /\ 0 <= x /\ 0 <= y /\ x + width <= imgWidth /\ y + height <= imgHeight
  /\ 0.1 <= width / height /\ width / height <= 10.
Proof.
  unfold isValidCell.
  destruct (lt width 20) eqn:H1; [discriminate|].
  destruct (lt height 15) eqn:H2; [discriminate|].
  destruct (gt width (imgWidth * 0.9)) eqn:H3; [discriminate|].
  destruct (gt height (imgHeight * 0.9)) eqn:H4; [discriminate|].
  destruct (lt x 0) eqn:H5; [discriminate|].
  destruct (lt y 0) eqn:H6; [discriminate|].
  destruct (gt (x + width) imgWidth) eqn:H7; [discriminate|].
  destruct (gt (y + height) imgHeight) eqn:H8; [discriminate|].
  destruct (lt (width / height) 0.1) eqn:H9; [discriminate|].
  destruct (gt (width / height) 10) eqn:H10; [discriminate|].
  intros _.
  rewrite lt_false_iff in H1, H2, H5, H6, H9.
  rewrite gt_false_iff in H3, H4, H7, H8, H10.
  repeat split; assumption.
Qed.

Lemma flat_map_length_le {A B : Type} (f : A -> list B) (l : list A) (k : nat) :
  (forall a, length (f a) <= k)%nat ->
  (length (flat_map f l) <= length l * k)%nat.
Proof.
  intros Hf. induction l as [|a l IH]; [done|].
  cbn [flat_map length]. rewrite length_app. specialize (Hf a). lia.
Qed.

(** X23: every cell [createCellsFromLines] returns spans two neighbouring
    lines on each axis, is at least 20 wide and 15 high, at most nine
    tenths of the image on each axis, and lies inside the image; there are
    at most (rows - 1) x (columns - 1) cells, and none when an axis has
    fewer than two lines. *)
Theorem createCellsFromLines_cells
    (horizontalLines verticalLines : list number) (imgWidth imgHeight : number) :
  Forall (fun cell =>
            (cell_row cell + 1 < length horizontalLines)%nat
            /\ (cell_col cell + 1 < length verticalLines)%nat
            /\ cell_x cell = lineAt verticalLines (cell_col cell)
            /\ cell_y cell = lineAt horizontalLines (cell_row cell)
            /\ cell_width cell
               = lineAt verticalLines (cell_col cell + 1)
                 - lineAt verticalLines (cell_col cell)
            /\ cell_height cell
               = lineAt horizontalLines (cell_row cell + 1)
                 - lineAt horizontalLines (cell_row cell)
            /\ 20 <= cell_width cell /\ 15 <= cell_height cell
            /\ cell_width cell <= imgWidth * 0.9
            /\ cell_height cell <= imgHeight * 0.9
            /\ 0 <= cell_x cell /\ 0 <= cell_y cell
            /\ cell_x cell + cell_width cell <= imgWidth
            /\ cell_y cell + cell_height cell <= imgHeight)
    (createCellsFromLines horizontalLines verticalLines imgWidth imgHeight)
  /\ (length (createCellsFromLines horizontalLines verticalLines imgWidth imgHeight)
      <= (length horizontalLines - 1) * (length verticalLines - 1))%nat
  /\ ((length horizontalLines < 2)%nat \/ (length verticalLines < 2)%nat ->
      createCellsFromLines horizontalLines verticalLines imgWidth imgHeight = []).
Proof.
  unfold createCellsFromLines. split; [|split].
  - destruct (_ || _); [constructor|].
    apply Forall_forall. intros cell Hcell.
    apply list_elem_of_In, in_flat_map in Hcell as (row & Hrow & Hcell).
    apply in_flat_map in Hcell as (col & Hcol & Hcell).
    apply in_seq in Hrow, Hcol.
    destruct (isValidCell _ _ _ _ _ _) eqn:Hvalid; [|destruct Hcell].
    destruct Hcell as [<-|[]]. cbn [cell_row cell_col cell_x cell_y cell_width cell_height].
    split; [lia|]. split; [lia|].
    apply isValidCell_bounds in Hvalid as (?&?&?&?&?&?&?&?&?&?).
    split; [reflexivity|]. split; [reflexivity|].
    split; [reflexivity|]. split; [reflexivity|]. tauto.
  - destruct (_ || _); [apply Nat.le_0_l|].
    etrans; [apply (flat_map_length_le _ _ (length verticalLines - 1))|].
    + intros row.
      etrans; [apply (flat_map_length_le _ _ 1)|].
      * intros col. destruct (isValidCell _ _ _ _ _ _); simpl; lia.
      * rewrite length_seq. lia.
    + by rewrite length_seq.
  - intros Hshort.
    assert (Hb : Nat.ltb (length horizontalLines) 2 || Nat.ltb (length verticalLines) 2 = true).
    { apply orb_true_iff. rewrite !Nat.ltb_lt. done. }
    by rewrite Hb.
Qed.

End Cells.

Section Regions.
Import TableDetectionUtils.

Lemma floodStep_within data width height st :
  Spec.floodWithinImage width height st ->
  Spec.floodWithinImage width height (floodStep data width height st).
Proof.
  unfold Spec.floodWithinImage, floodStep. intros Hb.
  destruct (stack st) as [|[x y] rest]; [done|].
  destruct (decide _); [done|].
  destruct (_ || _)%bool eqn:Hout; [done|].
  destruct (isDarkAt _ _ _); [|done].
  cbn [minX maxX minY maxY].
  apply orb_false_iff in Hout as [Hout Hy2]. apply orb_false_iff in Hout as [Hout Hy1].
  apply orb_false_iff in Hout as [Hx1 Hx2].
  apply Z.ltb_ge in Hx1, Hy1. apply Z.leb_gt in Hx2, Hy2. lia.
Qed.

Lemma floodLoop_within data width height fuel st :
  Spec.floodWithinImage width height st ->
  Spec.floodWithinImage width height (floodLoop data width height fuel st).
Proof.
  revert st. induction fuel as [|fuel IH]; intros st Hb; simpl; [done|].
  destruct (floodContinue st); [|done]. by apply IH, floodStep_within.
Qed.

Lemma findTableRegion_within data width height startX startY visited0 region visited' :
  (0 <= startX < Z.of_nat width)%Z -> (0 <= startY < Z.of_nat height)%Z ->
  findTableRegion data width height startX startY visited0 = (Some region, visited') ->
  Spec.regionWithinImage width height region.
Proof.
  intros Hx Hy. unfold findTableRegion.
  pose proof (floodLoop_within data width height floodFuel
                {| stack := [(startX, startY)]; regionPixels := ∅; visited := visited0;
                   minX := startX; maxX := startX; minY := startY; maxY := startY |})
    as Hin.
  set (st := floodLoop _ _ _ _ _) in *. clearbody st.
  assert (Hb : Spec.floodWithinImage width height st).
  { apply Hin. unfold Spec.floodWithinImage. cbn [minX maxX minY maxY]. lia. }
  clear Hin. unfold Spec.floodWithinImage in Hb.
  destruct (lt (inject_Z (maxX st - minX st)) 100%Q) eqn:H1; [discriminate|].
  destruct (lt (inject_Z (maxY st - minY st)) 50%Q) eqn:H2; [discriminate|].
  cbn [orb].
  destruct (gt (inject_Z (maxX st - minX st)) (natQ width * 0.9)%Q) eqn:H3; [discriminate|].
  destruct (gt (inject_Z (maxY st - minY st)) (natQ height * 0.9)%Q) eqn:H4; [discriminate|].
  cbn [orb]. intros [= <- _].
  exists (minX st), (minY st), (maxX st - minX st)%Z, (maxY st - minY st)%Z.
  cbn [region_x region_y region_width region_height].
  apply lt_false_iff in H1, H2. apply gt_false_iff in H3, H4.
  change 100%Q with (inject_Z 100) in H1. change 50%Q with (inject_Z 50) in H2.
  rewrite <- Zle_Qle in H1, H2.
  split; [done|]. split; [done|]. split; [done|]. split; [done|].
  split; [lia|]. split; assumption.
Qed.

Lemma seedsBelow_range (limit v : Z) :
  v ∈ seedsBelow limit -> (0 <= v < limit)%Z.
Proof.
  unfold seedsBelow. intros Hv. apply list_elem_of_fmap in Hv as (k & -> & Hk).
  apply elem_of_seq in Hk.
  assert (Z.of_nat k < (limit + 19) / 20)%Z as Hk' by lia.
  pose proof (Z.mul_div_le (limit + 19) 20 ltac:(lia)). lia.
Qed.

Lemma visitSeed_within data width height acc seed :
  (0 <= snd seed < Z.of_nat width)%Z -> (0 <= fst seed < Z.of_nat height)%Z ->
  Forall (Spec.regionWithinImage width height) (fst acc) ->
  Forall (Spec.regionWithinImage width height)
    (fst (visitSeed data width height acc seed)).
Proof.
  intros Hx Hy Hacc. unfold visitSeed.
  destruct (decide _); [done|].
  destruct (findTableRegion _ _ _ _ _ _) as [[region|] visited'] eqn:Hf; [|done].
  cbn [fst]. apply Forall_app. split; [done|].
  constructor; [|constructor]. by eapply findTableRegion_within.
Qed.

Lemma detectTableRegions_Forall_within data width height :
  Forall (Spec.regionWithinImage width height) (detectTableRegions data width height).
Proof.
  unfold detectTableRegions.
  set (seeds := flat_map _ _).
  assert (Hseeds : Forall (fun seed => (0 <= snd seed < Z.of_nat width)%Z
                                       /\ (0 <= fst seed < Z.of_nat height)%Z) seeds).
  { apply Forall_forall. intros [y x] Hin.
    apply list_elem_of_In, in_flat_map in Hin as (y' & Hy & Hin).
    apply list_elem_of_In, list_elem_of_fmap in Hin as (x' & [= -> ->] & Hx).
    apply list_elem_of_In, seedsBelow_range in Hy. apply seedsBelow_range in Hx.
    cbn [fst snd]. lia. }
  clearbody seeds.
  assert (Hgen : forall acc,
             Forall (Spec.regionWithinImage width height) (fst acc) ->
             Forall (Spec.regionWithinImage width height)
               (fst (fold_left (visitSeed data width height) seeds acc))).
  { induction Hseeds as [|seed seeds [Hx Hy] _ IH]; intros acc Hacc; [done|].
    simpl. apply IH. by apply visitSeed_within. }
  apply Hgen. constructor.
Qed.

(** X24: every region [detectTableRegions] returns has whole-number
    coordinates, lies inside the image, is at least 100 wide and 50 high
    and at most nine tenths of the image on each axis; hence an image at
    most 111 pixels wide or at most 55 pixels high has no region. *)
Theorem detectTableRegions_within_image (data : list Z) (width height : nat) :
  Forall (Spec.regionWithinImage width height) (detectTableRegions data width height)
  /\ ((width <= 111)%nat \/ (height <= 55)%nat ->
      detectTableRegions data width height = []).
Proof.
  pose proof (detectTableRegions_Forall_within data width height) as Hall.
  split; [exact Hall|].
  intros Hsmall. destruct (detectTableRegions data width height) as [|r rs]; [done|].
  exfalso. apply Forall_cons in Hall as [(x & y & w & h & _ & _ & _ & _ & Hz & Hw & Hh) _].
  unfold natQ in Hw, Hh.
  assert (Hw' : (inject_Z w * 10 <= inject_Z (Z.of_nat width) * 9)%Q).
  { revert Hw. generalize (inject_Z w), (inject_Z (Z.of_nat width)). intros; lra. }
  assert (Hh' : (inject_Z h * 10 <= inject_Z (Z.of_nat height) * 9)%Q).
  { revert Hh. generalize (inject_Z h), (inject_Z (Z.of_nat height)). intros; lra. }
  change 10%Q with (inject_Z 10) in Hw', Hh'. change 9%Q with (inject_Z 9) in Hw', Hh'.
  rewrite <- !inject_Z_mult, <- Zle_Qle in Hw', Hh'. lia.
Qed.

(** X25: the flood fill of [findTableRegion] ends by its own loop
    condition, an empty stack or 10000 region pixels, within 50001
    iterations for every image and start point, and running it with more
    iterations allowed gives the same state: the loop terminates and the
    bound on iterations never cuts it short. *)
Theorem findTableRegion_loop_terminates (data : list Z) (width height : nat)
    (startX startY : Z) (visited0 : gset (Z * Z)) (extra : nat) :
  floodContinue
    (floodLoop data width height floodFuel
       {| stack := [(startX, startY)]; regionPixels := ∅; visited := visited0;
          minX := startX; maxX := startX; minY := startY; maxY := startY |}) = false
  /\ floodLoop data width height (floodFuel + extra)
       {| stack := [(startX, startY)]; regionPixels := ∅; visited := visited0;
          minX := startX; maxX := startX; minY := startY; maxY := startY |}
     = floodLoop data width height floodFuel
         {| stack := [(startX, startY)]; regionPixels := ∅; visited := visited0;
            minX := startX; maxX := startX; minY := startY; maxY := startY |}.
Proof.
  assert (Hm : (floodMeasure
                  {| stack := [(startX, startY)]; regionPixels := ∅; visited := visited0;
                     minX := startX; maxX := startX; minY := startY; maxY := startY |}
                <= floodFuel)%nat).
  { unfold floodMeasure, floodFuel. cbn [stack regionPixels length].
    rewrite size_empty. lia. }
  split; [by apply floodLoop_terminates|by apply floodLoop_fuel_irrelevant].
Qed.

End Regions.

(** ** The boxes of the table detector *)

Section DetectorBoxes.
Import CoordinateConversion TableDetectionUtils UseTableDetection.

Variables PR PH PV PC : BoundingBox -> Prop.
Hypothesis region_ok : forall now i coords,
  PR (tableBox ("table-region-" +:+ showZ now +:+ "-" +:+ showNat i) coords).
Hypothesis hline_ok : forall now i coords,
  PH (tableBox ("hline-" +:+ showZ now +:+ "-" +:+ showNat i) coords).
Hypothesis vline_ok : forall now i coords,
  PV (tableBox ("vline-" +:+ showZ now +:+ "-" +:+ showNat i) coords).
Hypothesis contour_ok : forall now i coords,
  PC (tableBox ("cell-contour-" +:+ showZ now +:+ "-" +:+ showNat i) coords).
Hypothesis cell_ok : forall now row col coords,
  PC (tableBox ("cell-" +:+ showZ now +:+ "-" +:+ showNat row
                +:+ "-" +:+ showNat col) coords).

(** The fallback returns cell and region boxes, and region boxes only
    outside the 'cells' mode. *)
Lemma detectTablesFallback_by_mode env mode clock boxes :
  detectTablesFallback env mode clock = Ok boxes ->
  Forall (fun b => PC b \/ PR b) boxes
  /\ (mode <> ModeCells -> Forall PR boxes).
Proof.
  unfold detectTablesFallback.
  destruct (imageDataUrl env) as [url|]; [|discriminate].
  destruct (negb (truthy_string url)); [discriminate|].
  destruct (domImg env) as [img|]; [|discriminate].
  destruct (negb (canvasContext env)); [discriminate|].
  destruct (_ || _); [discriminate|].
  assert (Hcells : forall cells,
             Forall (fun b => PC b \/ PR b) (forEachPush fallbackCellBox clock cells 0 [])).
  { intros cells. apply forEachPush_Forall; [|constructor].
    intros now i a b [= <-]. left. apply cell_ok. }
  assert (Hnone : mode <> ModeCells ->
                  fallbackCells (pixels img) (naturalWidth img) (naturalHeight img) mode = []).
  { intros Hm. unfold fallbackCells. destruct (_ && _); [|done]. by destruct mode. }
  destruct (_ || _); intros [= <-].
  - split.
    + apply forEachPush_Forall; [|apply Hcells].
      intros now i a b [= <-]. right. apply region_ok.
    + intros Hm. rewrite (Hnone Hm). apply forEachPush_Forall; [|constructor].
      intros now i a b [= <-]. apply region_ok.
  - split; [apply Hcells|]. intros Hm. rewrite (Hnone Hm). constructor.
Qed.

Lemma detectTablesWithOpenCV_by_mode env cv mode clock boxes :
  detectTablesWithOpenCV env cv mode clock = Ok boxes ->
  Forall (Spec.byMode PR PH PV PC mode) boxes.
Proof.
  unfold detectTablesWithOpenCV.
  destruct (imageDataUrl env) as [url|]; [|discriminate].
  destruct (negb (truthy_string url)); [discriminate|].
  destruct (domImg env) as [img|]; [|discriminate].
  destruct (_ || _); [discriminate|].
  destruct (cv_imread cv img) as [[rows cols]|]; [|discriminate].
  destruct (_ || _); [discriminate|].
  destruct mode; unfold Spec.byMode.
  - destruct (cv_tableContours _ _ _ _) as [contours|]; [|discriminate].
    intros [= <-]. apply forEachPush_Forall; [|constructor].
    intros now i r b. unfold cvRegionBox.
    destruct (_ && _); [|discriminate]. intros [= <-]. apply region_ok.
  - destruct (cv_cellContours _ _ _ _) as [contours|]; [|discriminate].
    intros [= <-]. apply forEachPush_Forall; [|constructor].
    intros now i r b. unfold cvCellBox.
    destruct (_ && _); [|discriminate]. intros [= <-]. left. apply contour_ok.
  - destruct (cv_lineContours _ _ _ _) as [[hs vs]|]; [|discriminate].
    intros [= <-]. apply forEachPush_Forall; [|apply forEachPush_Forall; [|constructor]].
    + intros now i r b. unfold cvVLineBox.
      destruct (_ || _); [|discriminate]. intros [= <-]. right. left. apply vline_ok.
    + intros now i r b. unfold cvHLineBox.
      destruct (_ || _); [|discriminate]. intros [= <-]. left. apply hline_ok.
Qed.

Lemma detectTables_by_mode st env clock boxes :
  fst (detectTables st env clock) = Ok boxes ->
  Forall (Spec.byMode PR PH PV PC (mode st)) boxes.
Proof.
  assert (Hfb : forall bs, detectTablesFallback env (mode st) clock = Ok bs ->
                           Forall (Spec.byMode PR PH PV PC (mode st)) bs).
  { intros bs Hbs. apply detectTablesFallback_by_mode in Hbs as [Hall Hnot].
    unfold Spec.byMode. destruct (mode st) eqn:Hm.
    - by apply Hnot.
    - exact Hall.
    - eapply Forall_impl; [by apply Hnot|]. intros b Hb. simpl in Hb. auto. }
  unfold detectTables.
  destruct (windowCv env) as [cv|].
  - destruct (_ || _).
    + destruct (detectTablesFallback _ _ _) as [bs|] eqn:Hd; simpl; [|discriminate].
      intros [= <-]. by apply Hfb.
    + destruct (detectTablesWithOpenCV _ _ _ _) as [bs|] eqn:Hd; simpl; [|discriminate].
      intros [= <-]. by apply detectTablesWithOpenCV_by_mode in Hd.
  - destruct (detectTablesFallback _ _ _) as [bs|] eqn:Hd; simpl; [|discriminate].
    intros [= <-]. by apply Hfb.
Qed.

End DetectorBoxes.

Section DetectorRoles.
Local Open Scope Q_scope.
Import CoordinateConversion TableDetectionUtils UseTableDetection BoundingBoxesList.

Ltac role_by_id Htail :=
  unfold Spec.hasRole, getBoxType, tableBox; cbn [box_id box_kind];
  rewrite !append_cons, !append_nil;
  cbn [includes startsWith Ascii.eqb Bool.eqb andb orb];
  repeat match goal with
         | |- context [includes ?t (String ?c ?n)] =>
             rewrite (includes_absent IdText.isDigitOrDash t n c Htail eq_refl)
         end;
  repeat split; reflexivity.

Lemma region_role_of (tail : string) coords :
  IdText.allChars IdText.isDigitOrDash tail = true ->
  Spec.hasRole "Table Region" false false (tableBox ("table-region-" +:+ tail) coords).
Proof. intros Htail. role_by_id Htail. Qed.

Lemma hline_role_of (tail : string) coords :
  IdText.allChars IdText.isDigitOrDash tail = true ->
  Spec.hasRole "Horizontal Line" true false (tableBox ("hline-" +:+ tail) coords).
Proof. intros Htail. role_by_id Htail. Qed.

Lemma vline_role_of (tail : string) coords :
  IdText.allChars IdText.isDigitOrDash tail = true ->
  Spec.hasRole "Vertical Line" true false (tableBox ("vline-" +:+ tail) coords).
Proof. intros Htail. role_by_id Htail. Qed.

Lemma contour_role_of (tail : string) coords :
  IdText.allChars IdText.isDigitOrDash tail = true ->
  Spec.hasRole "Table Cell" false true (tableBox ("cell-contour-" +:+ tail) coords).
Proof. intros Htail. role_by_id Htail. Qed.

Lemma cell_role_of (tail : string) coords :
  IdText.allChars IdText.isDigitOrDash tail = true ->
  Spec.hasRole "Table Cell" false true (tableBox ("cell-" +:+ tail) coords).
Proof. intros Htail. role_by_id Htail. Qed.

Lemma role_counts (boxes : list BoundingBox) :
  Forall (fun b => exists role line cell,
                     Spec.hasRole role line cell b /\ (line && cell = false)) boxes ->
  (length (lineBoxes boxes) + length (cellBoxes boxes) + length (regionBoxes boxes)
   = length boxes)%nat.
Proof.
  unfold lineBoxes, cellBoxes, regionBoxes, tableBoxes.
  induction 1 as [|b boxes (role & line & cell & (Hk & _ & Hl & Hc) & Hlc) _ IH]; [done|].
  rewrite (filter_cons (fun box => box_kind box = Some KindTable)).
  rewrite decide_True by done. rewrite !filter_cons.
  destruct line, cell; [discriminate Hlc| | |];
    repeat case_decide; rewrite ?Hl, ?Hc in *; simpl in *;
    try discriminate; try tauto; lia.
Qed.

(** X26: the bounding-box list infers the role of a table box from its id.
    For the boxes a successful [detectTables] returns the inference agrees
    with the producer: in 'table' mode every box is listed as a table
    region, in 'cells' mode as a cell or a region, in 'lines' mode as a
    horizontal line, a vertical line or a region; and the counts of lines,
    cells and regions in the heading add up to the number of boxes. *)
Theorem detected_boxes_have_their_role
    (st : HookState) (env : Env) (clock : nat -> Z) (boxes : list BoundingBox) :
  fst (detectTables st env clock) = Ok boxes ->
  Forall (Spec.byMode (Spec.hasRole "Table Region" false false)
            (Spec.hasRole "Horizontal Line" true false)
            (Spec.hasRole "Vertical Line" true false)
            (Spec.hasRole "Table Cell" false true) (mode st)) boxes
  /\ (length (lineBoxes boxes) + length (cellBoxes boxes) + length (regionBoxes boxes)
      = length boxes)%nat.
Proof.
  intros Hok.
  assert (Hall : Forall (Spec.byMode (Spec.hasRole "Table Region" false false)
                           (Spec.hasRole "Horizontal Line" true false)
                           (Spec.hasRole "Vertical Line" true false)
                           (Spec.hasRole "Table Cell" false true) (mode st)) boxes).
  { revert Hok. apply detectTables_by_mode.
    - intros. apply region_role_of, stamp_chars.
    - intros. apply hline_role_of, stamp_chars.
    - intros. apply vline_role_of, stamp_chars.
    - intros. apply contour_role_of, stamp_chars.
    - intros. apply cell_role_of, stamp2_chars. }
  split; [exact Hall|]. apply role_counts.
  eapply Forall_impl; [exact Hall|]. intros b Hb. unfold Spec.byMode in Hb.
  destruct (mode st).
  - exists "Table Region", false, false. auto.
  - destruct Hb as [Hb|Hb].
    + exists "Table Cell", false, true. auto.
    + exists "Table Region", false, false. auto.
  - destruct Hb as [Hb|[Hb|Hb]].
    + exists "Horizontal Line", true, false. auto.
    + exists "Vertical Line", true, false. auto.
    + exists "Table Region", false, false. auto.
Qed.

Lemma detected_boxes_have_their_role_witness :
  Forall (Spec.byMode (Spec.hasRole "Table Region" false false)
            (Spec.hasRole "Horizontal Line" true false)
            (Spec.hasRole "Vertical Line" true false)
            (Spec.hasRole "Table Cell" false true) ModeLines)
    [mkBoundingBox "hline-1700000000000-0" 4.80 9.60 72.00 0.48 UnitPt (Some KindTable);
     mkBoundingBox "vline-1700000000001-0" 4.80 9.60 0.48 48.00 UnitPt (Some KindTable)]
  /\ Nat.add
       (Nat.add
          (length (lineBoxes
                     [mkBoundingBox "hline-1700000000000-0" 4.80 9.60 72.00 0.48 UnitPt
                        (Some KindTable);
                      mkBoundingBox "vline-1700000000001-0" 4.80 9.60 0.48 48.00 UnitPt
                        (Some KindTable)]))
          (length (cellBoxes
                     [mkBoundingBox "hline-1700000000000-0" 4.80 9.60 72.00 0.48 UnitPt
                        (Some KindTable);
                      mkBoundingBox "vline-1700000000001-0" 4.80 9.60 0.48 48.00 UnitPt
                        (Some KindTable)])))
       (length (regionBoxes
                  [mkBoundingBox "hline-1700000000000-0" 4.80 9.60 72.00 0.48 UnitPt
                     (Some KindTable);
                   mkBoundingBox "vline-1700000000001-0" 4.80 9.60 0.48 48.00 UnitPt
                     (Some KindTable)]))
     = length
         [mkBoundingBox "hline-1700000000000-0" 4.80 9.60 72.00 0.48 UnitPt
            (Some KindTable);
          mkBoundingBox "vline-1700000000001-0" 4.80 9.60 0.48 48.00 UnitPt
            (Some KindTable)].
Proof.
  apply (detected_boxes_have_their_role
           {| mode := ModeLines; isProcessing := false; cvLoaded := true;
              cvError := None |}
           {| imageDataUrl := Some "data:image/png;base64,AAAA";
              domImg := Some (mkImage 400 300 400 300 true []);
              canvasContext := true;
              windowCv :=
                Some {| cv_imread := fun _ => Ok (300%nat, 400%nat);
                        cv_tableContours := fun _ _ _ => Ok [];
                        cv_lineContours := fun _ _ _ =>
                          Ok ([mkCvRect 20 40 300 2], [mkCvRect 20 40 2 200]);
                        cv_cellContours := fun _ _ _ => Ok [] |} |}
           (fun k => 1700000000000 + Z.of_nat k)%Z).
  vm_compute. reflexivity.
Defined.

(** X27: [handleClearTableBoxes] undoes [handleDetectTables]: every box a
    successful [detectTables] returns has kind 'table', so clearing the
    table boxes after adding them leaves what clearing alone would have
    left; boxes of other kinds and without kind are kept. *)
Theorem clear_table_boxes_undoes_detection
    (st : HookState) (env : Env) (clock : nat -> Z)
    (boxes prev : list BoundingBox) :
  fst (detectTables st env clock) = Ok boxes ->
  ImagePdfPage.handleClearTableBoxes (ImagePdfPage.handleDetectTables boxes prev)
  = ImagePdfPage.handleClearTableBoxes prev.
Proof.
  intros Hok.
  assert (Hall : Forall (fun b => box_kind b = Some KindTable) boxes).
  { eapply Forall_impl.
    - revert Hok.
      apply (detectTables_by_mode (fun b => box_kind b = Some KindTable)
               (fun b => box_kind b = Some KindTable)
               (fun b => box_kind b = Some KindTable)
               (fun b => box_kind b = Some KindTable)); reflexivity.
    - intros b Hb. unfold Spec.byMode in Hb.
      destruct (mode st); [assumption|by destruct Hb|by destruct Hb as [?|[?|?]]]. }
  unfold ImagePdfPage.handleClearTableBoxes, ImagePdfPage.handleDetectTables,
    UseBoundingBoxes.removeBoundingBoxesByKind, UseBoundingBoxes.addBoundingBoxes.
  rewrite filter_app.
  assert (Hnil : filter (fun box => box_kind box <> Some KindTable) boxes = []).
  { clear Hok. induction Hall as [|b boxes Hb _ IH]; [done|].
    rewrite filter_cons, decide_False by (intros H; by apply H). exact IH. }
  by rewrite Hnil, app_nil_r.
Qed.

Lemma clear_table_boxes_undoes_detection_witness :
  ImagePdfPage.handleClearTableBoxes
    (ImagePdfPage.handleDetectTables
       [mkBoundingBox "hline-1700000000000-0" 4.80 9.60 72.00 0.48 UnitPt (Some KindTable);
        mkBoundingBox "vline-1700000000001-0" 4.80 9.60 0.48 48.00 UnitPt (Some KindTable)]
       [mkBoundingBox "bbox-1" 1%Q 2%Q 30%Q 40%Q UnitPt (Some KindManual)])
  = ImagePdfPage.handleClearTableBoxes
      [mkBoundingBox "bbox-1" 1%Q 2%Q 30%Q 40%Q UnitPt (Some KindManual)].
Proof.
  apply (clear_table_boxes_undoes_detection
           {| mode := ModeLines; isProcessing := false; cvLoaded := true;
              cvError := None |}
           {| imageDataUrl := Some "data:image/png;base64,AAAA";
              domImg := Some (mkImage 400 300 400 300 true []);
              canvasContext := true;
              windowCv :=
                Some {| cv_imread := fun _ => Ok (300%nat, 400%nat);
                        cv_tableContours := fun _ _ _ => Ok [];
                        cv_lineContours := fun _ _ _ =>
                          Ok ([mkCvRect 20 40 300 2], [mkCvRect 20 40 2 200]);
                        cv_cellContours := fun _ _ _ => Ok [] |} |}
           (fun k => 1700000000000 + Z.of_nat k)%Z).
  vm_compute. reflexivity.
Defined.

(** X28: a call of [detectTables] that fails leaves the hook with
    [isProcessing] off and a non-empty [cvError]; a call made in that state
    takes the fallback path, with or without the morphological engine
    loaded, until something else resets [cvError]. *)
Theorem detectTables_failure_disables_opencv
    (st : HookState) (env : Env) (clock : nat -> Z) (message : string)
    (env' : Env) (clock' : nat -> Z) :
  fst (detectTables st env clock) = Throw message ->
  cvErrorSet (snd (detectTables st env clock)) = true
  /\ isProcessing (snd (detectTables st env clock)) = false
  /\ fst (detectTables (snd (detectTables st env clock)) env' clock')
     = detectTablesFallback env' (mode st) clock'.
Proof.
  intros Hthrow.
  assert (Hst : snd (detectTables st env clock)
                = {| mode := mode st; isProcessing := false; cvLoaded := cvLoaded st;
                     cvError := Some ("表検出エラー: " +:+ message) |}).
  { revert Hthrow. unfold detectTables.
    destruct (match windowCv env with Some _ => _ | None => _ end) as [bs|msg];
      simpl; [discriminate|]. by intros [= ->]. }
  rewrite Hst. split; [reflexivity|]. split; [reflexivity|].
  unfold detectTables. cbn [cvLoaded mode].
  assert (Hset : cvErrorSet
                   {| mode := mode st; isProcessing := false; cvLoaded := cvLoaded st;
                      cvError := Some ("表検出エラー: " +:+ message) |} = true)
    by reflexivity.
  rewrite Hset, orb_true_r.
  destruct (windowCv env'); by destruct (detectTablesFallback env' (mode st) clock').
Qed.

Lemma detectTables_failure_disables_opencv_witness :
  cvErrorSet
    (snd (detectTables
            {| mode := ModeLines; isProcessing := false; cvLoaded := true;
               cvError := None |}
            {| imageDataUrl := None; domImg := None; canvasContext := true;
               windowCv :=
                 Some {| cv_imread := fun _ => Ok (300%nat, 400%nat);
                         cv_tableContours := fun _ _ _ => Ok [];
                         cv_lineContours := fun _ _ _ =>
                           Ok ([mkCvRect 20 40 300 2], [mkCvRect 20 40 2 200]);
                         cv_cellContours := fun _ _ _ => Ok [] |} |}
            (fun k => 1700000000000 + Z.of_nat k)%Z)) = true
  /\ isProcessing
       (snd (detectTables
               {| mode := ModeLines; isProcessing := false; cvLoaded := true;
                  cvError := None |}
               {| imageDataUrl := None; domImg := None; canvasContext := true;
                  windowCv :=
                    Some {| cv_imread := fun _ => Ok (300%nat, 400%nat);
                            cv_tableContours := fun _ _ _ => Ok [];
                            cv_lineContours := fun _ _ _ =>
                              Ok ([mkCvRect 20 40 300 2], [mkCvRect 20 40 2 200]);
                            cv_cellContours := fun _ _ _ => Ok [] |} |}
               (fun k => 1700000000000 + Z.of_nat k)%Z)) = false
  /\ fst (detectTables
            (snd (detectTables
                    {| mode := ModeLines; isProcessing := false; cvLoaded := true;
                       cvError := None |}
                    {| imageDataUrl := None; domImg := None; canvasContext := true;
                       windowCv :=
                         Some {| cv_imread := fun _ => Ok (300%nat, 400%nat);
                                 cv_tableContours := fun _ _ _ => Ok [];
                                 cv_lineContours := fun _ _ _ =>
                                   Ok ([mkCvRect 20 40 300 2], [mkCvRect 20 40 2 200]);
                                 cv_cellContours := fun _ _ _ => Ok [] |} |}
                    (fun k => 1700000000000 + Z.of_nat k)%Z))
            {| imageDataUrl := Some "data:image/png;base64,AAAA";
               domImg := Some (mkImage 400 300 400 300 true []);
               canvasContext := true;
               windowCv :=
                 Some {| cv_imread := fun _ => Ok (300%nat, 400%nat);
                         cv_tableContours := fun _ _ _ => Ok [];
                         cv_lineContours := fun _ _ _ =>
                           Ok ([mkCvRect 20 40 300 2], [mkCvRect 20 40 2 200]);
                         cv_cellContours := fun _ _ _ => Ok [] |} |}
            (fun k => 1700000000100 + Z.of_nat k)%Z)
     = detectTablesFallback
         {| imageDataUrl := Some "data:image/png;base64,AAAA";
            domImg := Some (mkImage 400 300 400 300 true []);
            canvasContext := true;
            windowCv :=
              Some {| cv_imread := fun _ => Ok (300%nat, 400%nat);
                      cv_tableContours := fun _ _ _ => Ok [];
                      cv_lineContours := fun _ _ _ =>
                        Ok ([mkCvRect 20 40 300 2], [mkCvRect 20 40 2 200]);
                      cv_cellContours := fun _ _ _ => Ok [] |} |}
         ModeLines (fun k => 1700000000100 + Z.of_nat k)%Z.
Proof.
  apply (detectTables_failure_disables_opencv
           {| mode := ModeLines; isProcessing := false; cvLoaded := true;
              cvError := None |}
           {| imageDataUrl := None; domImg := None; canvasContext := true;
              windowCv :=
                Some {| cv_imread := fun _ => Ok (300%nat, 400%nat);
                        cv_tableContours := fun _ _ _ => Ok [];
                        cv_lineContours := fun _ _ _ =>
                          Ok ([mkCvRect 20 40 300 2], [mkCvRect 20 40 2 200]);
                        cv_cellContours := fun _ _ _ => Ok [] |} |}
           (fun k => 1700000000000 + Z.of_nat k)%Z
           "No image available for table detection").
  reflexivity.
Defined.

End DetectorRoles.

(** ** The contrast filter *)

Section Preprocessing.
Local Open Scope Q_scope.
Import ImagePreprocessing.

Lemma Qle_bool_false (a b : Q) : Qle_bool a b = false <-> b < a.
Proof.
  rewrite <- not_true_iff_false, Qle_bool_iff. split; [apply Qnot_le_lt|apply Qlt_not_le].
Qed.

Lemma lt_true_iff (a b : Q) : lt a b = true <-> a < b.
Proof. unfold lt. rewrite negb_true_iff. apply Qle_bool_false. Qed.

(** The stored byte is within one half of the clamped number. *)
Lemma toUint8Clamped_near (v : Q) :
  0 <= v -> v <= 255 ->
  inject_Z (toUint8Clamped v) - 0.5 <= v /\ v <= inject_Z (toUint8Clamped v) + 0.5.
Proof.
  intros H0 H255. unfold toUint8Clamped.
  destruct (Qle_bool v 0) eqn:Ha.
  { apply Qle_bool_iff in Ha. change (inject_Z 0) with 0. lra. }
  destruct (Qle_bool 255 v) eqn:Hb.
  { apply Qle_bool_iff in Hb. change (inject_Z 255) with 255. lra. }
  pose proof (Qfloor_le v) as Hl. pose proof (Qlt_floor v) as Hu.
  rewrite inject_Z_plus in Hu. change (inject_Z 1) with 1 in Hu.
  cbv zeta.
  destruct (lt (v - inject_Z (Qfloor v)) 0.5) eqn:H1.
  { apply lt_true_iff in H1. revert Hl Hu H1. generalize (inject_Z (Qfloor v)).
    intros; lra. }
  apply lt_false_iff in H1.
  destruct (lt 0.5 (v - inject_Z (Qfloor v))) eqn:H2.
  { rewrite inject_Z_plus. change (inject_Z 1) with 1.
    revert Hl Hu H1. generalize (inject_Z (Qfloor v)). intros; lra. }
  apply lt_false_iff in H2.
  destruct (Z.even (Qfloor v)).
  - revert Hl Hu H1 H2. generalize (inject_Z (Qfloor v)). intros; lra.
  - rewrite inject_Z_plus. change (inject_Z 1) with 1.
    revert Hl Hu H1 H2. generalize (inject_Z (Qfloor v)). intros; lra.
Qed.

Lemma toUint8Clamped_comp (u v : Q) : u == v -> toUint8Clamped u = toUint8Clamped v.
Proof.
  intros Huv. unfold toUint8Clamped.
  assert (Ha : Qle_bool u 0 = Qle_bool v 0).
  { apply eq_true_iff_eq. rewrite !Qle_bool_iff. by rewrite Huv. }
  assert (Hb : Qle_bool 255 u = Qle_bool 255 v).
  { apply eq_true_iff_eq. rewrite !Qle_bool_iff. by rewrite Huv. }
  rewrite Ha, Hb, (Qfloor_comp u v Huv). cbv zeta.
  assert (Hc : lt (u - inject_Z (Qfloor v)) 0.5 = lt (v - inject_Z (Qfloor v)) 0.5).
  { apply eq_true_iff_eq. rewrite !lt_true_iff. by rewrite Huv. }
  assert (Hd : lt 0.5 (u - inject_Z (Qfloor v)) = lt 0.5 (v - inject_Z (Qfloor v))).
  { apply eq_true_iff_eq. rewrite !lt_true_iff. by rewrite Huv. }
  by rewrite Hc, Hd.
Qed.

(** Storing into the clamped array keeps the order of the numbers. *)
Lemma toUint8Clamped_mono (u v : Q) :
  0 <= u -> u <= v -> v <= 255 -> (toUint8Clamped u <= toUint8Clamped v)%Z.
Proof.
  intros H0 Huv H255.
  destruct (toUint8Clamped_near u) as [Hu1 Hu2]; [lra..|].
  destruct (toUint8Clamped_near v) as [Hv1 Hv2]; [lra..|].
  destruct (Z_le_gt_dec (toUint8Clamped u) (toUint8Clamped v)) as [|Hgt]; [done|].
  exfalso.
  assert (Hz : (toUint8Clamped v + 1 <= toUint8Clamped u)%Z) by lia.
  rewrite Zle_Qle, inject_Z_plus in Hz. change (inject_Z 1) with 1 in Hz.
  assert (Heq : u == v).
  { revert Hu1 Hu2 Hv1 Hv2 Hz.
    generalize (inject_Z (toUint8Clamped u)), (inject_Z (toUint8Clamped v)).
    intros; lra. }
  rewrite (toUint8Clamped_comp u v Heq) in Hgt. lia.
Qed.

Lemma clamp_range (e : Q) :
  0 <= Math_max 0 (Math_min 255 e) /\ Math_max 0 (Math_min 255 e) <= 255.
Proof.
  unfold Math_max, Math_min.
  destruct (Qle_bool 255 e) eqn:H1;
    [apply Qle_bool_iff in H1|apply Qle_bool_false in H1].
  - destruct (Qle_bool 0 255) eqn:H2; [lra|]. apply Qle_bool_false in H2. lra.
  - destruct (Qle_bool 0 e) eqn:H2;
      [apply Qle_bool_iff in H2|apply Qle_bool_false in H2]; lra.
Qed.

Lemma clamp_mono (a b : Q) :
  a <= b -> Math_max 0 (Math_min 255 a) <= Math_max 0 (Math_min 255 b).
Proof.
  intros Hab. unfold Math_min.
  destruct (Qle_bool 255 a) eqn:Ha;
    [apply Qle_bool_iff in Ha|apply Qle_bool_false in Ha];
    (destruct (Qle_bool 255 b) eqn:Hb;
     [apply Qle_bool_iff in Hb|apply Qle_bool_false in Hb]);
    unfold Math_max;
    repeat match goal with
           | |- context [Qle_bool ?x ?y] =>
               let H := fresh "H" in
               destruct (Qle_bool x y) eqn:H;
               [apply Qle_bool_iff in H|apply Qle_bool_false in H]
           end; lra.
Qed.

Lemma clamp_low (e : Q) :
  e <= 0 -> toUint8Clamped (Math_max 0 (Math_min 255 e)) = 0%Z.
Proof.
  intros He. rewrite (toUint8Clamped_comp _ 0); [reflexivity|].
  unfold Math_min. destruct (Qle_bool 255 e) eqn:H1;
    [apply Qle_bool_iff in H1; lra|].
  unfold Math_max. destruct (Qle_bool 0 e) eqn:H2; [|reflexivity].
  apply Qle_bool_iff in H2. lra.
Qed.

Lemma clamp_high (e : Q) :
  255 <= e -> toUint8Clamped (Math_max 0 (Math_min 255 e)) = 255%Z.
Proof.
  intros He. rewrite (toUint8Clamped_comp _ 255); [reflexivity|].
  unfold Math_min. apply Qle_bool_iff in He. rewrite He. reflexivity.
Qed.

(** With a contrast above 259/255 the factor is negative. *)
Lemma contrastFactor_negative (contrast : number) :
  259 < contrast * 255 -> contrastFactor (Some contrast) < 0.
Proof.
  intros Hc. unfold contrastFactor. cbn [default from_option]. unfold id.
  set (n := 259 * (contrast * 255 + 255)).
  set (d := 255 * (259 - contrast * 255)).
  assert (Hn : 0 < n) by (unfold n; lra).
  assert (Hd : d < 0) by (unfold d; lra).
  clearbody n d.
  assert (Hinv : / d < 0).
  { destruct (Qlt_le_dec (/ d) 0) as [|Hge]; [done|]. exfalso.
    assert (Hone : d * / d == 1) by (apply Qmult_inv_r; lra).
    assert (d * / d <= 0).
    { rewrite <- (Qmult_0_l (/ d)). apply Qmult_le_compat_r; lra. }
    lra. }
  unfold Qdiv. rewrite <- (Qmult_0_r n).
  apply (proj2 (Qmult_lt_l (/ d) 0 n Hn)). exact Hinv.
Qed.

Lemma default_contrastFactor : contrastFactor None == - (145299 # 11985).
Proof. vm_compute. reflexivity. Qed.

(** X30: [adjustContrast] with a contrast above 259/255, which includes the
    default 1.2, reverses the order of brightness: of two channel values
    the darker comes out at least as bright as the brighter one.  With the
    default, every value from 139 up becomes 0 and every value up to 117
    becomes 255. *)
Theorem adjustContrast_reverses_brightness
    (contrast : option number) (dark bright : Z) :
  259 < default 1.2 contrast * 255 ->
  (dark <= bright)%Z ->
  (contrastChannel contrast bright <= contrastChannel contrast dark)%Z
  /\ (contrast = None -> (139 <= bright)%Z -> contrastChannel contrast bright = 0%Z)
  /\ (contrast = None -> (dark <= 117)%Z -> contrastChannel contrast dark = 255%Z).
Proof.
  intros Hc Hle. split; [|split].
  - unfold contrastChannel.
    assert (Hf : contrastFactor contrast < 0).
    { destruct contrast as [c|]; [by apply contrastFactor_negative|].
      rewrite default_contrastFactor. reflexivity. }
    set (f := contrastFactor contrast) in *. clearbody f.
    apply toUint8Clamped_mono.
    + apply clamp_range.
    + apply clamp_mono. rewrite Zle_Qle in Hle.
      set (a := inject_Z dark) in *. set (b := inject_Z bright) in *. clearbody a b.
      assert (Hp : 0 <= (0 - f) * (b - a)) by (apply Qmult_le_0_compat; lra).
      assert (Hq : (0 - f) * (b - a) == f * (a - 128) - f * (b - 128)) by ring.
      lra.
    + apply clamp_range.
  - intros -> Hb. unfold contrastChannel. apply clamp_low.
    rewrite default_contrastFactor. rewrite Zle_Qle in Hb.
    change (inject_Z 139) with 139 in Hb.
    set (b := inject_Z bright) in *. clearbody b. qconst. lra.
  - intros -> Hd. unfold contrastChannel. apply clamp_high.
    rewrite default_contrastFactor. rewrite Zle_Qle in Hd.
    change (inject_Z 117) with 117 in Hd.
    set (a := inject_Z dark) in *. clearbody a. qconst. lra.
Qed.

Lemma adjustContrast_reverses_brightness_witness :
  (contrastChannel None 200 <= contrastChannel None 100)%Z
  /\ (@None number = None -> (139 <= 200)%Z -> contrastChannel None 200 = 0%Z)
  /\ (@None number = None -> (100 <= 117)%Z -> contrastChannel None 100 = 255%Z).
Proof.
  apply (adjustContrast_reverses_brightness None 100 200);
    vm_compute; first [reflexivity | discriminate].
Defined.

End Preprocessing.
